(** * Tinnitus Care: the audio engine (TinnitusAudioEngine) and its callers

    A shallow embedding of [src/app.js] (the engine class and the first UI
    script) and of the second UI script, which registers the auto-stop
    callback.

    - [Synth]: the sample loops of the buffer generators.  JavaScript numbers
      are modelled as real numbers (rounding of IEEE doubles is abstracted
      away) and [Math.random()] as a stream of draws from [0,1) that every
      call advances by one.
    - [Engine]: the session controller.  The Web Audio device, the clock, the
      interval timers and the few DOM cells the scripts touch form the host
      state; the engine's fields sit next to it, and every method is a
      computation in a state-and-exception monad over both. *)

From Stdlib Require Import List ZArith QArith Bool String Lia.
From Stdlib Require Import Reals Lra.
Import ListNotations.

(* ================================================================== *)
(** ** Signal synthesis *)
(* ================================================================== *)

Module Synth.

Local Open Scope R_scope.

(** [Math.random()]: the draws are a stream, the cursor is the state. *)
Definition Rand (A : Type) : Type := nat -> A * nat.

Definition rret {A} (a : A) : Rand A := fun k => (a, k).
Definition rbind {A B} (m : Rand A) (f : A -> Rand B) : Rand B :=
  fun k => let '(a, k') := m k in f a k'.

Notation "x <~ m ;; f" := (rbind m (fun x => f))
  (at level 61, m at next level, right associativity).

Section Generators.

Variable rnd : nat -> R.

Definition random : Rand R := fun k => (rnd k, S k).

(** The body of [for (let i = 0; i < bufferSize; i++)] in
    [createWhiteNoiseBuffer]; [n] counts the iterations left. *)
Fixpoint whiteLoop (n : nat) : Rand (list R) :=
  match n with
  | O => rret []
  | S n' =>
      u <~ random ;;
      rest <~ whiteLoop n' ;;
      rret ((u * 2 - 1) :: rest)
  end.

(** [createRainBuffer], one channel: [lastOut] is the loop-carried variable. *)
Fixpoint rainLoop (n : nat) (lastOut : R) : Rand (list R) :=
  match n with
  | O => rret []
  | S n' =>
      u <~ random ;;
      let white := u * 2 - 1 in
      let out := (lastOut + (0.02 * white)) / 1.002 in
      let d := out * 2 in
      g <~ random ;;
      d' <~ (if Rgt_dec g 0.9995
             then (c <~ random ;; rret (d + (c * 2 - 1) * 0.5))
             else rret d) ;;
      rest <~ rainLoop n' out ;;
      rret (d' :: rest)
  end.

(** [createWaveBuffer], one channel. *)
Fixpoint waveLoop (bufferSize : nat) (n i : nat) (lastOut : R) : Rand (list R) :=
  match n with
  | O => rret []
  | S n' =>
      u <~ random ;;
      let white := u * 2 - 1 in
      let out := (lastOut + (0.02 * white)) / 1.002 in
      let lfo := 0.5 + 0.5 * sin ((INR i / INR bufferSize) * PI * 2) in
      rest <~ waveLoop bufferSize n' (S i) out ;;
      rret ((out * 4 * lfo) :: rest)
  end.

(** The seven filter variables [b0 .. b6] of the pink-noise recipes. *)
Record Pink := mkPink { b0 : R; b1 : R; b2 : R; b3 : R; b4 : R; b5 : R; b6 : R }.

Definition pink0 : Pink := mkPink 0 0 0 0 0 0 0.

(** One pass over the seven assignments and the [out] expression between
    them: returns the new filter variables and [out]. *)
Definition pinkStep (p : Pink) (white : R) : Pink * R :=
  let b0' := 0.99886 * b0 p + white * 0.0555179 in
  let b1' := 0.99332 * b1 p + white * 0.0750759 in
  let b2' := 0.96900 * b2 p + white * 0.1538520 in
  let b3' := 0.86650 * b3 p + white * 0.3104856 in
  let b4' := 0.55000 * b4 p + white * 0.5329522 in
  let b5' := -0.7616 * b5 p - white * 0.0168980 in
  let out := (b0' + b1' + b2' + b3' + b4' + b5' + b6 p + white * 0.5362) * 0.11 in
  let b6' := white * 0.115926 in
  (mkPink b0' b1' b2' b3' b4' b5' b6', out).

(** [const wind = 0.7 + 0.3 * Math.sin((i / bufferSize) * Math.PI * 4)]. *)
Definition wind (i bufferSize : nat) : R :=
  0.7 + 0.3 * sin ((INR i / INR bufferSize) * PI * 4).

(** [createForestBuffer], one channel. *)
Fixpoint forestLoop (bufferSize : nat) (n i : nat) (p : Pink) : Rand (list R) :=
  match n with
  | O => rret []
  | S n' =>
      u <~ random ;;
      let white := u * 2 - 1 in
      let '(p', out) := pinkStep p white in
      rest <~ forestLoop bufferSize n' (S i) p' ;;
      rret ((out * wind i bufferSize) :: rest)
  end.

(** [createNightBuffer], one channel. *)
Fixpoint nightLoop (sampleRate : R) (n i : nat) (p : Pink) : Rand (list R) :=
  match n with
  | O => rret []
  | S n' =>
      u <~ random ;;
      let white := u * 2 - 1 in
      let '(p', out) := pinkStep p white in
      let chirpEnv := (0.5 + 0.5 * sin ((INR i / sampleRate) * PI * 10)) ^ 20 in
      c <~ random ;;
      let chirp := (c * 2 - 1) * chirpEnv * 0.15 in
      rest <~ nightLoop sampleRate n' (S i) p' ;;
      rret ((out * 0.4 + chirp) :: rest)
  end.

(** [createTempleBuffer], one channel. *)
Fixpoint templeLoop (sampleRate : R) (n i : nat) (p : Pink) : Rand (list R) :=
  match n with
  | O => rret []
  | S n' =>
      u <~ random ;;
      let white := u * 2 - 1 in
      let '(p', out) := pinkStep p white in
      let resonance := sin ((INR i / sampleRate) * PI * 2 * 380) * 0.015 in
      rest <~ templeLoop sampleRate n' (S i) p' ;;
      rret ((out + resonance) :: rest)
  end.

(** [for (let channel = 0; channel < 2; channel++)]: the two channels are
    filled one after the other from the same stream of draws. *)
Definition twoChannels (chan : Rand (list R)) : Rand (list R * list R) :=
  c0 <~ chan ;;
  c1 <~ chan ;;
  rret (c0, c1).

(** The six generators.  [bufferSize] is [sampleRate * duration]; the sample
    rate is the context's, here an argument. *)
Definition createWhiteNoiseBuffer (sampleRate duration : nat) :=
  let bufferSize := (sampleRate * duration)%nat in
  twoChannels (whiteLoop bufferSize).

Definition createRainBuffer (sampleRate duration : nat) :=
  let bufferSize := (sampleRate * duration)%nat in
  twoChannels (rainLoop bufferSize 0).

Definition createWaveBuffer (sampleRate duration : nat) :=
  let bufferSize := (sampleRate * duration)%nat in
  twoChannels (waveLoop bufferSize bufferSize 0 0).

Definition createForestBuffer (sampleRate duration : nat) :=
  let bufferSize := (sampleRate * duration)%nat in
  twoChannels (forestLoop bufferSize bufferSize 0 pink0).

Definition createNightBuffer (sampleRate duration : nat) :=
  let bufferSize := (sampleRate * duration)%nat in
  twoChannels (nightLoop (INR sampleRate) bufferSize 0 pink0).

Definition createTempleBuffer (sampleRate duration : nat) :=
  let bufferSize := (sampleRate * duration)%nat in
  twoChannels (templeLoop (INR sampleRate) bufferSize 0 pink0).

(** *** The recurrences the loops are compared with *)

(** The leaky integrator over a sequence of white samples:
    [brown w i] is the value of [out] in iteration [i]. *)
Fixpoint brown (w : nat -> R) (i : nat) : R :=
  match i with
  | O => (0 + 0.02 * w O) / 1.002
  | S j => (brown w j + 0.02 * w i) / 1.002
  end.

(** The same integrator started from an arbitrary carried value. *)
Fixpoint brownFrom (x0 : R) (w : nat -> R) (i : nat) : R :=
  match i with
  | O => (x0 + 0.02 * w O) / 1.002
  | S j => (brownFrom x0 w j + 0.02 * w i) / 1.002
  end.

(** The pink filter run over a sequence of white samples: the filter
    variables before iteration [i], and the value of [out] in it. *)
Fixpoint pinkStateFrom (p0 : Pink) (w : nat -> R) (i : nat) : Pink :=
  match i with
  | O => p0
  | S j => fst (pinkStep (pinkStateFrom p0 w j) (w j))
  end.

Definition pinkOutFrom (p0 : Pink) (w : nat -> R) (i : nat) : R :=
  snd (pinkStep (pinkStateFrom p0 w i) (w i)).

Definition pinkOut (w : nat -> R) (i : nat) : R := pinkOutFrom pink0 w i.

(** The cursor after one iteration of [rainLoop] that started at [c]: an
    iteration takes two draws, or three when its gate draw exceeds 0.9995. *)
Definition rainNext (c : nat) : nat :=
  if Rgt_dec (rnd (S c)) 0.9995 then (3 + c)%nat else (2 + c)%nat.

(** Cursor of the draw that yields [white] in iteration [i] of [rainLoop]
    started at cursor [k]. *)
Fixpoint rainCursor (k : nat) (i : nat) : nat :=
  match i with
  | O => k
  | S j => rainNext (rainCursor k j)
  end.

Definition rainWhite (k i : nat) : R := rnd (rainCursor k i) * 2 - 1.

Definition rainSpike (k i : nat) : R :=
  let c := rainCursor k i in
  if Rgt_dec (rnd (S c)) 0.9995 then (rnd (S (S c)) * 2 - 1) * 0.5 else 0.

End Generators.

(** The stream whose every draw is 3/4: white is 1/2 throughout and the
    spike gate of Rain (a draw above 0.9995) never opens. *)
Definition draws34 : nat -> R := fun _ => 3 / 4.

(** *** Names for parts of the Night and Temple samples *)

(** [Math.pow(0.5 + 0.5 * Math.sin((i / sampleRate) * Math.PI * 10), 20)]. *)
Definition chirpEnv (sampleRate : R) (i : nat) : R :=
  (0.5 + 0.5 * sin ((INR i / sampleRate) * PI * 10)) ^ 20.

(** [Math.sin((i / sampleRate) * Math.PI * 2 * 380) * 0.015]. *)
Definition resonance (sampleRate : R) (i : nat) : R :=
  sin ((INR i / sampleRate) * PI * 2 * 380) * 0.015.

(** The region the seven filter variables never leave while the white
    samples stay in [-1, 1]. *)
Definition pinkBounded (p : Pink) : Prop :=
  -48.7 <= b0 p <= 48.7 /\ -11.24 <= b1 p <= 11.24 /\
  -4.97 <= b2 p <= 4.97 /\ -2.33 <= b3 p <= 2.33 /\
  -1.19 <= b4 p <= 1.19 /\ -0.071 <= b5 p <= 0.071 /\
  -0.115926 <= b6 p <= 0.115926.


End Synth.


(* ================================================================== *)
(** ** The session controller and its host *)
(* ================================================================== *)

Module Engine.

Local Open Scope Z_scope.
Local Open Scope string_scope.

(** *** Host state: audio device, clock, timers, DOM cells *)

(** An audio node, known by its identity.  Node 0 is
    [audioContext.destination]. *)
Definition node := nat.
Definition destination : node := O.

Inductive ContextState := suspended | running | closed.

Inductive Param := frequency | gain | Qfactor.

(** Which generator filled a buffer; the samples themselves are the subject
    of [Synth], the controller only hands the buffer to the source node. *)
Inductive Generator := WhiteNoise | Rain | Wave | Forest | Night | Temple.

Record AudioBuffer := mkBuffer {
  generator : Generator;
  duration : Z;
  numberOfChannels : Z;
  bufferSize : Z
}.

Inductive Alert := AudioInitFailed | AutoStopNotice.

(** The one function the second UI script stores in [audioEngine.onAutoStop]. *)
Inductive Callback := AutoStopHandler.

(** The exceptions the scripts can meet: a property read on null, and a
    source node started twice or stopped before it was started. *)
Inductive Exn := TypeError | InvalidStateError.

Record Host := mkHost {
  supported : bool;                    (* an AudioContext constructor exists *)
  ctxState : ContextState;             (* audioContext.state *)
  sampleRate : Z;                      (* audioContext.sampleRate *)
  nextNode : node;                     (* identity of the next node created *)
  edges : list (node * node);          (* connect / disconnect *)
  started : list node;                 (* start() was called *)
  stopped : list node;                 (* stop() was called *)
  bufferOf : list (node * AudioBuffer);   (* source.buffer *)
  params : list (node * Param * Q);    (* AudioParam writes, newest first *)
  fftSize : Z;                         (* analyser.fftSize *)
  analyserFrame : nat -> Byte.byte;    (* what the analyser currently holds *)
  now : Z;                             (* Date.now(), milliseconds *)
  nextTimer : positive;                (* handle of the next setInterval *)
  intervals : list positive;           (* live interval timers *)
  timerTime : Z * Z;                   (* .timer-time: minutes, seconds *)
  alerts : list Alert;                 (* alert() dialogs shown, newest first *)
  therapyBtnPlaying : bool;            (* #therapyBtn has class playing *)
  frequencySlider : Z                  (* #frequencySlider value *)
}.

(** *** The fields of [TinnitusAudioEngine] *)

Record Engine := mkEngine {
  audioContext : option unit;
  masterGain : option node;
  analyser : option node;
  testOscillator : option node;
  testGain : option node;
  therapySource : option node;
  therapyGain : option node;
  notchFilter : option node;
  isTestTonePlaying : bool;
  isTherapyPlaying : bool;
  currentFrequency : Z;
  currentVolume : Q;
  currentSound : string;
  therapyStartTime : option Z;
  therapyDuration : Z;
  timerInterval : option positive;
  onAutoStop : option Callback
}.

Record World := mkWorld { engine : Engine; host : Host }.

(** Field updates: [set_f v x] is [x] with field [f] replaced by [v]. *)

Definition set_audioContext (v : option unit) (e : Engine) : Engine :=
  mkEngine v (e.(masterGain)) (e.(analyser)) (e.(testOscillator))
    (e.(testGain)) (e.(therapySource)) (e.(therapyGain)) (e.(notchFilter))
    (e.(isTestTonePlaying)) (e.(isTherapyPlaying)) (e.(currentFrequency))
    (e.(currentVolume)) (e.(currentSound)) (e.(therapyStartTime))
    (e.(therapyDuration)) (e.(timerInterval)) (e.(onAutoStop)).
Definition set_masterGain (v : option node) (e : Engine) : Engine :=
  mkEngine (e.(audioContext)) v (e.(analyser)) (e.(testOscillator))
    (e.(testGain)) (e.(therapySource)) (e.(therapyGain)) (e.(notchFilter))
    (e.(isTestTonePlaying)) (e.(isTherapyPlaying)) (e.(currentFrequency))
    (e.(currentVolume)) (e.(currentSound)) (e.(therapyStartTime))
    (e.(therapyDuration)) (e.(timerInterval)) (e.(onAutoStop)).
Definition set_analyser (v : option node) (e : Engine) : Engine :=
  mkEngine (e.(audioContext)) (e.(masterGain)) v (e.(testOscillator))
    (e.(testGain)) (e.(therapySource)) (e.(therapyGain)) (e.(notchFilter))
    (e.(isTestTonePlaying)) (e.(isTherapyPlaying)) (e.(currentFrequency))
    (e.(currentVolume)) (e.(currentSound)) (e.(therapyStartTime))
    (e.(therapyDuration)) (e.(timerInterval)) (e.(onAutoStop)).
Definition set_testOscillator (v : option node) (e : Engine) : Engine :=
  mkEngine (e.(audioContext)) (e.(masterGain)) (e.(analyser)) v (e.(testGain))
    (e.(therapySource)) (e.(therapyGain)) (e.(notchFilter))
    (e.(isTestTonePlaying)) (e.(isTherapyPlaying)) (e.(currentFrequency))
    (e.(currentVolume)) (e.(currentSound)) (e.(therapyStartTime))
    (e.(therapyDuration)) (e.(timerInterval)) (e.(onAutoStop)).
Definition set_testGain (v : option node) (e : Engine) : Engine :=
  mkEngine (e.(audioContext)) (e.(masterGain)) (e.(analyser))
    (e.(testOscillator)) v (e.(therapySource)) (e.(therapyGain))
    (e.(notchFilter)) (e.(isTestTonePlaying)) (e.(isTherapyPlaying))
    (e.(currentFrequency)) (e.(currentVolume)) (e.(currentSound))
    (e.(therapyStartTime)) (e.(therapyDuration)) (e.(timerInterval))
    (e.(onAutoStop)).
Definition set_therapySource (v : option node) (e : Engine) : Engine :=
  mkEngine (e.(audioContext)) (e.(masterGain)) (e.(analyser))
    (e.(testOscillator)) (e.(testGain)) v (e.(therapyGain)) (e.(notchFilter))
    (e.(isTestTonePlaying)) (e.(isTherapyPlaying)) (e.(currentFrequency))
    (e.(currentVolume)) (e.(currentSound)) (e.(therapyStartTime))
    (e.(therapyDuration)) (e.(timerInterval)) (e.(onAutoStop)).
Definition set_therapyGain (v : option node) (e : Engine) : Engine :=
  mkEngine (e.(audioContext)) (e.(masterGain)) (e.(analyser))
    (e.(testOscillator)) (e.(testGain)) (e.(therapySource)) v
    (e.(notchFilter)) (e.(isTestTonePlaying)) (e.(isTherapyPlaying))
    (e.(currentFrequency)) (e.(currentVolume)) (e.(currentSound))
    (e.(therapyStartTime)) (e.(therapyDuration)) (e.(timerInterval))
    (e.(onAutoStop)).
Definition set_notchFilter (v : option node) (e : Engine) : Engine :=
  mkEngine (e.(audioContext)) (e.(masterGain)) (e.(analyser))
    (e.(testOscillator)) (e.(testGain)) (e.(therapySource)) (e.(therapyGain))
    v (e.(isTestTonePlaying)) (e.(isTherapyPlaying)) (e.(currentFrequency))
    (e.(currentVolume)) (e.(currentSound)) (e.(therapyStartTime))
    (e.(therapyDuration)) (e.(timerInterval)) (e.(onAutoStop)).
Definition set_isTestTonePlaying (v : bool) (e : Engine) : Engine :=
  mkEngine (e.(audioContext)) (e.(masterGain)) (e.(analyser))
    (e.(testOscillator)) (e.(testGain)) (e.(therapySource)) (e.(therapyGain))
    (e.(notchFilter)) v (e.(isTherapyPlaying)) (e.(currentFrequency))
    (e.(currentVolume)) (e.(currentSound)) (e.(therapyStartTime))
    (e.(therapyDuration)) (e.(timerInterval)) (e.(onAutoStop)).
Definition set_isTherapyPlaying (v : bool) (e : Engine) : Engine :=
  mkEngine (e.(audioContext)) (e.(masterGain)) (e.(analyser))
    (e.(testOscillator)) (e.(testGain)) (e.(therapySource)) (e.(therapyGain))
    (e.(notchFilter)) (e.(isTestTonePlaying)) v (e.(currentFrequency))
    (e.(currentVolume)) (e.(currentSound)) (e.(therapyStartTime))
    (e.(therapyDuration)) (e.(timerInterval)) (e.(onAutoStop)).
Definition set_currentFrequency (v : Z) (e : Engine) : Engine :=
  mkEngine (e.(audioContext)) (e.(masterGain)) (e.(analyser))
    (e.(testOscillator)) (e.(testGain)) (e.(therapySource)) (e.(therapyGain))
    (e.(notchFilter)) (e.(isTestTonePlaying)) (e.(isTherapyPlaying)) v
    (e.(currentVolume)) (e.(currentSound)) (e.(therapyStartTime))
    (e.(therapyDuration)) (e.(timerInterval)) (e.(onAutoStop)).
Definition set_currentVolume (v : Q) (e : Engine) : Engine :=
  mkEngine (e.(audioContext)) (e.(masterGain)) (e.(analyser))
    (e.(testOscillator)) (e.(testGain)) (e.(therapySource)) (e.(therapyGain))
    (e.(notchFilter)) (e.(isTestTonePlaying)) (e.(isTherapyPlaying))
    (e.(currentFrequency)) v (e.(currentSound)) (e.(therapyStartTime))
    (e.(therapyDuration)) (e.(timerInterval)) (e.(onAutoStop)).
Definition set_currentSound (v : string) (e : Engine) : Engine :=
  mkEngine (e.(audioContext)) (e.(masterGain)) (e.(analyser))
    (e.(testOscillator)) (e.(testGain)) (e.(therapySource)) (e.(therapyGain))
    (e.(notchFilter)) (e.(isTestTonePlaying)) (e.(isTherapyPlaying))
    (e.(currentFrequency)) (e.(currentVolume)) v (e.(therapyStartTime))
    (e.(therapyDuration)) (e.(timerInterval)) (e.(onAutoStop)).
Definition set_therapyStartTime (v : option Z) (e : Engine) : Engine :=
  mkEngine (e.(audioContext)) (e.(masterGain)) (e.(analyser))
    (e.(testOscillator)) (e.(testGain)) (e.(therapySource)) (e.(therapyGain))
    (e.(notchFilter)) (e.(isTestTonePlaying)) (e.(isTherapyPlaying))
    (e.(currentFrequency)) (e.(currentVolume)) (e.(currentSound)) v
    (e.(therapyDuration)) (e.(timerInterval)) (e.(onAutoStop)).
Definition set_therapyDuration (v : Z) (e : Engine) : Engine :=
  mkEngine (e.(audioContext)) (e.(masterGain)) (e.(analyser))
    (e.(testOscillator)) (e.(testGain)) (e.(therapySource)) (e.(therapyGain))
    (e.(notchFilter)) (e.(isTestTonePlaying)) (e.(isTherapyPlaying))
    (e.(currentFrequency)) (e.(currentVolume)) (e.(currentSound))
    (e.(therapyStartTime)) v (e.(timerInterval)) (e.(onAutoStop)).
Definition set_timerInterval (v : option positive) (e : Engine) : Engine :=
  mkEngine (e.(audioContext)) (e.(masterGain)) (e.(analyser))
    (e.(testOscillator)) (e.(testGain)) (e.(therapySource)) (e.(therapyGain))
    (e.(notchFilter)) (e.(isTestTonePlaying)) (e.(isTherapyPlaying))
    (e.(currentFrequency)) (e.(currentVolume)) (e.(currentSound))
    (e.(therapyStartTime)) (e.(therapyDuration)) v (e.(onAutoStop)).
Definition set_onAutoStop (v : option Callback) (e : Engine) : Engine :=
  mkEngine (e.(audioContext)) (e.(masterGain)) (e.(analyser))
    (e.(testOscillator)) (e.(testGain)) (e.(therapySource)) (e.(therapyGain))
    (e.(notchFilter)) (e.(isTestTonePlaying)) (e.(isTherapyPlaying))
    (e.(currentFrequency)) (e.(currentVolume)) (e.(currentSound))
    (e.(therapyStartTime)) (e.(therapyDuration)) (e.(timerInterval)) v.

Definition set_ctxState (v : ContextState) (h : Host) : Host :=
  mkHost (h.(supported)) v (h.(sampleRate)) (h.(nextNode)) (h.(edges))
    (h.(started)) (h.(stopped)) (h.(bufferOf)) (h.(params)) (h.(fftSize))
    (h.(analyserFrame)) (h.(now)) (h.(nextTimer)) (h.(intervals))
    (h.(timerTime)) (h.(alerts)) (h.(therapyBtnPlaying)) (h.(frequencySlider)).
Definition set_nextNode (v : node) (h : Host) : Host :=
  mkHost (h.(supported)) (h.(ctxState)) (h.(sampleRate)) v (h.(edges))
    (h.(started)) (h.(stopped)) (h.(bufferOf)) (h.(params)) (h.(fftSize))
    (h.(analyserFrame)) (h.(now)) (h.(nextTimer)) (h.(intervals))
    (h.(timerTime)) (h.(alerts)) (h.(therapyBtnPlaying)) (h.(frequencySlider)).
Definition set_edges (v : list (node * node)) (h : Host) : Host :=
  mkHost (h.(supported)) (h.(ctxState)) (h.(sampleRate)) (h.(nextNode)) v
    (h.(started)) (h.(stopped)) (h.(bufferOf)) (h.(params)) (h.(fftSize))
    (h.(analyserFrame)) (h.(now)) (h.(nextTimer)) (h.(intervals))
    (h.(timerTime)) (h.(alerts)) (h.(therapyBtnPlaying)) (h.(frequencySlider)).
Definition set_started (v : list node) (h : Host) : Host :=
  mkHost (h.(supported)) (h.(ctxState)) (h.(sampleRate)) (h.(nextNode))
    (h.(edges)) v (h.(stopped)) (h.(bufferOf)) (h.(params)) (h.(fftSize))
    (h.(analyserFrame)) (h.(now)) (h.(nextTimer)) (h.(intervals))
    (h.(timerTime)) (h.(alerts)) (h.(therapyBtnPlaying)) (h.(frequencySlider)).
Definition set_stopped (v : list node) (h : Host) : Host :=
  mkHost (h.(supported)) (h.(ctxState)) (h.(sampleRate)) (h.(nextNode))
    (h.(edges)) (h.(started)) v (h.(bufferOf)) (h.(params)) (h.(fftSize))
    (h.(analyserFrame)) (h.(now)) (h.(nextTimer)) (h.(intervals))
    (h.(timerTime)) (h.(alerts)) (h.(therapyBtnPlaying)) (h.(frequencySlider)).
Definition set_bufferOf (v : list (node * AudioBuffer)) (h : Host) : Host :=
  mkHost (h.(supported)) (h.(ctxState)) (h.(sampleRate)) (h.(nextNode))
    (h.(edges)) (h.(started)) (h.(stopped)) v (h.(params)) (h.(fftSize))
    (h.(analyserFrame)) (h.(now)) (h.(nextTimer)) (h.(intervals))
    (h.(timerTime)) (h.(alerts)) (h.(therapyBtnPlaying)) (h.(frequencySlider)).
Definition set_params (v : list (node * Param * Q)) (h : Host) : Host :=
  mkHost (h.(supported)) (h.(ctxState)) (h.(sampleRate)) (h.(nextNode))
    (h.(edges)) (h.(started)) (h.(stopped)) (h.(bufferOf)) v (h.(fftSize))
    (h.(analyserFrame)) (h.(now)) (h.(nextTimer)) (h.(intervals))
    (h.(timerTime)) (h.(alerts)) (h.(therapyBtnPlaying)) (h.(frequencySlider)).
Definition set_fftSize (v : Z) (h : Host) : Host :=
  mkHost (h.(supported)) (h.(ctxState)) (h.(sampleRate)) (h.(nextNode))
    (h.(edges)) (h.(started)) (h.(stopped)) (h.(bufferOf)) (h.(params)) v
    (h.(analyserFrame)) (h.(now)) (h.(nextTimer)) (h.(intervals))
    (h.(timerTime)) (h.(alerts)) (h.(therapyBtnPlaying)) (h.(frequencySlider)).
Definition set_now (v : Z) (h : Host) : Host :=
  mkHost (h.(supported)) (h.(ctxState)) (h.(sampleRate)) (h.(nextNode))
    (h.(edges)) (h.(started)) (h.(stopped)) (h.(bufferOf)) (h.(params))
    (h.(fftSize)) (h.(analyserFrame)) v (h.(nextTimer)) (h.(intervals))
    (h.(timerTime)) (h.(alerts)) (h.(therapyBtnPlaying)) (h.(frequencySlider)).
Definition set_nextTimer (v : positive) (h : Host) : Host :=
  mkHost (h.(supported)) (h.(ctxState)) (h.(sampleRate)) (h.(nextNode))
    (h.(edges)) (h.(started)) (h.(stopped)) (h.(bufferOf)) (h.(params))
    (h.(fftSize)) (h.(analyserFrame)) (h.(now)) v (h.(intervals))
    (h.(timerTime)) (h.(alerts)) (h.(therapyBtnPlaying)) (h.(frequencySlider)).
Definition set_intervals (v : list positive) (h : Host) : Host :=
  mkHost (h.(supported)) (h.(ctxState)) (h.(sampleRate)) (h.(nextNode))
    (h.(edges)) (h.(started)) (h.(stopped)) (h.(bufferOf)) (h.(params))
    (h.(fftSize)) (h.(analyserFrame)) (h.(now)) (h.(nextTimer)) v
    (h.(timerTime)) (h.(alerts)) (h.(therapyBtnPlaying)) (h.(frequencySlider)).
Definition set_timerTime (v : Z * Z) (h : Host) : Host :=
  mkHost (h.(supported)) (h.(ctxState)) (h.(sampleRate)) (h.(nextNode))
    (h.(edges)) (h.(started)) (h.(stopped)) (h.(bufferOf)) (h.(params))
    (h.(fftSize)) (h.(analyserFrame)) (h.(now)) (h.(nextTimer))
    (h.(intervals)) v (h.(alerts)) (h.(therapyBtnPlaying))
    (h.(frequencySlider)).
Definition set_alerts (v : list Alert) (h : Host) : Host :=
  mkHost (h.(supported)) (h.(ctxState)) (h.(sampleRate)) (h.(nextNode))
    (h.(edges)) (h.(started)) (h.(stopped)) (h.(bufferOf)) (h.(params))
    (h.(fftSize)) (h.(analyserFrame)) (h.(now)) (h.(nextTimer))
    (h.(intervals)) (h.(timerTime)) v (h.(therapyBtnPlaying))
    (h.(frequencySlider)).
Definition set_therapyBtnPlaying (v : bool) (h : Host) : Host :=
  mkHost (h.(supported)) (h.(ctxState)) (h.(sampleRate)) (h.(nextNode))
    (h.(edges)) (h.(started)) (h.(stopped)) (h.(bufferOf)) (h.(params))
    (h.(fftSize)) (h.(analyserFrame)) (h.(now)) (h.(nextTimer))
    (h.(intervals)) (h.(timerTime)) (h.(alerts)) v (h.(frequencySlider)).
Definition set_frequencySlider (v : Z) (h : Host) : Host :=
  mkHost (h.(supported)) (h.(ctxState)) (h.(sampleRate)) (h.(nextNode))
    (h.(edges)) (h.(started)) (h.(stopped)) (h.(bufferOf)) (h.(params))
    (h.(fftSize)) (h.(analyserFrame)) (h.(now)) (h.(nextTimer))
    (h.(intervals)) (h.(timerTime)) (h.(alerts)) (h.(therapyBtnPlaying)) v.

(** *** State and exceptions *)

Inductive Result (A : Type) : Type :=
| Ok (a : A) (w : World)
| Throw (x : Exn) (w : World).
Arguments Ok {A} a w.
Arguments Throw {A} x w.

Definition M (A : Type) : Type := World -> Result A.

Definition ret {A} (a : A) : M A := fun w => Ok a w.
Definition bind {A B} (m : M A) (f : A -> M B) : M B :=
  fun w => match m w with
           | Ok a w' => f a w'
           | Throw x w' => Throw x w'
           end.
Definition throw {A} (x : Exn) : M A := fun w => Throw x w.

(** [try { m } catch (e) { h }]. *)
Definition try_catch (m : M unit) (h : M unit) : M unit :=
  fun w => match m w with
           | Ok a w' => Ok a w'
           | Throw _ w' => h w'
           end.

Notation "x <- m ;; f" := (bind m (fun x => f))
  (at level 61, m at next level, right associativity).
Notation "m ;; f" := (bind m (fun _ => f))
  (at level 61, right associativity).

Definition this : M Engine := fun w => Ok (engine w) w.
Definition getHost : M Host := fun w => Ok (host w) w.
Definition assign (f : Engine -> Engine) : M unit :=
  fun w => Ok tt (mkWorld (f (engine w)) (host w)).
Definition hostDo (f : Host -> Host) : M unit :=
  fun w => Ok tt (mkWorld (engine w) (f (host w))).

(** The state a computation leaves behind, returned or thrown. *)
Definition after {A} (r : Result A) : World :=
  match r with Ok _ w => w | Throw _ w => w end.

(** *** Device operations *)

Definition mem (n : node) (l : list node) : bool := existsb (Nat.eqb n) l.

Definition edge_eqb (a b : node * node) : bool :=
  Nat.eqb (fst a) (fst b) && Nat.eqb (snd a) (snd b).

Definition createNode : M node :=
  h <- getHost ;;
  hostDo (set_nextNode (S (nextNode h))) ;;
  ret (nextNode h).

Definition addEdge (a b : node) (es : list (node * node)) : list (node * node) :=
  if existsb (edge_eqb (a, b)) es then es else (a, b) :: es.

Definition dropFrom (a : node) (es : list (node * node)) : list (node * node) :=
  filter (fun e => negb (Nat.eqb (fst e) a)) es.

(** [a.connect(b)]; connecting twice is the same as once. *)
Definition connect (a b : node) : M unit :=
  hostDo (fun h => set_edges (addEdge a b (edges h)) h).

(** [a.connect(x)] where [x] is a field that may be null. *)
Definition connectTo (a : node) (x : option node) : M unit :=
  match x with
  | Some b => connect a b
  | None => throw TypeError
  end.

(** [a.disconnect()]: all outgoing connections of [a] go. *)
Definition disconnect (a : node) : M unit :=
  hostDo (fun h => set_edges (dropFrom a (edges h)) h).

(** [src.start()]: a source starts at most once. *)
Definition start (n : node) : M unit :=
  h <- getHost ;;
  if mem n (started h) then throw InvalidStateError
  else hostDo (set_started (n :: started h)).

(** [src.stop()]: only a started source can be stopped. *)
Definition stop (n : node) : M unit :=
  h <- getHost ;;
  if mem n (started h) then hostDo (set_stopped (n :: stopped h))
  else throw InvalidStateError.

(** [this.audioContext.currentTime]. *)
Definition currentTime : M unit :=
  e <- this ;;
  match audioContext e with
  | Some _ => ret tt
  | None => throw TypeError
  end.

(** [n.p.setValueAtTime(v, this.audioContext.currentTime)]. *)
Definition setValueAtTime (n : node) (p : Param) (v : Q) : M unit :=
  currentTime ;;
  hostDo (fun h => set_params ((n, p, v) :: params h) h).

(** Gain and filter nodes have one output. *)
Definition numberOfOutputs (n : node) : Z := 1.

(** An AudioNode has no property [connected]: reading it gives undefined. *)
Definition connected (n : node) : option bool := None.

Definition falsy (o : option bool) : bool :=
  match o with Some b => negb b | None => true end.

Definition DateNow : M Z := h <- getHost ;; ret (now h).

(** Timer handles are positive integers, so [if (this.timerInterval)] is a
    test for null. *)
Definition setInterval : M positive :=
  h <- getHost ;;
  hostDo (fun h => set_intervals (nextTimer h :: intervals h)
                     (set_nextTimer (Pos.succ (nextTimer h)) h)) ;;
  ret (nextTimer h).

Definition clearInterval (id : positive) : M unit :=
  hostDo (fun h =>
    set_intervals (filter (fun j => negb (Pos.eqb j id)) (intervals h)) h).

Definition alert (a : Alert) : M unit :=
  hostDo (fun h => set_alerts (a :: alerts h) h).

(** *** TinnitusAudioEngine *)

(** [new (window.AudioContext || window.webkitAudioContext)()]. *)
Definition newAudioContext : M unit :=
  h <- getHost ;;
  if supported h then assign (set_audioContext (Some tt))
  else throw TypeError.

Definition initAudioContext : M unit :=
  try_catch
    (newAudioContext ;;
     g <- createNode ;;
     assign (set_masterGain (Some g)) ;;
     e <- this ;;
     hostDo (fun h => set_params ((g, gain, currentVolume e) :: params h) h) ;;
     connect g destination ;;
     a <- createNode ;;
     assign (set_analyser (Some a)) ;;
     hostDo (set_fftSize 2048) ;;
     connectTo a (Some g))
    (alert AudioInitFailed).

(** The field initialisers of the constructor. *)
Definition fields0 : Engine :=
  mkEngine None None None None None None None None
    false false 4000 (1 # 2) "whitenoise" None 0 None None.

Definition constructor : M unit :=
  assign (fun _ => fields0) ;;
  initAudioContext.

Definition resumeContext : M unit :=
  e <- this ;;
  match audioContext e with
  | None => throw TypeError
  | Some _ =>
      h <- getHost ;;
      match ctxState h with
      | suspended => hostDo (set_ctxState running)
      | _ => ret tt
      end
  end.

Definition setFrequency (f : Z) : M unit :=
  assign (set_currentFrequency f) ;;
  e <- this ;;
  (match isTestTonePlaying e, testOscillator e with
   | true, Some o => setValueAtTime o frequency (inject_Z f)
   | _, _ => ret tt
   end) ;;
  e <- this ;;
  match isTherapyPlaying e, notchFilter e with
  | true, Some n => setValueAtTime n frequency (inject_Z f)
  | _, _ => ret tt
  end.

Definition setVolume (volume : Q) : M unit :=
  assign (set_currentVolume volume) ;;
  e <- this ;;
  match masterGain e with
  | Some g => setValueAtTime g gain volume
  | None => ret tt
  end.

Definition stopTestTone : M unit :=
  e <- this ;;
  (match testOscillator e with
   | Some o => stop o ;; disconnect o ;; assign (set_testOscillator None)
   | None => ret tt
   end) ;;
  e <- this ;;
  (match testGain e with
   | Some g => disconnect g ;; assign (set_testGain None)
   | None => ret tt
   end) ;;
  assign (set_isTestTonePlaying false).

Definition playTestTone : M unit :=
  resumeContext ;;
  e <- this ;;
  if isTestTonePlaying e then stopTestTone
  else
    o <- createNode ;;
    assign (set_testOscillator (Some o)) ;;
    e <- this ;;
    setValueAtTime o frequency (inject_Z (currentFrequency e)) ;;
    g <- createNode ;;
    assign (set_testGain (Some g)) ;;
    setValueAtTime g gain (3 # 10) ;;
    connect o g ;;
    e <- this ;;
    connectTo g (masterGain e) ;;
    start o ;;
    assign (set_isTestTonePlaying true).

(** [this.audioContext.createBuffer(2, sampleRate * duration, sampleRate)],
    filled by the loops of generator [g]. *)
Definition createBuffer (g : Generator) (d : Z) : M AudioBuffer :=
  e <- this ;;
  match audioContext e with
  | None => throw TypeError
  | Some _ =>
      h <- getHost ;;
      ret (mkBuffer g d 2 (sampleRate h * d))
  end.

Definition createWhiteNoiseBuffer := createBuffer WhiteNoise.
Definition createRainBuffer := createBuffer Rain.
Definition createWaveBuffer := createBuffer Wave.
Definition createForestBuffer := createBuffer Forest.
Definition createNightBuffer := createBuffer Night.
Definition createTempleBuffer := createBuffer Temple.

Definition createNotchFilter (f : Z) (q : Q) : M node :=
  n <- createNode ;;
  setValueAtTime n frequency (inject_Z f) ;;
  setValueAtTime n Qfactor q ;;
  ret n.

Definition stopTimer : M unit :=
  e <- this ;;
  match timerInterval e with
  | Some id => clearInterval id ;; assign (set_timerInterval None)
  | None => ret tt
  end.

(** The text goes to [.timer-time]; padding to two digits is rendering. *)
Definition updateTimerDisplay : M unit :=
  e <- this ;;
  let minutes := therapyDuration e / 60 in
  let seconds := Z.rem (therapyDuration e) 60 in
  hostDo (set_timerTime (minutes, seconds)).

(** The function handed to [setInterval] in [startTimer]. *)
Definition timerCallback : M unit :=
  t <- DateNow ;;
  e <- this ;;
  let t0 := match therapyStartTime e with Some s => s | None => 0 end in
  assign (set_therapyDuration ((t - t0) / 1000)) ;;
  updateTimerDisplay.

Definition startTimer : M unit :=
  t <- DateNow ;;
  assign (set_therapyStartTime (Some t)) ;;
  id <- setInterval ;;
  assign (set_timerInterval (Some id)).

Definition stopTherapy : M unit :=
  e <- this ;;
  (match therapySource e with
   | Some s => stop s ;; disconnect s ;; assign (set_therapySource None)
   | None => ret tt
   end) ;;
  e <- this ;;
  (match notchFilter e with
   | Some n => disconnect n ;; assign (set_notchFilter None)
   | None => ret tt
   end) ;;
  e <- this ;;
  (match therapyGain e with
   | Some g => disconnect g ;; assign (set_therapyGain None)
   | None => ret tt
   end) ;;
  assign (set_isTherapyPlaying false) ;;
  stopTimer.

(** The [switch (soundType)] of [startTherapy]. *)
Definition bufferFor (soundType : string) : M AudioBuffer :=
  if soundType =? "whitenoise" then createWhiteNoiseBuffer 2
  else if soundType =? "rain" then createRainBuffer 4
  else if soundType =? "wave" then createWaveBuffer 6
  else if soundType =? "forest" then createForestBuffer 4
  else if soundType =? "night" then createNightBuffer 3
  else if soundType =? "temple" then createTempleBuffer 4
  else createWhiteNoiseBuffer 2.

(** [startTherapy(soundType, isSwitching)].  The method is async: what
    follows [await this.resumeContext()] runs in one piece once the promise
    has settled, and it reads the fields afresh, so the call is modelled as
    the resume followed at once by the rest. *)
Definition startTherapy (soundType : string) (isSwitching : bool) : M unit :=
  resumeContext ;;
  e <- this ;;
  if isTherapyPlaying e && negb isSwitching then stopTherapy
  else
    (match isSwitching, therapySource e with
     | true, Some s => try_catch (stop s ;; disconnect s) (ret tt)
     | _, _ => ret tt
     end) ;;
    assign (set_currentSound soundType) ;;
    buffer <- bufferFor soundType ;;
    s <- createNode ;;
    assign (set_therapySource (Some s)) ;;
    hostDo (fun h => set_bufferOf ((s, buffer) :: bufferOf h) h) ;;
    e <- this ;;
    n <- (match notchFilter e with
          | Some n => ret n
          | None =>
              n <- createNotchFilter (currentFrequency e) 30 ;;
              assign (set_notchFilter (Some n)) ;;
              ret n
          end) ;;
    e <- this ;;
    g <- (match therapyGain e with
          | Some g => ret g
          | None =>
              g <- createNode ;;
              assign (set_therapyGain (Some g)) ;;
              setValueAtTime g gain (7 # 10) ;;
              ret g
          end) ;;
    connect s n ;;
    (if (numberOfOutputs n =? 0)%Z || falsy (connected n)
     then connect n g else ret tt) ;;
    e <- this ;;
    (if (numberOfOutputs g =? 0)%Z || falsy (connected g)
     then connectTo g (analyser e) else ret tt) ;;
    start s ;;
    assign (set_isTherapyPlaying true) ;;
    (if negb isSwitching then startTimer else ret tt).

(** [analyser.getByteTimeDomainData(dataArray)] on a fresh
    [Uint8Array(len)]. *)
Definition getByteTimeDomainData (len : Z) : M (list Byte.byte) :=
  h <- getHost ;;
  ret (map (analyserFrame h) (seq 0 (Z.to_nat len))).

(** [null], or the object [{ bufferLength, dataArray }]. *)
Definition getAnalyserData : M (option (Z * list Byte.byte)) :=
  e <- this ;;
  match analyser e with
  | None => ret None
  | Some _ =>
      h <- getHost ;;
      let bufferLength := fftSize h / 2 in
      dataArray <- getByteTimeDomainData bufferLength ;;
      ret (Some (bufferLength, dataArray))
  end.

Definition destroy : M unit :=
  stopTestTone ;;
  stopTherapy ;;
  e <- this ;;
  match audioContext e with
  | Some _ => hostDo (set_ctxState closed)
  | None => ret tt
  end.

(** *** The UI scripts *)

Definition updateFrequency (f : Z) : M unit :=
  hostDo (set_frequencySlider f) ;;
  setFrequency f.

Definition adjustFrequency (delta : Z) : M unit :=
  h <- getHost ;;
  let currentFreq := frequencySlider h in
  let newFreq := Z.max 250 (Z.min 16000 (currentFreq + delta)) in
  updateFrequency newFreq.

Definition updateTherapyUI (isPlaying : bool) : M unit :=
  hostDo (set_therapyBtnPlaying isPlaying).

(** A call of an async function that is not awaited: a rejection stays with
    the promise. *)
Definition detached (m : M unit) : M unit := try_catch m (ret tt).

(** [selectSound], called from the click on a sound card (the card
    highlight and the label are rendering). *)
Definition selectSound (soundType : string) : M unit :=
  assign (set_currentSound soundType) ;;
  e <- this ;;
  if isTherapyPlaying e then detached (startTherapy soundType true)
  else ret tt.

Definition toggleTherapy : M unit :=
  e <- this ;;
  if isTherapyPlaying e then stopTherapy ;; updateTherapyUI false
  else startTherapy (currentSound e) false ;; updateTherapyUI true.

(** The body of the function stored in [onAutoStop]. *)
Definition invoke (c : Callback) : M unit :=
  match c with
  | AutoStopHandler => updateTherapyUI false ;; alert AutoStopNotice
  end.

(** [initializeApp] of the second UI script (the first one is the same
    without the callback). *)
Definition initializeApp : M unit :=
  constructor ;;
  h <- getHost ;;
  updateFrequency (frequencySlider h) ;;
  assign (set_onAutoStop (Some AutoStopHandler)) ;;
  selectSound "whitenoise".

(** *** Host events *)

(** The page as the browser hands it to the scripts. *)
Definition page (sup : bool) (rate : Z) (frame : nat -> Byte.byte)
    (t0 slider : Z) : World :=
  mkWorld fields0
    (mkHost sup suspended rate 1%nat [] [] [] [] [] 2048 frame t0 1%positive []
       (0, 0) [] false slider).

(** Wall-clock time passes. *)
Definition elapse (ms : Z) : M unit :=
  hostDo (fun h => set_now (now h + ms) h).

(** An interval timer fires, if it is still live. *)
Definition fire (id : positive) : M unit :=
  h <- getHost ;;
  if existsb (Pos.eqb id) (intervals h) then timerCallback else ret tt.

(** One second passes and every live interval timer fires. *)
Definition tick : M unit :=
  elapse 1000 ;;
  h <- getHost ;;
  fold_right (fun id k => fire id ;; k) (ret tt) (intervals h).

Fixpoint ticks (n : nat) : M unit :=
  match n with
  | O => ret tt
  | S n' => tick ;; ticks n'
  end.

(** What the page can do to the engine. *)
Inductive Op :=
| SetFrequency (f : Z)
| SetVolume (v : Q)
| PlayTestTone
| StopTestTone
| StartTherapy (soundType : string) (isSwitching : bool)
| StopTherapy
| GetAnalyserData
| Destroy
| ResumeContext
| SelectSound (soundType : string)
| ToggleTherapy
| AdjustFrequency (delta : Z)
| Tick.

Definition perform (o : Op) : M unit :=
  match o with
  | SetFrequency f => setFrequency f
  | SetVolume v => setVolume v
  | PlayTestTone => playTestTone
  | StopTestTone => stopTestTone
  | StartTherapy s b => startTherapy s b
  | StopTherapy => stopTherapy
  | GetAnalyserData => getAnalyserData ;; ret tt
  | Destroy => destroy
  | ResumeContext => resumeContext
  | SelectSound s => selectSound s
  | ToggleTherapy => toggleTherapy
  | AdjustFrequency d => adjustFrequency d
  | Tick => tick
  end.

(** The worlds the page can be in: after [initializeApp] and any number of
    operations, each run to its return or to its exception. *)
Inductive reachable : World -> Prop :=
| reach_init sup rate frame t0 slider :
    reachable (after (initializeApp (page sup rate frame t0 slider)))
| reach_step w o :
    reachable w -> reachable (after (perform o w)).

(** *** The processing-graph invariant *)

Definition hasEdge (a b : node) (h : Host) : Prop := In (a, b) (edges h).

Definition graphInvariant (w : World) : Prop :=
  let e := engine w in
  if isTherapyPlaying e then
    exists s n g a,
      therapySource e = Some s /\ notchFilter e = Some n /\
      therapyGain e = Some g /\ analyser e = Some a /\
      hasEdge s n (host w) /\ hasEdge n g (host w) /\ hasEdge g a (host w)
  else
    therapySource e = None /\ notchFilter e = None /\ therapyGain e = None.

(** *** What holds of every world the page can reach *)

Definition opt_list (o : option node) : list node :=
  match o with Some n => [n] | None => [] end.

(** The nodes the engine holds for the test tone and for therapy. *)
Definition held (e : Engine) : list node :=
  opt_list (testOscillator e) ++ opt_list (testGain e) ++
  opt_list (therapySource e) ++ opt_list (notchFilter e) ++
  opt_list (therapyGain e).

Record wellFormed (w : World) : Prop := mkWF {
  wf_held_fresh :
    Forall (fun n => (n < nextNode (host w))%nat) (held (engine w));
  wf_held_distinct : NoDup (held (engine w));
  wf_started_fresh :
    Forall (fun n => (n < nextNode (host w))%nat) (started (host w));
  wf_context :
    match audioContext (engine w) with
    | Some _ => exists g a, masterGain (engine w) = Some g /\
                            analyser (engine w) = Some a
    | None => masterGain (engine w) = None /\
              analyser (engine w) = None /\ held (engine w) = []
    end;
  wf_source_started :
    forall s, therapySource (engine w) = Some s -> In s (started (host w));
  wf_oscillator_started :
    forall o, testOscillator (engine w) = Some o -> In o (started (host w));
  wf_fftSize : fftSize (host w) = 2048
}.

Definition good (w : World) : Prop := wellFormed w /\ graphInvariant w.

(** *** Descriptions used to state what the methods do *)

(** The generator and the duration the [switch] of [startTherapy] picks. *)
Definition generatorFor (s : string) : Generator :=
  if s =? "whitenoise" then WhiteNoise else if s =? "rain" then Rain
  else if s =? "wave" then Wave else if s =? "forest" then Forest
  else if s =? "night" then Night else if s =? "temple" then Temple
  else WhiteNoise.

Definition durationFor (s : string) : Z :=
  if s =? "whitenoise" then 2 else if s =? "rain" then 4
  else if s =? "wave" then 6 else if s =? "forest" then 4
  else if s =? "night" then 3 else if s =? "temple" then 4
  else 2.

(** The context state once [resumeContext] has settled. *)
Definition resumedState (c : ContextState) : ContextState :=
  match c with suspended => running | _ => c end.

Definition resumed (w : World) : World :=
  mkWorld (engine w) (set_ctxState (resumedState (ctxState (host w))) (host w)).

(** Two worlds with the same handles, flags and device graph. *)
Definition sameGraph (w w' : World) : Prop :=
  audioContext (engine w') = audioContext (engine w) /\
  masterGain (engine w') = masterGain (engine w) /\
  analyser (engine w') = analyser (engine w) /\
  testOscillator (engine w') = testOscillator (engine w) /\
  testGain (engine w') = testGain (engine w) /\
  therapySource (engine w') = therapySource (engine w) /\
  notchFilter (engine w') = notchFilter (engine w) /\
  therapyGain (engine w') = therapyGain (engine w) /\
  isTherapyPlaying (engine w') = isTherapyPlaying (engine w) /\
  nextNode (host w') = nextNode (host w) /\
  edges (host w') = edges (host w) /\
  started (host w') = started (host w) /\
  fftSize (host w') = fftSize (host w).

(** The fields as [stopTherapy] leaves them. *)
Definition stoppedEngine (e : Engine) : Engine :=
  set_timerInterval None (set_isTherapyPlaying false (set_therapyGain None
    (set_notchFilter None (set_therapySource None e)))).

(** Two worlds that differ at most in the clock, the elapsed counter and the
    timer text. *)
Definition onlyClock (w w' : World) : Prop :=
  engine w' = set_therapyDuration (therapyDuration (engine w')) (engine w) /\
  host w' = set_timerTime (timerTime (host w'))
              (set_now (now (host w')) (host w)).

(** *** Example worlds *)

(** An analyser frame of silence (every byte 128). *)
Definition silence : nat -> Byte.byte := fun _ => Byte.x80.
Definition page0 : World := page true 44100 silence 0 4000.
Definition idle : World := after (initializeApp page0).
Definition playingRain : World := after (perform (StartTherapy "rain" false) idle).

(** *** Descriptions used for the further properties *)

Definition param_eqb (p q : Param) : bool :=
  match p, q with
  | frequency, frequency | gain, gain | Qfactor, Qfactor => true
  | _, _ => false
  end.

(** The value an AudioParam holds: the newest write to it, if any. *)
Fixpoint latest (n : node) (p : Param) (ps : list (node * Param * Q))
    : option Q :=
  match ps with
  | [] => None
  | (m, q, v) :: rest =>
      if Nat.eqb m n && param_eqb q p then Some v else latest n p rest
  end.

(** The buffer handed to a source node: the newest [source.buffer = b]. *)
Fixpoint bufferAt (n : node) (bs : list (node * AudioBuffer))
    : option AudioBuffer :=
  match bs with
  | [] => None
  | (m, b) :: rest => if Nat.eqb m n then Some b else bufferAt n rest
  end.

(** The six names the [switch] of [startTherapy] knows. *)
Definition knownSound (s : string) : bool :=
  (s =? "whitenoise") || (s =? "rain") || (s =? "wave") ||
  (s =? "forest") || (s =? "night") || (s =? "temple").

(** What holds of timer, counter and display in every world the page can
    reach: the live interval timers are exactly the one in [timerInterval],
    none is live while therapy is stopped, a live timer has a start time,
    which is not in the future, the counter is not negative and the display shows it. *)
Record sessionInvariant (w : World) : Prop := mkSession {
  si_intervals :
    intervals (host w) =
    match timerInterval (engine w) with Some id => [id] | None => [] end;
  si_stopped :
    isTherapyPlaying (engine w) = false -> timerInterval (engine w) = None;
  si_started :
    timerInterval (engine w) <> None -> therapyStartTime (engine w) <> None;
  si_start :
    forall t, therapyStartTime (engine w) = Some t -> t <= now (host w);
  si_counter : 0 <= therapyDuration (engine w);
  si_display :
    timerTime (host w) =
    (therapyDuration (engine w) / 60, Z.rem (therapyDuration (engine w)) 60)
}.

(** Two worlds with the same timer, counter, display and clock. *)
Definition sameSession (w w' : World) : Prop :=
  timerInterval (engine w') = timerInterval (engine w) /\
  intervals (host w') = intervals (host w) /\
  isTherapyPlaying (engine w') = isTherapyPlaying (engine w) /\
  therapyStartTime (engine w') = therapyStartTime (engine w) /\
  therapyDuration (engine w') = therapyDuration (engine w) /\
  timerTime (host w') = timerTime (host w) /\
  now (host w') = now (host w).

(** Two worlds with the same therapy handles and flag. *)
Definition sameTherapy (w w' : World) : Prop :=
  therapySource (engine w') = therapySource (engine w) /\
  notchFilter (engine w') = notchFilter (engine w) /\
  therapyGain (engine w') = therapyGain (engine w) /\
  isTherapyPlaying (engine w') = isTherapyPlaying (engine w).

(** Therapy playing and the test tone on top of it. *)
Definition withTone : World := after (perform PlayTestTone playingRain).

(** The page of a browser without Web Audio, once initialised. *)
Definition mute : World :=
  after (initializeApp (page false 44100 silence 0 4000)).

End Engine.


(* ================================================================== *)
(** ** The visualizer *)
(* ================================================================== *)

(** The animation frame of [setupVisualizer] and [drawFrequencyIndicator],
    as the geometry they hand to the canvas; colours, line styles and the
    idle animation are rendering.  Coordinates are real numbers. *)
Module Visualizer.

Import Engine.
Local Open Scope R_scope.

Definition byteValue (b : Byte.byte) : R := IZR (Z.of_N (Byte.to_N b)).

(** [const v = dataArray[i] / 128.0; const y = (v * height) / 2]. *)
Definition sampleY (height : R) (b : Byte.byte) : R :=
  (byteValue b / 128 * height) / 2.

(** The [for] loop over the data: a point per byte, [x] stepping by
    [sliceWidth]; [n] counts the iterations left. *)
Fixpoint waveformPoints (dataArray : list Byte.byte) (sliceWidth height : R)
    (n i : nat) (x : R) : list (R * R) :=
  match n with
  | O => []
  | S n' =>
      (x, sampleY height (nth i dataArray Byte.x00))
        :: waveformPoints dataArray sliceWidth height n' (S i) (x + sliceWidth)
  end.

(** [Math.log10]. *)
Definition log10 (x : R) : R := ln x / ln 10.

(** The share of the width: [(freqLog - minLog) / (maxLog - minLog)]. *)
Definition ratio (x : R) : R :=
  (log10 x - log10 250) / (log10 16000 - log10 250).

(** [position] in [drawFrequencyIndicator]; meaningful for [freq > 0]. *)
Definition indicatorPosition (freq : Z) (width : R) : R :=
  let minLog := log10 250 in
  let maxLog := log10 16000 in
  let freqLog := log10 (IZR freq) in
  ((freqLog - minLog) / (maxLog - minLog)) * width.

(** What a frame shows: the waveform path with the position of the notch
    indicator, or the idle animation. *)
Inductive Picture :=
| Waveform (path : list (R * R)) (indicator : R)
| IdleState.

(** [draw], one frame. *)
Definition draw (width height : R) : M Picture :=
  bind getAnalyserData (fun analyserData =>
  bind this (fun e =>
  match analyserData, isTherapyPlaying e with
  | Some (bufferLength, dataArray), true =>
      let sliceWidth := width / IZR bufferLength in
      ret (Waveform
             (waveformPoints dataArray sliceWidth height
                (Z.to_nat bufferLength) 0 0 ++ [(width, height / 2)])
             (indicatorPosition (currentFrequency e) width))
  | _, _ => ret IdleState
  end)).

End Visualizer.

(* ================================================================== *)
(** ** Properties of the synthesis loops *)
(* ================================================================== *)

Section SynthFacts.

Import Synth.
Local Open Scope R_scope.

Variable rnd : nat -> R.

Lemma brown_brownFrom w i : brown w i = brownFrom 0 w i.
Proof. induction i as [|i IH]; simpl; [reflexivity | now rewrite IH]. Qed.

Lemma brownFrom_ext x0 w w' i :
  (forall j, w j = w' j) -> brownFrom x0 w i = brownFrom x0 w' i.
Proof.
  intros E. induction i as [|i IH]; simpl.
  - now rewrite E.
  - now rewrite IH, E.
Qed.

Lemma brownFrom_shift x0 w i :
  brownFrom x0 w (S i) =
  brownFrom ((x0 + 0.02 * w O) / 1.002) (fun m => w (S m)) i.
Proof.
  induction i as [|i IH].
  - reflexivity.
  - change (brownFrom x0 w (S (S i)))
      with ((brownFrom x0 w (S i) + 0.02 * w (S (S i))) / 1.002).
    rewrite IH. reflexivity.
Qed.

Lemma waveLoop_S N n i lastOut k :
  fst (waveLoop rnd N (S n) i lastOut k) =
  let out := (lastOut + 0.02 * (rnd k * 2 - 1)) / 1.002 in
  (out * 4 * (0.5 + 0.5 * sin ((INR i / INR N) * PI * 2)))
    :: fst (waveLoop rnd N n (S i) out (S k)).
Proof.
  simpl. unfold rbind, random, rret.
  destruct (waveLoop rnd N n (S i) _ (S k)) as [rest k']. reflexivity.
Qed.

Lemma waveLoop_nth N n : forall i lastOut k j, (j < n)%nat ->
  nth j (fst (waveLoop rnd N n i lastOut k)) 0 =
  brownFrom lastOut (fun m => rnd (k + m)%nat * 2 - 1) j * 4
  * (0.5 + 0.5 * sin ((INR (i + j) / INR N) * PI * 2)).
Proof.
  induction n as [|n IH]; intros i lastOut k j Hj; [lia|].
  rewrite waveLoop_S. cbv zeta.
  destruct j as [|j].
  - simpl nth. simpl brownFrom. now rewrite !Nat.add_0_r.
  - simpl nth. rewrite IH by lia. rewrite brownFrom_shift.
    rewrite Nat.add_0_r.
    replace (i + S j)%nat with (S i + j)%nat by lia.
    f_equal. f_equal.
    apply brownFrom_ext. intros m. now rewrite Nat.add_succ_r.
Qed.

Lemma rainCursor_shift k i :
  rainCursor rnd k (S i) = rainCursor rnd (rainNext rnd k) i.
Proof.
  induction i as [|i IH]; [reflexivity|].
  change (rainCursor rnd k (S (S i))) with (rainNext rnd (rainCursor rnd k (S i))).
  rewrite IH. reflexivity.
Qed.

Lemma rainLoop_S n lastOut k :
  fst (rainLoop rnd (S n) lastOut k) =
  let out := (lastOut + 0.02 * rainWhite rnd k 0) / 1.002 in
  (out * 2 + rainSpike rnd k 0)
    :: fst (rainLoop rnd n out (rainNext rnd k)).
Proof.
  simpl. unfold rbind, random, rret, rainWhite, rainSpike, rainNext. simpl.
  destruct (Rgt_dec (rnd (S k)) 0.9995).
  - destruct (rainLoop rnd n _ (S (S (S k)))) as [rest k']. reflexivity.
  - destruct (rainLoop rnd n _ (S (S k))) as [rest k']. simpl.
    f_equal. lra.
Qed.

Lemma rainLoop_nth n : forall lastOut k j, (j < n)%nat ->
  nth j (fst (rainLoop rnd n lastOut k)) 0 =
  brownFrom lastOut (rainWhite rnd k) j * 2 + rainSpike rnd k j.
Proof.
  induction n as [|n IH]; intros lastOut k j Hj; [lia|].
  rewrite rainLoop_S. cbv zeta.
  destruct j as [|j].
  - reflexivity.
  - simpl nth. rewrite IH by lia. rewrite brownFrom_shift.
    unfold rainSpike, rainWhite. rewrite (rainCursor_shift k j).
    f_equal. f_equal. apply brownFrom_ext. intros m.
    now rewrite rainCursor_shift.
Qed.

Lemma waveLoop_cursor N n : forall i lastOut k,
  snd (waveLoop rnd N n i lastOut k) = (k + n)%nat.
Proof.
  induction n as [|n IH]; intros i lastOut k; simpl.
  - unfold rret. simpl. lia.
  - unfold rbind, random, rret.
    specialize (IH (S i) ((lastOut + 0.02 * (rnd k * 2 - 1)) / 1.002) (S k)).
    destruct (waveLoop rnd N n (S i) _ (S k)) as [rest k'].
    simpl in *. lia.
Qed.

Lemma rainLoop_cursor n : forall lastOut k,
  snd (rainLoop rnd n lastOut k) = rainCursor rnd k n.
Proof.
  induction n as [|n IH]; intros lastOut k.
  - reflexivity.
  - rewrite rainCursor_shift. simpl.
    unfold rbind, random, rret, rainNext. simpl.
    destruct (Rgt_dec (rnd (S k)) 0.9995).
    + match goal with |- context [rainLoop rnd n ?o ?c] =>
        specialize (IH o c); destruct (rainLoop rnd n o c) end.
      exact IH.
    + match goal with |- context [rainLoop rnd n ?o ?c] =>
        specialize (IH o c); destruct (rainLoop rnd n o c) end.
      exact IH.
Qed.

(** *** Pink-noise loops *)

Lemma pinkStateFrom_ext p w w' i :
  (forall j, w j = w' j) -> pinkStateFrom p w i = pinkStateFrom p w' i.
Proof.
  intros E. induction i as [|i IH]; simpl; [reflexivity|].
  now rewrite IH, E.
Qed.

Lemma pinkStateFrom_shift p w i :
  pinkStateFrom p w (S i) =
  pinkStateFrom (fst (pinkStep p (w O))) (fun m => w (S m)) i.
Proof.
  induction i as [|i IH]; [reflexivity|].
  change (pinkStateFrom p w (S (S i)))
    with (fst (pinkStep (pinkStateFrom p w (S i)) (w (S i)))).
  rewrite IH. reflexivity.
Qed.

Lemma forestLoop_S N n i p k :
  fst (forestLoop rnd N (S n) i p k) =
  (snd (pinkStep p (rnd k * 2 - 1)) * wind i N)
    :: fst (forestLoop rnd N n (S i) (fst (pinkStep p (rnd k * 2 - 1))) (S k)).
Proof.
  simpl. unfold rbind, random, rret.
  destruct (forestLoop rnd N n (S i) _ (S k)) as [rest k']. reflexivity.
Qed.

Lemma forestLoop_nth N n : forall i p k j, (j < n)%nat ->
  nth j (fst (forestLoop rnd N n i p k)) 0 =
  pinkOutFrom p (fun m => rnd (k + m)%nat * 2 - 1) j * wind (i + j) N.
Proof.
  induction n as [|n IH]; intros i p k j Hj; [lia|].
  rewrite forestLoop_S.
  destruct j as [|j].
  - simpl nth. unfold pinkOutFrom. simpl pinkStateFrom.
    now rewrite !Nat.add_0_r.
  - simpl nth. rewrite IH by lia.
    unfold pinkOutFrom. rewrite pinkStateFrom_shift.
    rewrite Nat.add_0_r.
    replace (i + S j)%nat with (S i + j)%nat by lia.
    replace (k + S j)%nat with (S k + j)%nat by lia.
    f_equal. f_equal. f_equal.
    apply pinkStateFrom_ext. intros m. now rewrite Nat.add_succ_r.
Qed.

Lemma forestLoop_cursor N n : forall i p k,
  snd (forestLoop rnd N n i p k) = (k + n)%nat.
Proof.
  induction n as [|n IH]; intros i p k; simpl.
  - unfold rret. simpl. lia.
  - unfold rbind, random, rret.
    specialize (IH (S i) (fst (pinkStep p (rnd k * 2 - 1))) (S k)).
    destruct (forestLoop rnd N n (S i) _ (S k)) as [rest k'].
    simpl in *. lia.
Qed.

Lemma wind_bounds i N : 0.4 <= wind i N <= 1.
Proof.
  unfold wind.
  pose proof (SIN_bound ((INR i / INR N) * PI * 4)) as [Hl Hu]. lra.
Qed.

Lemma wind_half_period i M :
  (0 < M)%nat -> wind (i + M) (2 * M) = wind i (2 * M).
Proof.
  intros HM. unfold wind. f_equal. f_equal.
  rewrite plus_INR, mult_INR.
  assert (INR M <> 0) by (apply not_0_INR; lia).
  replace ((INR i + INR M) / (INR 2 * INR M) * PI * 4)
    with (INR i / (INR 2 * INR M) * PI * 4 + 2 * INR 1 * PI)
    by (simpl; field; assumption).
  apply sin_period.
Qed.

Lemma createWaveBuffer_channels sampleRate duration k :
  let N := (sampleRate * duration)%nat in
  fst (createWaveBuffer rnd sampleRate duration k) =
  (fst (waveLoop rnd N N 0 0 k), fst (waveLoop rnd N N 0 0 (k + N)%nat)).
Proof.
  intros N. unfold createWaveBuffer, twoChannels, rbind, rret. fold N.
  pose proof (waveLoop_cursor N N 0%nat 0 k) as Hc.
  destruct (waveLoop rnd N N 0 0 k) as [c0 k0]. simpl in Hc. subst k0.
  destruct (waveLoop rnd N N 0 0 (k + N)%nat) as [c1 k1]. reflexivity.
Qed.

Lemma createRainBuffer_channels sampleRate duration k :
  let N := (sampleRate * duration)%nat in
  fst (createRainBuffer rnd sampleRate duration k) =
  (fst (rainLoop rnd N 0 k), fst (rainLoop rnd N 0 (rainCursor rnd k N))).
Proof.
  intros N. unfold createRainBuffer, twoChannels, rbind, rret. fold N.
  pose proof (rainLoop_cursor N 0 k) as Hc.
  destruct (rainLoop rnd N 0 k) as [c0 k0]. simpl in Hc. subst k0.
  destruct (rainLoop rnd N 0 (rainCursor rnd k N)) as [c1 k1]. reflexivity.
Qed.

Lemma createForestBuffer_channels sampleRate duration k :
  let N := (sampleRate * duration)%nat in
  fst (createForestBuffer rnd sampleRate duration k) =
  (fst (forestLoop rnd N N 0 pink0 k), fst (forestLoop rnd N N 0 pink0 (k + N)%nat)).
Proof.
  intros N. unfold createForestBuffer, twoChannels, rbind, rret. fold N.
  pose proof (forestLoop_cursor N N 0%nat pink0 k) as Hc.
  destruct (forestLoop rnd N N 0 pink0 k) as [c0 k0]. simpl in Hc. subst k0.
  destruct (forestLoop rnd N N 0 pink0 (k + N)%nat) as [c1 k1]. reflexivity.
Qed.

Lemma white_range u : 0 <= u < 1 -> -1 <= u * 2 - 1 < 1.
Proof. intros [H0 H1]. split; lra. Qed.

(** C2 (amended): in both channels of a Wave and of a Rain buffer and for
    every sample index [i], the brown-noise base value obeys
    [out i = (out (i-1) + 0.02 * white i) / 1.002], starting from 0, where
    [white i] is twice a draw from [0,1) minus one and so lies in [-1,1); the
    Wave sample is [out i * 4 * lfo i] and the Rain sample is [out i * 2]
    plus the occasional spike.  The divisor is 1.002, not 1 + 0.02. *)
Theorem brown_noise_recurrence sampleRate duration k i :
  let N := (sampleRate * duration)%nat in
  (forall j, 0 <= rnd j < 1) -> (i < N)%nat ->
  let lfo := 0.5 + 0.5 * sin ((INR i / INR N) * PI * 2) in
  let w0 := fun j => rnd (k + j)%nat * 2 - 1 in
  let w1 := fun j => rnd (k + N + j)%nat * 2 - 1 in
  let k1 := rainCursor rnd k N in
  let r0 := rainWhite rnd k in
  let r1 := rainWhite rnd k1 in
  let wave := fst (createWaveBuffer rnd sampleRate duration k) in
  let rain := fst (createRainBuffer rnd sampleRate duration k) in
  nth i (fst wave) 0 = brown w0 i * 4 * lfo /\
  nth i (snd wave) 0 = brown w1 i * 4 * lfo /\
  nth i (fst rain) 0 = brown r0 i * 2 + rainSpike rnd k i /\
  nth i (snd rain) 0 = brown r1 i * 2 + rainSpike rnd k1 i /\
  (forall w, brown w i =
     (match i with O => 0 | S j => brown w j end + 0.02 * w i) / 1.002) /\
  (-1 <= w0 i < 1) /\ (-1 <= w1 i < 1) /\
  (-1 <= r0 i < 1) /\ (-1 <= r1 i < 1).
Proof.
  intros N Hrnd Hi. cbv zeta.
  rewrite createWaveBuffer_channels, createRainBuffer_channels.
  cbv zeta. fold N.
  cbn [fst snd].
  rewrite !waveLoop_nth, !rainLoop_nth by exact Hi.
  rewrite !brown_brownFrom. rewrite !Nat.add_0_l.
  repeat split; try (apply white_range, Hrnd);
    try (destruct i; rewrite ?brown_brownFrom; reflexivity).
Qed.

(** C4 (amended): in both channels of a Forest buffer of length [N] and for
    every sample index [i], the sample is the pink-noise value at [i] times
    the envelope [0.7 + 0.3 * sin(2 * (2 pi i / N))], which runs through two
    full cycles over the buffer (it repeats after half the buffer) and lies
    in [0.4, 1.0]. *)
Theorem forest_sample_envelope sampleRate duration k i :
  let N := (sampleRate * duration)%nat in
  (i < N)%nat ->
  let w0 := fun j => rnd (k + j)%nat * 2 - 1 in
  let w1 := fun j => rnd (k + N + j)%nat * 2 - 1 in
  let forest := fst (createForestBuffer rnd sampleRate duration k) in
  nth i (fst forest) 0 = pinkOut w0 i * wind i N /\
  nth i (snd forest) 0 = pinkOut w1 i * wind i N /\
  wind i N = 0.7 + 0.3 * sin (2 * (2 * PI * (INR i / INR N))) /\
  0.4 <= wind i N <= 1 /\
  (forall M, N = (2 * M)%nat -> (0 < M)%nat -> wind (i + M) N = wind i N).
Proof.
  intros N Hi. cbv zeta.
  rewrite createForestBuffer_channels. cbv zeta. fold N. cbn [fst snd].
  rewrite !forestLoop_nth by exact Hi. rewrite !Nat.add_0_l.
  split; [reflexivity|]. split; [reflexivity|].
  split; [unfold wind; f_equal; f_equal; f_equal; lra|].
  split; [apply wind_bounds|].
  intros M -> HM. apply wind_half_period, HM.
Qed.

End SynthFacts.

Section SynthExamples.

Import Synth.
Local Open Scope R_scope.

(** C2, as the claim states it, fails: the first Rain sample is [2 * out]
    with [out = (0 + 0.02 * 0.5) / 1.002]; with the divisor 1.02 of the
    claim it would be [2 * ((0 + 0.02 * 0.5) / 1.02)]. *)
Lemma brown_divisor_counterexample :
  nth 0 (fst (rainLoop draws34 1 0 0%nat)) 0 = 2 * ((0 + 0.02 * 0.5) / 1.002) /\
  nth 0 (fst (rainLoop draws34 1 0 0%nat)) 0 <> 2 * ((0 + 0.02 * 0.5) / 1.02).
Proof.
  assert (E : nth 0 (fst (rainLoop draws34 1 0 0%nat)) 0
              = 2 * ((0 + 0.02 * 0.5) / 1.002)).
  { rewrite rainLoop_nth by lia.
    unfold rainSpike, rainWhite, draws34. simpl.
    destruct (Rgt_dec (3 / 4) 0.9995) as [H|H]; [exfalso; lra|]. lra. }
  split; [exact E|]. rewrite E. lra.
Qed.

Lemma brown_noise_recurrence_witness :
  let rnd := draws34 in
  let sampleRate := 2%nat in let duration := 1%nat in
  let k := 0%nat in let i := 1%nat in
  let N := (sampleRate * duration)%nat in
  let lfo := 0.5 + 0.5 * sin ((INR i / INR N) * PI * 2) in
  let w0 := fun j => rnd (k + j)%nat * 2 - 1 in
  let w1 := fun j => rnd (k + N + j)%nat * 2 - 1 in
  let k1 := rainCursor rnd k N in
  let r0 := rainWhite rnd k in
  let r1 := rainWhite rnd k1 in
  let wave := fst (createWaveBuffer rnd sampleRate duration k) in
  let rain := fst (createRainBuffer rnd sampleRate duration k) in
  nth i (fst wave) 0 = brown w0 i * 4 * lfo /\
  nth i (snd wave) 0 = brown w1 i * 4 * lfo /\
  nth i (fst rain) 0 = brown r0 i * 2 + rainSpike rnd k i /\
  nth i (snd rain) 0 = brown r1 i * 2 + rainSpike rnd k1 i /\
  (forall w, brown w i =
     (match i with O => 0 | S j => brown w j end + 0.02 * w i) / 1.002) /\
  (-1 <= w0 i < 1) /\ (-1 <= w1 i < 1) /\
  (-1 <= r0 i < 1) /\ (-1 <= r1 i < 1).
Proof.
  apply (brown_noise_recurrence draws34 2 1 0 1).
  - intros j. unfold draws34. lra.
  - lia.
Defined.

(** C4, as the claim states it, fails: three eighths into the buffer the
    envelope is 0.4, below 0.7, and the sample is the pink value times 0.4. *)
Lemma forest_envelope_counterexample :
  wind 3 8 = 0.4 /\
  ~ (0.7 <= wind 3 8 <= 1) /\
  nth 3 (fst (forestLoop draws34 8 8 0 pink0 0%nat)) 0
    = pinkOut (fun _ => 0.5) 3 * 0.4.
Proof.
  assert (E : wind 3 8 = 0.4).
  { unfold wind.
    replace (INR 3 / INR 8 * PI * 4) with (3 * (PI / 2)) by (simpl; field).
    rewrite sin_3PI2. lra. }
  split; [exact E|]. split; [rewrite E; lra|].
  rewrite forestLoop_nth by lia. rewrite Nat.add_0_l, E.
  f_equal. unfold pinkOut, pinkOutFrom. f_equal. f_equal.
  - apply pinkStateFrom_ext. intros j. unfold draws34. lra.
  - unfold draws34. lra.
Qed.

Lemma forest_sample_envelope_witness :
  let rnd := draws34 in
  let sampleRate := 2%nat in let duration := 4%nat in
  let k := 0%nat in let i := 3%nat in
  let N := (sampleRate * duration)%nat in
  let w0 := fun j => rnd (k + j)%nat * 2 - 1 in
  let w1 := fun j => rnd (k + N + j)%nat * 2 - 1 in
  let forest := fst (createForestBuffer rnd sampleRate duration k) in
  nth i (fst forest) 0 = pinkOut w0 i * wind i N /\
  nth i (snd forest) 0 = pinkOut w1 i * wind i N /\
  wind i N = 0.7 + 0.3 * sin (2 * (2 * PI * (INR i / INR N))) /\
  0.4 <= wind i N <= 1 /\
  (forall M, N = (2 * M)%nat -> (0 < M)%nat -> wind (i + M) N = wind i N).
Proof.
  apply (forest_sample_envelope draws34 2 4 0 3). simpl. lia.
Defined.

End SynthExamples.

(* ================================================================== *)
(** ** Running the controller symbolically *)
(* ================================================================== *)

Section EngineFacts.

Import Engine.
Local Open Scope Z_scope.
Local Open Scope string_scope.

Lemma bufferFor_eq s : bufferFor s = createBuffer (generatorFor s) (durationFor s).
Proof.
  unfold bufferFor, generatorFor, durationFor.
  repeat match goal with |- context [if ?c then _ else _] => destruct c end; reflexivity.
Qed.

Lemma bind_assoc {A B C} (m : M A) (k : A -> M B) (f : B -> M C) w :
  bind (bind m k) f w = bind m (fun x => bind (k x) f) w.
Proof. unfold bind. destruct (m w); reflexivity. Qed.

Lemma bind_Ok {A B} (m : M A) (f : A -> M B) w a w' :
  m w = Ok a w' -> bind m f w = f a w'.
Proof. unfold bind. now intros ->. Qed.

Lemma bind_run {A B} (m : M A) (f : A -> M B) w r :
  m w = r ->
  bind m f w = match r with Ok a w' => f a w' | Throw x w' => Throw x w' end.
Proof. unfold bind. now intros ->. Qed.

Lemma try_run (m h : M unit) w r :
  m w = r ->
  try_catch m h w = match r with Ok a w' => Ok a w' | Throw _ w' => h w' end.
Proof. unfold try_catch. now intros ->. Qed.

Lemma start_fresh n w :
  mem n (started (host w)) = false ->
  start n w = Ok tt (mkWorld (engine w) (set_started (n :: started (host w)) (host w))).
Proof. unfold start, bind, getHost, hostDo. now intros ->. Qed.

Lemma stop_started n w :
  mem n (started (host w)) = true ->
  stop n w = Ok tt (mkWorld (engine w) (set_stopped (n :: stopped (host w)) (host w))).
Proof. unfold stop, bind, getHost, hostDo. now intros ->. Qed.

Lemma stop_unstarted n w :
  mem n (started (host w)) = false -> stop n w = Throw InvalidStateError w.
Proof. unfold stop, bind, getHost, throw. now intros ->. Qed.

Ltac fields :=
  lazy beta iota zeta delta
    [ engine host andb negb orb falsy numberOfOutputs connected Z.eqb
      audioContext masterGain analyser testOscillator testGain therapySource
      therapyGain notchFilter isTestTonePlaying isTherapyPlaying
      currentFrequency currentVolume currentSound therapyStartTime
      therapyDuration timerInterval onAutoStop
      supported ctxState sampleRate nextNode edges started stopped bufferOf
      params fftSize analyserFrame now nextTimer intervals timerTime alerts
      therapyBtnPlaying frequencySlider
      set_audioContext set_masterGain set_analyser set_testOscillator
      set_testGain set_therapySource set_therapyGain set_notchFilter
      set_isTestTonePlaying set_isTherapyPlaying set_currentFrequency
      set_currentVolume set_currentSound set_therapyStartTime
      set_therapyDuration set_timerInterval set_onAutoStop
      set_ctxState set_nextNode set_edges set_started set_stopped
      set_bufferOf set_params set_fftSize set_now set_nextTimer
      set_intervals set_timerTime set_alerts set_therapyBtnPlaying
      set_frequencySlider ].

Ltac prim r :=
  eval lazy beta iota zeta delta
    [ createNode connect connectTo disconnect currentTime createBuffer
      DateNow setInterval clearInterval alert newAudioContext
      getByteTimeDomainData updateTherapyUI elapse
      bind ret throw this getHost assign hostDo
      engine host andb negb orb falsy numberOfOutputs connected Z.eqb
      audioContext masterGain analyser testOscillator testGain therapySource
      therapyGain notchFilter isTestTonePlaying isTherapyPlaying
      currentFrequency currentVolume currentSound therapyStartTime
      therapyDuration timerInterval onAutoStop
      supported ctxState sampleRate nextNode edges started stopped bufferOf
      params fftSize analyserFrame now nextTimer intervals timerTime alerts
      therapyBtnPlaying frequencySlider
      set_audioContext set_masterGain set_analyser set_testOscillator
      set_testGain set_therapySource set_therapyGain set_notchFilter
      set_isTestTonePlaying set_isTherapyPlaying set_currentFrequency
      set_currentVolume set_currentSound set_therapyStartTime
      set_therapyDuration set_timerInterval set_onAutoStop
      set_ctxState set_nextNode set_edges set_started set_stopped
      set_bufferOf set_params set_fftSize set_now set_nextTimer
      set_intervals set_timerTime set_alerts set_therapyBtnPlaying
      set_frequencySlider ] in r.

Ltac unfold_method :=
  unfold stopTherapy, stopTimer, startTimer, createNotchFilter, setValueAtTime,
    stopTestTone, updateTimerDisplay, timerCallback,
    setFrequency, setVolume, playTestTone, getAnalyserData, destroy,
    updateFrequency, adjustFrequency, detached, initAudioContext, constructor,
    selectSound.

Lemma resumeContext_ok w u :
  audioContext (engine w) = Some u -> resumeContext w = Ok tt (resumed w).
Proof.
  unfold resumeContext, resumed, resumedState, bind, this, getHost, hostDo, ret.
  intros ->. destruct w as [e h]; destruct h as [? c]; simpl.
  destruct c; reflexivity.
Qed.

Ltac step :=
  fields;
  lazymatch goal with
  | |- context [bind (bind ?m ?k) ?f ?w] => rewrite (bind_assoc m k f w)
  | |- context [bind resumeContext ?f ?w] =>
      first
        [ rewrite (bind_Ok resumeContext f w tt _
                     (resumeContext_ok w tt ltac:(reflexivity)));
          unfold resumed
        | progress unfold resumeContext ]
  | |- context [bind (start ?n) ?f ?w] =>
      rewrite (bind_Ok (start n) f w tt _
                 (start_fresh n w ltac:(fields; assumption)))
  | |- context [bind (stop ?n) ?f ?w] =>
      first
        [ rewrite (bind_Ok (stop n) f w tt _
                     (stop_started n w ltac:(fields; assumption)))
        | rewrite (bind_run (stop n) f w _
                     (stop_unstarted n w ltac:(fields; assumption))) ]
  | |- context [bind ?m ?f ?w] =>
      let r := prim (m w) in
      lazymatch r with
      | Ok ?a ?w' => change (bind m f w) with (f a w')
      | Throw ?x ?w' => rewrite (bind_run m f w r eq_refl)
      | _ =>
          first
            [ progress unfold_method
            | let E := fresh "E" in
              eassert (E : m w = _) by (repeat step; reflexivity);
              rewrite (bind_run m f w _ E); clear E ]
      end
  | |- context [try_catch ?m ?h ?w] =>
      let E := fresh "E" in
      eassert (E : m w = _) by (repeat step; reflexivity);
      rewrite (try_run m h w _ E); clear E
  | |- context [start ?n ?w] =>
      rewrite (start_fresh n w ltac:(fields; assumption))
  | |- context [stop ?n ?w] =>
      rewrite (stop_started n w ltac:(fields; assumption))
  | |- context [after (?m ?w)] =>
      let r := prim (m w) in
      lazymatch r with
      | Ok ?a ?w' => change (m w) with r
      | Throw ?x ?w' => change (m w) with r
      | _ => progress unfold_method
      end
  | |- ?m ?w = _ =>
      let r := prim (m w) in
      lazymatch r with
      | Ok ?a ?w' => change (m w) with r
      | Throw ?x ?w' => change (m w) with r
      | _ => progress unfold_method
      end
  end.

Ltac run := repeat step; fields; lazy beta iota delta [after].

(** Lists of nodes and edges *)

Lemma mem_fresh n l : Forall (fun m => (m < n)%nat) l -> mem n l = false.
Proof.
  unfold mem. induction 1 as [|m l Hm _ IH]; simpl; [reflexivity|].
  rewrite IH, orb_false_r. apply Nat.eqb_neq. lia.
Qed.

Lemma mem_In n l : In n l -> mem n l = true.
Proof.
  unfold mem. intros H. apply existsb_exists. exists n. split; [exact H|].
  apply Nat.eqb_refl.
Qed.

Lemma Forall_lt_weaken a b l :
  (a <= b)%nat -> Forall (fun n => (n < a)%nat) l -> Forall (fun n => (n < b)%nat) l.
Proof. intros Hab. apply Forall_impl. intros; lia. Qed.

Lemma In_addEdge a b es : In (a, b) (addEdge a b es).
Proof.
  unfold addEdge. destruct (existsb (edge_eqb (a, b)) es) eqn:E.
  - apply existsb_exists in E. destruct E as [[c d] [Hin Heq]].
    unfold edge_eqb in Heq. simpl in Heq.
    apply andb_true_iff in Heq. destruct Heq as [H1 H2].
    apply Nat.eqb_eq in H1, H2. now subst.
  - now left.
Qed.

Lemma In_addEdge_keep x a b es : In x es -> In x (addEdge a b es).
Proof. unfold addEdge. destruct (existsb _ es); [auto | now right]. Qed.

Lemma In_dropFrom a b x es : In (a, b) es -> a <> x -> In (a, b) (dropFrom x es).
Proof.
  intros Hin Hne. unfold dropFrom. apply filter_In. split; [exact Hin|].
  simpl. apply negb_true_iff, Nat.eqb_neq. exact Hne.
Qed.

(** Reading the hypotheses and closing the goals of [good]. *)

Ltac list_facts :=
  repeat match goal with
  | H : Forall _ (_ :: _) |- _ => apply Forall_cons_iff in H; destruct H
  | H : Forall _ [] |- _ => clear H
  | H : NoDup (_ :: _) |- _ => apply NoDup_cons_iff in H; destruct H
  | H : NoDup [] |- _ => clear H
  | H : ~ In _ (_ :: _) |- _ => apply not_in_cons in H; destruct H
  | H : ~ In _ [] |- _ => clear H
  | H : forall x, Some ?a = Some x -> _ |- _ => specialize (H a eq_refl)
  | H : forall x, None = Some x -> _ |- _ => clear H
  end.

Ltac list_goal :=
  repeat match goal with
  | |- Forall _ (_ :: _) => constructor
  | |- Forall _ [] => constructor
  | |- NoDup (_ :: _) => constructor
  | |- NoDup [] => constructor
  | |- ~ In _ _ => simpl; intuition (try lia; try congruence)
  | |- Forall _ _ => eapply Forall_lt_weaken; [|eassumption]; lia
  | |- (_ < _)%nat => lia
  end.

Ltac edge_goal :=
  unfold hasEdge in *; cbn [edges host] in *;
  repeat first
    [ assumption
    | apply In_addEdge
    | apply In_addEdge_keep
    | apply In_dropFrom; [| try lia; try congruence ] ].

Ltac split_handles :=
  repeat match goal with
  | o : option node |- _ => destruct o
  end.

Ltac started_goal :=
  first [ solve [ intros ? [=] ]
        | intros ? [= <-]; simpl; solve [ auto ] ].

Ltac wf_goal :=
  constructor;
  cbn [engine host held opt_list app testOscillator testGain therapySource
       notchFilter therapyGain audioContext masterGain analyser nextNode
       started fftSize] in *;
  [ list_goal | list_goal | list_goal
  | solve [ eauto | reflexivity ]
  | started_goal | started_goal
  | assumption ].

Ltac graph_goal :=
  unfold graphInvariant; cbn [engine host isTherapyPlaying therapySource
                              notchFilter therapyGain analyser];
  first [ solve [ auto ]
        | do 4 eexists; repeat split; try reflexivity; edge_goal ].

Ltac good_goal :=
  split_handles; cbn in *; list_facts; (split; [ wf_goal | graph_goal ]).

(** Case analysis on a good world: without a context nothing is held; with
    one, the master gain and the analyser exist, and the therapy handles
    follow the playing flag. *)
Ltac open_good H :=
  destruct H as [[F1 F2 F3 F4 F5 F6 F7] GI];
  match goal with w : World |- _ => destruct w as [e h]; destruct e, h end;
  unfold graphInvariant, held in *; cbn in *;
  match goal with c : option unit |- _ => destruct c as [[]|] end;
  [ destruct F4 as (mg & an & -> & ->);
    match goal with b : bool |- _ =>
      match type of GI with context [if b then _ else _] => destruct b end end;
    [ destruct GI as (s & n & g & a & -> & -> & -> & [= <-] & E1 & E2 & E3)
    | destruct GI as (-> & -> & ->) ]
  | destruct F4 as (-> & -> & F4);
    repeat match goal with
           | H : context [opt_list ?o] |- _ =>
               is_var o; destruct o; try discriminate H
           end;
    match goal with b : bool |- _ =>
      match type of GI with context [if b then _ else _] => destruct b end end;
    [ destruct GI as (? & ? & ? & ? & [=] & _) | clear GI ] ];
  try match goal with
      | F : Forall (fun m => (m < ?n)%nat) ?l |- _ =>
          is_var l;
          assert (Hfresh : mem n l = false) by (apply mem_fresh; exact F)
      end.

Lemma good_sameGraph w w' : sameGraph w w' -> good w -> good w'.
Proof.
  unfold sameGraph.
  intros (H1 & H2 & H3 & H4 & H5 & H6 & H7 & H8 & H9 & H10 & H11 & H12 & H13)
         [[F1 F2 F3 F4 F5 F6 F7] GI].
  split.
  - constructor; unfold held in *;
      rewrite ?H1, ?H2, ?H3, ?H4, ?H5, ?H6, ?H7, ?H8, ?H10, ?H12, ?H13;
      assumption.
  - unfold graphInvariant, hasEdge in *.
    rewrite H3, H6, H7, H8, H9, H11. exact GI.
Qed.

Lemma sameGraph_refl w : sameGraph w w.
Proof. unfold sameGraph. repeat split. Qed.

Lemma sameGraph_trans w1 w2 w3 :
  sameGraph w1 w2 -> sameGraph w2 w3 -> sameGraph w1 w3.
Proof.
  unfold sameGraph. intros H1 H2.
  repeat match goal with H : _ /\ _ |- _ => destruct H end.
  repeat split; congruence.
Qed.

Lemma good_resumed w : good w -> good (resumed w).
Proof.
  apply good_sameGraph. destruct w as [e h]; destruct h.
  unfold sameGraph, resumed. cbn. repeat split.
Qed.

(** *** stopTherapy *)

Lemma stopTherapy_exec w :
  good w ->
  exists w', stopTherapy w = Ok tt w' /\ good w' /\
             engine w' = stoppedEngine (engine w) /\
             nextNode (host w') = nextNode (host w) /\
             bufferOf (host w') = bufferOf (host w) /\
             stopTherapy w' = Ok tt w'.
Proof.
  intros G. open_good G.
  - assert (Hm : mem s started0 = true) by (apply mem_In, F5; reflexivity).
    destruct timerInterval0;
      (eexists; split; [unfold stopTherapy; run; reflexivity|];
       split; [good_goal | repeat split; unfold stopTherapy; run; reflexivity ]).
  - destruct timerInterval0;
      (eexists; split; [unfold stopTherapy; run; reflexivity|];
       split; [good_goal | repeat split; unfold stopTherapy; run; reflexivity ]).
  - destruct timerInterval0;
      (eexists; split; [unfold stopTherapy; run; reflexivity|];
       split; [good_goal | repeat split; unfold stopTherapy; run; reflexivity ]).
Qed.

Ltac started_facts :=
  repeat match goal with
  | H : forall o, Some ?x = Some o -> In o ?l |- _ =>
      assert (mem x l = true) by (apply mem_In, H; reflexivity);
      specialize (H x eq_refl)
  | H : forall x, None = Some x -> _ |- _ => clear H
  end.

(** *** startTherapy *)

Lemma startTherapy_nocontext t b w :
  audioContext (engine w) = None -> startTherapy t b w = Throw TypeError w.
Proof.
  intros H. unfold startTherapy, resumeContext, bind, this. now rewrite H.
Qed.

Lemma startTherapy_toggle t w u :
  audioContext (engine w) = Some u -> isTherapyPlaying (engine w) = true ->
  startTherapy t false w = stopTherapy (resumed w).
Proof.
  intros Hc Hp. unfold startTherapy.
  rewrite (bind_Ok _ _ _ _ _ (resumeContext_ok w u Hc)).
  unfold bind at 1. unfold this. unfold resumed at 1. cbn [engine].
  now rewrite Hp.
Qed.

Lemma startTherapy_switch_exec t w :
  good w -> isTherapyPlaying (engine w) = true ->
  exists w',
    startTherapy t true w = Ok tt w' /\ good w' /\
    engine w' =
      set_therapySource (Some (nextNode (host w))) (set_currentSound t (engine w)) /\
    intervals (host w') = intervals (host w) /\
    now (host w') = now (host w) /\
    nextNode (host w') = S (nextNode (host w)) /\
    bufferOf (host w') =
      (nextNode (host w),
       mkBuffer (generatorFor t) (durationFor t) 2
         (sampleRate (host w) * durationFor t)) :: bufferOf (host w) /\
    therapySource (engine w) <> Some (nextNode (host w)).
Proof.
  intros G Hp. open_good G; try discriminate Hp.
  started_facts.
  eexists. split.
  { unfold startTherapy. rewrite bufferFor_eq. run. reflexivity. }
  split; [good_goal | repeat split].
  split_handles; cbn in *; list_facts; intros [= E]; lia.
Qed.

Lemma startTherapy_start_exec t b w u :
  good w -> isTherapyPlaying (engine w) = false ->
  audioContext (engine w) = Some u ->
  exists w',
    startTherapy t b w = Ok tt w' /\ good w' /\
    isTherapyPlaying (engine w') = true /\
    therapySource (engine w') = Some (nextNode (host w)) /\
    currentSound (engine w') = t /\
    (b = false -> therapyStartTime (engine w') = Some (now (host w)) /\
                  timerInterval (engine w') = Some (nextTimer (host w)) /\
                  intervals (host w') = nextTimer (host w) :: intervals (host w)).
Proof.
  intros G Hp Hc. open_good G; try discriminate Hp; try discriminate Hc.
  destruct b.
  - eexists. split.
    { unfold startTherapy. rewrite bufferFor_eq. run. reflexivity. }
    split; [good_goal | repeat split; discriminate].
  - eexists. split.
    { unfold startTherapy. rewrite bufferFor_eq. run. reflexivity. }
    split; [good_goal | repeat split].
Qed.

Lemma startTherapy_good t b w : good w -> good (after (startTherapy t b w)).
Proof.
  intros G.
  destruct (audioContext (engine w)) as [u|] eqn:Hc.
  - destruct (isTherapyPlaying (engine w)) eqn:Hp.
    + destruct b.
      * destruct (startTherapy_switch_exec t w G Hp) as (w' & -> & G' & _).
        exact G'.
      * rewrite (startTherapy_toggle t w u Hc Hp).
        destruct (stopTherapy_exec _ (good_resumed w G)) as (w' & -> & G' & _).
        exact G'.
    + destruct (startTherapy_start_exec t b w u G Hp Hc) as (w' & -> & G' & _).
      exact G'.
  - rewrite (startTherapy_nocontext t b w Hc). exact G.
Qed.

(** *** The test tone *)

Lemma stopTestTone_exec w :
  good w -> exists w', stopTestTone w = Ok tt w' /\ good w'.
Proof.
  intros G. open_good G.
  - destruct testOscillator0, testGain0; started_facts;
      (eexists; split; [unfold stopTestTone; run; reflexivity | good_goal]).
  - destruct testOscillator0, testGain0; started_facts;
      (eexists; split; [unfold stopTestTone; run; reflexivity | good_goal]).
  - eexists; split; [unfold stopTestTone; run; reflexivity | good_goal].
Qed.

Lemma playTestTone_good w : good w -> good (after (playTestTone w)).
Proof.
  intros G. open_good G.
  - destruct isTestTonePlaying0.
    + destruct testOscillator0, testGain0; started_facts;
        unfold playTestTone; run; good_goal.
    + unfold playTestTone; run; good_goal.
  - destruct isTestTonePlaying0.
    + destruct testOscillator0, testGain0; started_facts;
        unfold playTestTone; run; good_goal.
    + unfold playTestTone; run; good_goal.
  - unfold playTestTone; run; good_goal.
Qed.

(** *** Operations that leave the graph alone *)

Lemma setFrequency_exec f w :
  good w ->
  exists w', setFrequency f w = Ok tt w' /\ sameGraph w w' /\
             currentFrequency (engine w') = f.
Proof.
  intros G. open_good G.
  - destruct isTestTonePlaying0, testOscillator0;
      (eexists; split; [unfold setFrequency; run; reflexivity|];
       split; [unfold sameGraph; cbn; repeat split | reflexivity]).
  - destruct isTestTonePlaying0, testOscillator0;
      (eexists; split; [unfold setFrequency; run; reflexivity|];
       split; [unfold sameGraph; cbn; repeat split | reflexivity]).
  - destruct isTestTonePlaying0;
      (eexists; split; [unfold setFrequency; run; reflexivity|];
       split; [unfold sameGraph; cbn; repeat split | reflexivity]).
Qed.

Lemma setVolume_exec v w :
  good w -> exists w', setVolume v w = Ok tt w' /\ sameGraph w w'.
Proof.
  intros G. open_good G.
  - eexists; split; [unfold setVolume; run; reflexivity|].
    unfold sameGraph; cbn; repeat split.
  - eexists; split; [unfold setVolume; run; reflexivity|].
    unfold sameGraph; cbn; repeat split.
  - eexists; split; [unfold setVolume; run; reflexivity|].
    unfold sameGraph; cbn; repeat split.
Qed.

Lemma getAnalyserData_eq w :
  getAnalyserData w =
  Ok (match analyser (engine w) with
      | None => None
      | Some _ =>
          Some (fftSize (host w) / 2,
                map (analyserFrame (host w))
                  (seq 0 (Z.to_nat (fftSize (host w) / 2))))
      end) w.
Proof.
  unfold getAnalyserData, getByteTimeDomainData, bind, this, getHost, ret.
  destruct (analyser (engine w)); reflexivity.
Qed.

Lemma resumeContext_sameGraph w : sameGraph w (after (resumeContext w)).
Proof.
  destruct (audioContext (engine w)) as [[]|] eqn:Hc.
  - rewrite (resumeContext_ok w tt Hc). destruct w as [e h]; destruct h.
    unfold sameGraph, resumed. cbn. repeat split.
  - unfold resumeContext, bind, this. rewrite Hc. apply sameGraph_refl.
Qed.

Lemma adjustFrequency_eq d w :
  adjustFrequency d w =
  let f := Z.max 250 (Z.min 16000 (frequencySlider (host w) + d)) in
  setFrequency f (mkWorld (engine w) (set_frequencySlider f (host w))).
Proof. reflexivity. Qed.

Lemma good_slider f w :
  good w -> good (mkWorld (engine w) (set_frequencySlider f (host w))).
Proof.
  apply good_sameGraph. destruct w as [e h]; destruct h.
  unfold sameGraph. cbn. repeat split.
Qed.

Lemma updateTherapyUI_exec b w :
  updateTherapyUI b w =
  Ok tt (mkWorld (engine w) (set_therapyBtnPlaying b (host w))).
Proof. reflexivity. Qed.

Lemma good_button b w :
  good w -> good (mkWorld (engine w) (set_therapyBtnPlaying b (host w))).
Proof.
  apply good_sameGraph. destruct w as [e h]; destruct h.
  unfold sameGraph. cbn. repeat split.
Qed.

(** *** The clock *)

Lemma onlyClock_refl w : onlyClock w w.
Proof. destruct w as [e h]; destruct e, h. split; reflexivity. Qed.

Lemma onlyClock_trans w1 w2 w3 :
  onlyClock w1 w2 -> onlyClock w2 w3 -> onlyClock w1 w3.
Proof.
  destruct w1 as [e1 h1], w2 as [e2 h2], w3 as [e3 h3].
  unfold onlyClock. cbn. intros [-> ->] [-> ->].
  destruct e1, h1. split; reflexivity.
Qed.

Lemma onlyClock_sameGraph w w' : onlyClock w w' -> sameGraph w w'.
Proof.
  destruct w as [e h], w' as [e' h']. unfold onlyClock. cbn.
  intros [-> ->]. destruct e, h. unfold sameGraph. cbn. repeat split.
Qed.

Lemma timerCallback_exec w :
  exists w', timerCallback w = Ok tt w' /\ onlyClock w w' /\
    now (host w') = now (host w) /\
    therapyDuration (engine w') =
      (now (host w) -
       match therapyStartTime (engine w) with Some s => s | None => 0 end) / 1000.
Proof.
  destruct w as [e h]; destruct e, h.
  eexists. split; [unfold timerCallback; run; reflexivity|].
  repeat split.
Qed.

Lemma fire_exec id w :
  exists w', fire id w = Ok tt w' /\ onlyClock w w' /\
             now (host w') = now (host w).
Proof.
  unfold fire, bind at 1. unfold getHost.
  destruct (existsb (Pos.eqb id) (intervals (host w))).
  - destruct (timerCallback_exec w) as (w' & E & H & Hn & _). eauto.
  - exists w. split; [reflexivity|]. split; [apply onlyClock_refl | reflexivity].
Qed.

Lemma fires_exec l : forall w,
  exists w', fold_right (fun id k => fire id ;; k) (ret tt) l w = Ok tt w' /\
             onlyClock w w' /\ now (host w') = now (host w).
Proof.
  induction l as [|id l IH]; intros w; simpl.
  - exists w. split; [reflexivity|]. split; [apply onlyClock_refl | reflexivity].
  - destruct (fire_exec id w) as (w1 & E1 & H1 & N1).
    destruct (IH w1) as (w2 & E2 & H2 & N2).
    exists w2. split; [| split; [eapply onlyClock_trans; eauto | congruence]].
    rewrite (bind_Ok _ _ _ _ _ E1). exact E2.
Qed.

Lemma tick_exec w :
  exists w', tick w = Ok tt w' /\ onlyClock w w' /\
             now (host w') = (now (host w) + 1000)%Z.
Proof.
  set (w1 := mkWorld (engine w) (set_now (now (host w) + 1000) (host w))).
  destruct (fires_exec (intervals (host w1)) w1) as (w2 & E & H & N).
  exists w2. split; [exact E|]. split.
  - eapply onlyClock_trans; [|exact H].
    destruct w as [e h]; destruct e, h. split; reflexivity.
  - rewrite N. destruct w as [e h]; destruct h. reflexivity.
Qed.

Lemma ticks_exec n : forall w,
  exists w', ticks n w = Ok tt w' /\ onlyClock w w' /\
             now (host w') = (now (host w) + 1000 * Z.of_nat n)%Z.
Proof.
  induction n as [|n IH]; intros w.
  - exists w. split; [reflexivity|]. split; [apply onlyClock_refl|].
    simpl. lia.
  - destruct (tick_exec w) as (w1 & E1 & H1 & N1).
    destruct (IH w1) as (w2 & E2 & H2 & N2).
    exists w2. split; [| split; [eapply onlyClock_trans; eauto | lia]].
    simpl. rewrite (bind_Ok _ _ _ _ _ E1). exact E2.
Qed.

(** *** Composite operations *)

Lemma destroy_good w : good w -> good (after (destroy w)).
Proof.
  intros G. unfold destroy.
  destruct (stopTestTone_exec w G) as (w1 & E1 & G1).
  destruct (stopTherapy_exec w1 G1) as (w2 & E2 & G2 & _).
  rewrite (bind_Ok _ _ _ _ _ E1), (bind_Ok _ _ _ _ _ E2).
  revert G2. apply good_sameGraph.
  destruct w2 as [e h]; destruct e, h. destruct audioContext0;
    unfold sameGraph; cbn; repeat split.
Qed.

Lemma good_sound s w :
  good w -> good (mkWorld (set_currentSound s (engine w)) (host w)).
Proof.
  apply good_sameGraph. destruct w as [e h]; destruct e.
  unfold sameGraph. cbn. repeat split.
Qed.

Lemma selectSound_good s w : good w -> good (after (selectSound s w)).
Proof.
  intros G. pose proof (good_sound s w G) as G1.
  set (w1 := mkWorld (set_currentSound s (engine w)) (host w)) in *.
  assert (E : selectSound s w =
              (if isTherapyPlaying (engine w1)
               then detached (startTherapy s true) else ret tt) w1)
    by reflexivity.
  rewrite E. destruct (isTherapyPlaying (engine w1)) eqn:Hp; [|exact G1].
  destruct (startTherapy_switch_exec s w1 G1 Hp) as (w2 & E2 & G2 & _).
  unfold detached. rewrite (try_run _ _ _ _ E2). exact G2.
Qed.

Lemma toggleTherapy_good w : good w -> good (after (toggleTherapy w)).
Proof.
  intros G.
  assert (E : toggleTherapy w =
              (if isTherapyPlaying (engine w)
               then stopTherapy ;; updateTherapyUI false
               else startTherapy (currentSound (engine w)) false ;;
                    updateTherapyUI true) w)
    by reflexivity.
  rewrite E. destruct (isTherapyPlaying (engine w)) eqn:Hp.
  - destruct (stopTherapy_exec w G) as (w1 & E1 & G1 & _).
    rewrite (bind_Ok _ _ _ _ _ E1), updateTherapyUI_exec.
    apply good_button, G1.
  - destruct (audioContext (engine w)) as [u|] eqn:Hc.
    + destruct (startTherapy_start_exec (currentSound (engine w)) false w u G Hp Hc)
        as (w1 & E1 & G1 & _).
      rewrite (bind_Ok _ _ _ _ _ E1), updateTherapyUI_exec.
      apply good_button, G1.
    + rewrite (bind_run _ _ _ _ (startTherapy_nocontext _ _ w Hc)). exact G.
Qed.

Lemma initializeApp_good sup rate frame t0 slider :
  good (after (initializeApp (page sup rate frame t0 slider))).
Proof.
  destruct sup; unfold initializeApp, page; run.
  - split; [constructor; cbn; auto; try solve [repeat constructor | intros ? [=]]; eauto
           | unfold graphInvariant; cbn; auto].
  - split; [constructor; cbn; auto; try solve [repeat constructor | intros ? [=]]
           | unfold graphInvariant; cbn; auto].
Qed.

Lemma perform_good o w : good w -> good (after (perform o w)).
Proof.
  intros G. destruct o; cbn [perform].
  - destruct (setFrequency_exec f w G) as (w' & -> & S & _).
    exact (good_sameGraph _ _ S G).
  - destruct (setVolume_exec v w G) as (w' & -> & S).
    exact (good_sameGraph _ _ S G).
  - apply playTestTone_good, G.
  - destruct (stopTestTone_exec w G) as (w' & -> & G'). exact G'.
  - apply startTherapy_good, G.
  - destruct (stopTherapy_exec w G) as (w' & -> & G' & _). exact G'.
  - unfold bind. rewrite getAnalyserData_eq. exact G.
  - apply destroy_good, G.
  - exact (good_sameGraph _ _ (resumeContext_sameGraph w) G).
  - apply selectSound_good, G.
  - apply toggleTherapy_good, G.
  - rewrite adjustFrequency_eq. cbv zeta.
    match goal with
    | |- context [setFrequency ?f ?w1] =>
        destruct (setFrequency_exec f w1 (good_slider f w G)) as (w' & -> & S & _);
        exact (good_sameGraph _ _ S (good_slider f w G))
    end.
  - destruct (tick_exec w) as (w' & -> & H & _).
    exact (good_sameGraph _ _ (onlyClock_sameGraph _ _ H) G).
Qed.

Lemma reachable_good w : reachable w -> good w.
Proof.
  induction 1 as [sup rate frame t0 slider | w o _ IH].
  - apply initializeApp_good.
  - apply perform_good, IH.
Qed.

Lemma good_playing_context w :
  good w -> isTherapyPlaying (engine w) = true ->
  audioContext (engine w) = Some tt.
Proof. intros G Hp. open_good G; try discriminate Hp. reflexivity. Qed.

Lemma stopTherapy_settings w :
  let w' := after (stopTherapy w) in
  currentSound (engine w') = currentSound (engine w) /\
  currentFrequency (engine w') = currentFrequency (engine w) /\
  currentVolume (engine w') = currentVolume (engine w).
Proof.
  destruct w as [e h]; destruct e, h. cbv zeta.
  destruct therapySource0 as [s|]; [destruct (mem s started0) eqn:Hm|];
    destruct notchFilter0, therapyGain0, timerInterval0;
    unfold stopTherapy; run; repeat split.
Qed.

(* ================================================================== *)
(** ** The claims about the session controller *)
(* ================================================================== *)

(** C1 (the code departs from the claim): on a page whose script registered
    the auto-stop callback, therapy is started and 1800 one-second ticks
    pass (with a live sound switch after 900 of them, which leaves the
    timer alone: the counter reads 1800 at the end).  The interval callback
    only recomputes [therapyDuration] and the display: therapy is still
    playing, the interval timer is still live and the callback's alert was
    never shown.  The same holds from every world and for every number of
    ticks: they return normally and change neither the playing flag, nor
    the live timers, nor the alerts shown. *)
Theorem auto_stop_never_fires :
  (let w900 := after (ticks 900 (after (startTherapy "whitenoise" false idle))) in
   let w1800 := after (ticks 900 (after (startTherapy "forest" true w900))) in
   onAutoStop (engine idle) = Some AutoStopHandler /\
   therapyStartTime (engine w1800) = Some 0 /\
   therapyDuration (engine w1800) = 1800 /\
   isTherapyPlaying (engine w1800) = true /\
   intervals (host w1800) = [1%positive] /\
   alerts (host w1800) = []) /\
  (forall n w, exists w',
     ticks n w = Ok tt w' /\
     isTherapyPlaying (engine w') = isTherapyPlaying (engine w) /\
     intervals (host w') = intervals (host w) /\
     alerts (host w') = alerts (host w)).
Proof.
  split; [vm_compute; repeat split|].
  intros n w. destruct (ticks_exec n w) as (w' & E & [He Hh] & _).
  exists w'. split; [exact E|]. rewrite He, Hh. repeat split.
Qed.

(** C3, as the claim states it, fails: [setFrequency(-100)] stores -100 and
    [setFrequency(99999)] stores 99999. *)
Lemma setFrequency_clamp_counterexample :
  currentFrequency (engine (after (setFrequency (-100) idle))) = -100 /\
  currentFrequency (engine (after (setFrequency 99999 idle))) = 99999 /\
  ~ (forall f, f < 250 ->
       currentFrequency (engine (after (setFrequency f idle))) = 250).
Proof.
  split; [reflexivity|]. split; [reflexivity|].
  intros H. specialize (H (-100) eq_refl). vm_compute in H. discriminate H.
Qed.

(** C3 (amended): for every input [f], [setFrequency(f)] returns normally
    and stores [f] itself in [currentFrequency], in range or not; the clamp
    to [250, 16000] is made by [adjustFrequency] before it calls
    [setFrequency]. *)
Theorem setFrequency_stores_input f d w :
  reachable w ->
  (exists w', setFrequency f w = Ok tt w' /\
              currentFrequency (engine w') = f) /\
  (exists w', adjustFrequency d w = Ok tt w' /\
              250 <= currentFrequency (engine w') <= 16000).
Proof.
  intros R. pose proof (reachable_good w R) as G. split.
  - destruct (setFrequency_exec f w G) as (w' & E & _ & Hf). eauto.
  - rewrite adjustFrequency_eq. cbv zeta.
    match goal with
    | |- context [setFrequency ?x ?w1] =>
        destruct (setFrequency_exec x w1 (good_slider x w G)) as (w' & E & _ & Hf)
    end.
    exists w'. split; [exact E|]. rewrite Hf. lia.
Qed.

Lemma setFrequency_stores_input_witness :
  (exists w', setFrequency (-100) playingRain = Ok tt w' /\
              currentFrequency (engine w') = -100) /\
  (exists w', adjustFrequency 99999 playingRain = Ok tt w' /\
              250 <= currentFrequency (engine w') <= 16000).
Proof.
  apply (setFrequency_stores_input (-100) 99999 playingRain).
  apply reach_step, reach_init.
Defined.

(** C5: [startTherapy(t, false)] while therapy is playing returns normally
    with therapy stopped: the flag is false, the source handle is released,
    and the device has no new node and no new buffer. *)
Theorem startTherapy_toggle_stops t w :
  reachable w -> isTherapyPlaying (engine w) = true ->
  exists w', startTherapy t false w = Ok tt w' /\
             isTherapyPlaying (engine w') = false /\
             therapySource (engine w') = None /\
             nextNode (host w') = nextNode (host w) /\
             bufferOf (host w') = bufferOf (host w).
Proof.
  intros R Hp. pose proof (reachable_good w R) as G.
  rewrite (startTherapy_toggle t w tt (good_playing_context w G Hp) Hp).
  destruct (stopTherapy_exec _ (good_resumed w G))
    as (w' & E & _ & He & Hn & Hb & _).
  exists w'. split; [exact E|]. rewrite He, Hn, Hb.
  destruct w as [e h]; destruct h. repeat split.
Qed.

Lemma startTherapy_toggle_stops_witness :
  exists w', startTherapy "rain" false playingRain = Ok tt w' /\
             isTherapyPlaying (engine w') = false /\
             therapySource (engine w') = None /\
             nextNode (host w') = nextNode (host playingRain) /\
             bufferOf (host w') = bufferOf (host playingRain).
Proof.
  apply (startTherapy_toggle_stops "rain" playingRain).
  - apply reach_step, reach_init.
  - reflexivity.
Defined.

(** C6: a switch ([startTherapy(t, true)] while therapy is playing) returns
    normally; the notch filter and the therapy gain are the nodes they were,
    the source is a node that did not exist before, therapy is still
    playing, and start time, interval handle, elapsed counter and the live
    interval timers are untouched. *)
Theorem switch_replaces_only_source t w :
  reachable w -> isTherapyPlaying (engine w) = true ->
  exists w', startTherapy t true w = Ok tt w' /\
    notchFilter (engine w') = notchFilter (engine w) /\
    therapyGain (engine w') = therapyGain (engine w) /\
    notchFilter (engine w') <> None /\
    therapyGain (engine w') <> None /\
    therapySource (engine w') = Some (nextNode (host w)) /\
    therapySource (engine w') <> therapySource (engine w) /\
    isTherapyPlaying (engine w') = true /\
    therapyStartTime (engine w') = therapyStartTime (engine w) /\
    timerInterval (engine w') = timerInterval (engine w) /\
    therapyDuration (engine w') = therapyDuration (engine w) /\
    intervals (host w') = intervals (host w).
Proof.
  intros R Hp. pose proof (reachable_good w R) as G.
  destruct (startTherapy_switch_exec t w G Hp)
    as (w' & E & G' & He & Hi & _ & _ & _ & Hs).
  exists w'. split; [exact E|]. rewrite He, Hi.
  destruct G as [_ GI]. unfold graphInvariant in GI. rewrite Hp in GI.
  destruct GI as (s & n & g & a & Es & En & Eg & _).
  destruct w as [e h]; destruct e. cbn in *. subst.
  repeat split; try discriminate. congruence.
Qed.

Lemma switch_replaces_only_source_witness :
  exists w', startTherapy "forest" true playingRain = Ok tt w' /\
    notchFilter (engine w') = notchFilter (engine playingRain) /\
    therapyGain (engine w') = therapyGain (engine playingRain) /\
    notchFilter (engine w') <> None /\
    therapyGain (engine w') <> None /\
    therapySource (engine w') = Some (nextNode (host playingRain)) /\
    therapySource (engine w') <> therapySource (engine playingRain) /\
    isTherapyPlaying (engine w') = true /\
    therapyStartTime (engine w') = therapyStartTime (engine playingRain) /\
    timerInterval (engine w') = timerInterval (engine playingRain) /\
    therapyDuration (engine w') = therapyDuration (engine playingRain) /\
    intervals (host w') = intervals (host playingRain).
Proof.
  apply (switch_replaces_only_source "forest" playingRain).
  - apply reach_step, reach_init.
  - reflexivity.
Defined.

(** C7: in every world the page can reach (therapy never started, playing,
    or already stopped), [stopTherapy()] returns normally, leaves
    [isTherapyPlaying] false and the source, filter and gain handles null,
    and a second call returns normally again and changes nothing. *)
Theorem stopTherapy_idempotent w :
  reachable w ->
  exists w', stopTherapy w = Ok tt w' /\
             isTherapyPlaying (engine w') = false /\
             therapySource (engine w') = None /\
             notchFilter (engine w') = None /\
             therapyGain (engine w') = None /\
             stopTherapy w' = Ok tt w'.
Proof.
  intros R. pose proof (reachable_good w R) as G.
  destruct (stopTherapy_exec w G) as (w' & E & _ & He & _ & _ & E2).
  exists w'. split; [exact E|]. rewrite He. repeat split. exact E2.
Qed.

Lemma stopTherapy_idempotent_witness :
  (exists w', stopTherapy idle = Ok tt w' /\
             isTherapyPlaying (engine w') = false /\
             therapySource (engine w') = None /\
             notchFilter (engine w') = None /\
             therapyGain (engine w') = None /\
             stopTherapy w' = Ok tt w') /\
  (exists w', stopTherapy playingRain = Ok tt w' /\
             isTherapyPlaying (engine w') = false /\
             therapySource (engine w') = None /\
             notchFilter (engine w') = None /\
             therapyGain (engine w') = None /\
             stopTherapy w' = Ok tt w').
Proof.
  split.
  - apply (stopTherapy_idempotent idle). apply reach_init.
  - apply (stopTherapy_idempotent playingRain). apply reach_step, reach_init.
Defined.

(** C8, as the claim states it, fails: on the freshly initialised page
    therapy is not playing, and [getAnalyserData()] returns a 1024-byte
    snapshot, not the no-data value. *)
Lemma getAnalyserData_idle_counterexample :
  isTherapyPlaying (engine idle) = false /\
  getAnalyserData idle = Ok (Some (1024, repeat Byte.x80 1024)) idle /\
  ~ (exists w', getAnalyserData idle = Ok None w').
Proof.
  split; [reflexivity|].
  assert (E : getAnalyserData idle = Ok (Some (1024, repeat Byte.x80 1024)) idle)
    by (vm_compute; reflexivity).
  split; [exact E|]. rewrite E. intros [w' H]. discriminate H.
Qed.

(** C8 (amended): [getAnalyserData()] never changes the state; it returns
    null exactly when the engine has no analyser, and otherwise, whether or
    not therapy is playing, the first 1024 bytes the analyser holds. *)
Theorem getAnalyserData_snapshot w :
  reachable w ->
  exists r, getAnalyserData w = Ok r w /\
    (analyser (engine w) = None -> r = None) /\
    (analyser (engine w) <> None ->
       exists data, r = Some (1024, data) /\
                    List.length data = 1024%nat /\
                    forall i, (i < 1024)%nat ->
                      nth i data Byte.x00 = analyserFrame (host w) i).
Proof.
  intros R. pose proof (reachable_good w R) as [[_ _ _ _ _ _ F] _].
  rewrite getAnalyserData_eq. eexists. split; [reflexivity|].
  rewrite F. change (2048 / 2) with 1024.
  destruct (analyser (engine w)); split; try congruence.
  intros _. eexists. split; [reflexivity|]. split.
  - rewrite length_map, length_seq. reflexivity.
  - intros i Hi.
    rewrite nth_indep with (d' := analyserFrame (host w) 0%nat)
      by (rewrite length_map, length_seq; exact Hi).
    rewrite map_nth. rewrite seq_nth by exact Hi. reflexivity.
Qed.

Lemma getAnalyserData_snapshot_witness :
  exists r, getAnalyserData idle = Ok r idle /\
    (analyser (engine idle) = None -> r = None) /\
    (analyser (engine idle) <> None ->
       exists data, r = Some (1024, data) /\
                    List.length data = 1024%nat /\
                    forall i, (i < 1024)%nat ->
                      nth i data Byte.x00 = analyserFrame (host idle) i).
Proof. apply (getAnalyserData_snapshot idle). apply reach_init. Defined.

(** C9: in every world the page can reach, that is after [initializeApp]
    and any sequence of public operations and timer ticks, the graph
    invariant holds: while [isTherapyPlaying] is true the source, filter and
    gain handles are set and connected source -> filter -> gain -> analyser;
    while it is false all three are null. *)
Theorem graph_invariant_reachable w : reachable w -> graphInvariant w.
Proof. intros R. exact (proj2 (reachable_good w R)). Qed.

Lemma graph_invariant_reachable_witness :
  graphInvariant
    (after (perform (StartTherapy "forest" true)
      (after (perform PlayTestTone playingRain)))).
Proof.
  apply graph_invariant_reachable.
  apply reach_step, reach_step, reach_step, reach_init.
Defined.

(** C10: on the toggle-stop path ([startTherapy(t, false)] while therapy is
    playing) [currentSound], [currentFrequency] and [currentVolume] keep
    their values, whatever [t] is and however the call ends. *)
Theorem toggle_stop_keeps_settings t w :
  isTherapyPlaying (engine w) = true ->
  let w' := after (startTherapy t false w) in
  currentSound (engine w') = currentSound (engine w) /\
  currentFrequency (engine w') = currentFrequency (engine w) /\
  currentVolume (engine w') = currentVolume (engine w).
Proof.
  intros Hp. cbv zeta.
  destruct (audioContext (engine w)) as [[]|] eqn:Hc.
  - rewrite (startTherapy_toggle t w tt Hc Hp).
    exact (stopTherapy_settings (resumed w)).
  - rewrite (startTherapy_nocontext t false w Hc). repeat split.
Qed.

Lemma toggle_stop_keeps_settings_witness :
  currentSound (engine (after (startTherapy "forest" false playingRain))) = "rain" /\
  currentFrequency (engine (after (startTherapy "forest" false playingRain))) = 4000 /\
  currentVolume (engine (after (startTherapy "forest" false playingRain))) = (1 # 2)%Q.
Proof.
  exact (toggle_stop_keeps_settings "forest" playingRain eq_refl).
Defined.


(* ------------------------------------------------------------------ *)
(** *** Further facts: parameters, test tone, timer, display *)
(* ------------------------------------------------------------------ *)

Lemma Ok_inj {A} (a b : A) (w w' : World) : Ok a w = Ok b w' -> w = w'.
Proof. now intros [= _ ->]. Qed.

Ltac latest_goal :=
  intros; try discriminate;
  repeat match goal with
         | H : Some _ = Some _ |- _ => injection H as <-
         end;
  cbn -[Nat.eqb];
  repeat (rewrite ?Nat.eqb_refl, ?andb_false_r, ?andb_true_r; cbn -[Nat.eqb]);
  repeat match goal with
         | |- context [Nat.eqb ?a ?b] =>
             destruct (Nat.eqb_spec a b); [ exfalso; lia | cbn -[Nat.eqb] ]
         end;
  try reflexivity.

Lemma sameSession_refl w : sameSession w w.
Proof. unfold sameSession. repeat split. Qed.

Lemma sessionInvariant_same w w' :
  sameSession w w' -> sessionInvariant w -> sessionInvariant w'.
Proof.
  intros (H1 & H2 & H3 & H4 & H5 & H6 & H7) [S1 S2 S3 S4 S5 S6].
  constructor; rewrite ?H1, ?H2, ?H3, ?H4, ?H5, ?H6, ?H7; assumption.
Qed.

(** Only the parameter writes differ. *)
Lemma paramsOnly_session w w' :
  host w' = set_params (params (host w')) (host w) ->
  timerInterval (engine w') = timerInterval (engine w) ->
  isTherapyPlaying (engine w') = isTherapyPlaying (engine w) ->
  therapyStartTime (engine w') = therapyStartTime (engine w) ->
  therapyDuration (engine w') = therapyDuration (engine w) ->
  sameSession w w'.
Proof.
  intros Hh H1 H2 H3 H4. unfold sameSession. rewrite Hh.
  destruct w as [e0 h0]; destruct h0. cbn in *. repeat split; assumption.
Qed.

Lemma setFrequency_more f w :
  good w ->
  exists w',
    setFrequency f w = Ok tt w' /\
    engine w' = set_currentFrequency f (engine w) /\
    host w' = set_params (params (host w')) (host w) /\
    (isTherapyPlaying (engine w) = true ->
     forall n, notchFilter (engine w) = Some n ->
       latest n frequency (params (host w')) = Some (inject_Z f)) /\
    (isTestTonePlaying (engine w) = true ->
     forall o, testOscillator (engine w) = Some o ->
       latest o frequency (params (host w')) = Some (inject_Z f)) /\
    (isTherapyPlaying (engine w) = false ->
     isTestTonePlaying (engine w) = false ->
     params (host w') = params (host w)).
Proof.
  intros G. open_good G.
  - destruct isTestTonePlaying0, testOscillator0;
      (eexists; split; [unfold setFrequency; run; reflexivity|];
       split_handles; cbn in *; list_facts;
       repeat split; latest_goal).
  - destruct isTestTonePlaying0, testOscillator0;
      (eexists; split; [unfold setFrequency; run; reflexivity|];
       split_handles; cbn in *; list_facts;
       repeat split; latest_goal).
  - destruct isTestTonePlaying0;
      (eexists; split; [unfold setFrequency; run; reflexivity|];
       repeat split; latest_goal).
Qed.

Lemma setVolume_more v w :
  good w ->
  exists w',
    setVolume v w = Ok tt w' /\
    engine w' = set_currentVolume v (engine w) /\
    host w' = set_params (params (host w')) (host w) /\
    (forall g, masterGain (engine w) = Some g ->
       latest g gain (params (host w')) = Some v) /\
    (masterGain (engine w) = None -> params (host w') = params (host w)).
Proof.
  intros G. open_good G;
    (eexists; split; [unfold setVolume; run; reflexivity|];
     repeat split; latest_goal).
Qed.

(** *** Connections that are gone *)

Lemma In_addEdge_inv x a b es : In x (addEdge a b es) -> x = (a, b) \/ In x es.
Proof.
  unfold addEdge. destruct (existsb _ es); [now right|].
  intros [<-|H]; [now left | now right].
Qed.

Lemma In_dropFrom_inv x a es : In x (dropFrom a es) -> In x es /\ fst x <> a.
Proof.
  unfold dropFrom. intros H. apply filter_In in H. destruct H as [H1 H2].
  split; [exact H1|]. now apply negb_true_iff, Nat.eqb_neq in H2.
Qed.

Ltac noedge_goal :=
  unfold hasEdge; cbn [edges host]; unfold not; intros;
  repeat match goal with
         | H : In _ (addEdge _ _ _) |- _ =>
             apply In_addEdge_inv in H; destruct H as [H|H];
             [ injection H as ? ?; lia | ]
         end;
  repeat match goal with
         | H : In _ (dropFrom _ _) |- _ =>
             let N := fresh "N" in
             apply In_dropFrom_inv in H; destruct H as [H N];
             cbn [fst] in N; try congruence
         end.

(** *** The test tone, in detail *)

Lemma stopTestTone_more w :
  good w ->
  exists w',
    stopTestTone w = Ok tt w' /\
    sameSession w w' /\ sameTherapy w w' /\
    testOscillator (engine w') = None /\ testGain (engine w') = None /\
    isTestTonePlaying (engine w') = false /\
    audioContext (engine w') = audioContext (engine w) /\
    nextNode (host w') = nextNode (host w) /\
    params (host w') = params (host w) /\
    stopTestTone w' = Ok tt w' /\
    (forall o, testOscillator (engine w) = Some o -> In o (stopped (host w'))) /\
    (forall m x,
       testOscillator (engine w) = Some m \/ testGain (engine w) = Some m ->
       ~ hasEdge m x (host w')) /\
    ctxState (host w') = ctxState (host w).
Proof.
  intros G. open_good G.
  - destruct testOscillator0, testGain0; started_facts;
      (eexists; split; [unfold stopTestTone; run; reflexivity |];
       unfold sameSession, sameTherapy; cbn;
       repeat match goal with |- _ /\ _ => split end;
       try reflexivity;
       try solve [ unfold stopTestTone; run; reflexivity
                 | intros ? [= <-]; now left
                 | intros ? [=]
                 | intros m x [Hm|Hm]; try discriminate Hm;
                   injection Hm as <-; noedge_goal ]).
  - destruct testOscillator0, testGain0; started_facts;
      (eexists; split; [unfold stopTestTone; run; reflexivity |];
       unfold sameSession, sameTherapy; cbn;
       repeat match goal with |- _ /\ _ => split end;
       try reflexivity;
       try solve [ unfold stopTestTone; run; reflexivity
                 | intros ? [= <-]; now left
                 | intros ? [=]
                 | intros m x [Hm|Hm]; try discriminate Hm;
                   injection Hm as <-; noedge_goal ]).
  - eexists; split; [unfold stopTestTone; run; reflexivity |];
      unfold sameSession, sameTherapy; cbn;
      repeat match goal with |- _ /\ _ => split end;
      try reflexivity;
      try solve [ unfold stopTestTone; run; reflexivity
                | intros ? [=] | intros m x [[=]|[=]] ].
Qed.

Lemma playTestTone_nocontext w :
  audioContext (engine w) = None -> playTestTone w = Throw TypeError w.
Proof.
  intros H. unfold playTestTone, resumeContext, bind, this. now rewrite H.
Qed.

Lemma playTestTone_toggle w u :
  audioContext (engine w) = Some u -> isTestTonePlaying (engine w) = true ->
  playTestTone w = stopTestTone (resumed w).
Proof.
  intros Hc Hp. unfold playTestTone.
  rewrite (bind_Ok _ _ _ _ _ (resumeContext_ok w u Hc)).
  unfold bind at 1. unfold this. unfold resumed at 1. cbn [engine].
  now rewrite Hp.
Qed.

Lemma sameSession_resumed w : sameSession w (resumed w).
Proof.
  destruct w as [e h]; destruct h. unfold sameSession, resumed. cbn.
  repeat split.
Qed.

Lemma sameTherapy_resumed w : sameTherapy w (resumed w).
Proof. unfold sameTherapy, resumed. cbn. repeat split. Qed.

Lemma sameSession_trans w1 w2 w3 :
  sameSession w1 w2 -> sameSession w2 w3 -> sameSession w1 w3.
Proof.
  unfold sameSession. intros H1 H2.
  repeat match goal with H : _ /\ _ |- _ => destruct H end.
  repeat split; congruence.
Qed.

Lemma sameTherapy_trans w1 w2 w3 :
  sameTherapy w1 w2 -> sameTherapy w2 w3 -> sameTherapy w1 w3.
Proof.
  unfold sameTherapy. intros H1 H2.
  repeat match goal with H : _ /\ _ |- _ => destruct H end.
  repeat split; congruence.
Qed.

Lemma playTestTone_start w u :
  good w -> audioContext (engine w) = Some u ->
  isTestTonePlaying (engine w) = false ->
  exists w' mg,
    playTestTone w = Ok tt w' /\
    sameSession w w' /\ sameTherapy w w' /\
    masterGain (engine w') = Some mg /\
    testOscillator (engine w') = Some (nextNode (host w)) /\
    testGain (engine w') = Some (S (nextNode (host w))) /\
    isTestTonePlaying (engine w') = true /\
    latest (nextNode (host w)) frequency (params (host w'))
      = Some (inject_Z (currentFrequency (engine w))) /\
    latest (S (nextNode (host w))) gain (params (host w')) = Some (3 # 10)%Q /\
    hasEdge (nextNode (host w)) (S (nextNode (host w))) (host w') /\
    hasEdge (S (nextNode (host w))) mg (host w') /\
    In (nextNode (host w)) (started (host w')).
Proof.
  intros G Hc Hp. open_good G; try discriminate Hc; subst.
  - eexists; exists mg; split; [unfold playTestTone; run; reflexivity |].
    unfold sameSession, sameTherapy. cbn.
    repeat split; try latest_goal; try edge_goal; auto.
  - eexists; exists mg; split; [unfold playTestTone; run; reflexivity |].
    unfold sameSession, sameTherapy. cbn.
    repeat split; try latest_goal; try edge_goal; auto.
Qed.

(** *** Timer, counter and display *)

Ltac session_goal :=
  constructor; cbn in *; rewrite ?Pos.eqb_refl; cbn;
  try solve [ auto | congruence | intros; congruence | intros ? [= <-]; lia
            | lia ].

Ltac open_session S :=
  destruct S as [S1 S2 S3 S4 S5 S6].

Ltac session_facts :=
  cbn in *;
  repeat match goal with
         | H : false = false -> _ |- _ => specialize (H eq_refl)
         | H : ?x = None |- _ => is_var x; subst x
         | H : ?x = [] |- _ => is_var x; subst x
         | H : ?x = [_] |- _ => is_var x; subst x
         | H : ?x = (_, _) |- _ => is_var x; subst x
         end.

Lemma stopTherapy_session w :
  good w -> sessionInvariant w ->
  exists w',
    stopTherapy w = Ok tt w' /\ sessionInvariant w' /\
    timerInterval (engine w') = None /\ intervals (host w') = [] /\
    therapyDuration (engine w') = therapyDuration (engine w) /\
    therapyStartTime (engine w') = therapyStartTime (engine w) /\
    timerTime (host w') = timerTime (host w) /\
    now (host w') = now (host w) /\
    testOscillator (engine w') = testOscillator (engine w) /\
    testGain (engine w') = testGain (engine w) /\
    isTestTonePlaying (engine w') = isTestTonePlaying (engine w) /\
    params (host w') = params (host w) /\
    nextNode (host w') = nextNode (host w) /\
    (forall s, therapySource (engine w) = Some s -> In s (stopped (host w'))) /\
    (forall m x,
       therapySource (engine w) = Some m \/ notchFilter (engine w) = Some m \/
       therapyGain (engine w) = Some m ->
       ~ hasEdge m x (host w')) /\
    ctxState (host w') = ctxState (host w).
Proof.
  intros G S. open_session S. open_good G.
  - started_facts. destruct timerInterval0; session_facts;
      (eexists; split; [unfold stopTherapy; run; reflexivity |];
       split; [session_goal | cbn; rewrite ?Pos.eqb_refl;
                              repeat match goal with |- _ /\ _ => split end;
                              try reflexivity];
       [ intros ? [= <-]; now left
       | intros m x [[= <-]|[[= <-]|[= <-]]]; noedge_goal ]).
  - session_facts.
    eexists; split; [unfold stopTherapy; run; reflexivity |];
      split; [session_goal | cbn;
                             repeat match goal with |- _ /\ _ => split end;
                             try reflexivity];
      [ intros ? [=] | intros m x [[=]|[[=]|[=]]] ].
  - session_facts.
    eexists; split; [unfold stopTherapy; run; reflexivity |];
      split; [session_goal | cbn;
                             repeat match goal with |- _ /\ _ => split end;
                             try reflexivity];
      [ intros ? [=] | intros m x [[=]|[[=]|[=]]] ].
Qed.

Lemma startTherapy_start_more t b w u :
  good w -> sessionInvariant w ->
  isTherapyPlaying (engine w) = false -> audioContext (engine w) = Some u ->
  let s := nextNode (host w) in
  let n := S s in
  let g := S (S s) in
  exists w',
    startTherapy t b w = Ok tt w' /\ sessionInvariant w' /\
    therapySource (engine w') = Some s /\
    notchFilter (engine w') = Some n /\
    therapyGain (engine w') = Some g /\
    isTherapyPlaying (engine w') = true /\
    currentSound (engine w') = t /\
    latest n frequency (params (host w'))
      = Some (inject_Z (currentFrequency (engine w))) /\
    latest n Qfactor (params (host w')) = Some (inject_Z 30) /\
    latest g gain (params (host w')) = Some (7 # 10)%Q /\
    bufferAt s (bufferOf (host w'))
      = Some (mkBuffer (generatorFor t) (durationFor t) 2
                (sampleRate (host w) * durationFor t)) /\
    In s (started (host w')) /\
    therapyDuration (engine w') = therapyDuration (engine w) /\
    timerTime (host w') = timerTime (host w) /\
    now (host w') = now (host w) /\
    testOscillator (engine w') = testOscillator (engine w) /\
    testGain (engine w') = testGain (engine w) /\
    isTestTonePlaying (engine w') = isTestTonePlaying (engine w) /\
    (b = false ->
       therapyStartTime (engine w') = Some (now (host w)) /\
       timerInterval (engine w') = Some (nextTimer (host w)) /\
       intervals (host w') = [nextTimer (host w)]) /\
    (b = true ->
       therapyStartTime (engine w') = therapyStartTime (engine w) /\
       timerInterval (engine w') = None /\
       intervals (host w') = []).
Proof.
  intros G S Hp Hc. open_session S.
  open_good G; try discriminate Hp; try discriminate Hc.
  session_facts. destruct b.
  - eexists. split.
    { unfold startTherapy. rewrite bufferFor_eq. run. reflexivity. }
    split; [session_goal |].
    cbn -[Nat.eqb]. rewrite ?Nat.eqb_refl.
    repeat split; try latest_goal; auto; discriminate.
  - eexists. split.
    { unfold startTherapy. rewrite bufferFor_eq. run. reflexivity. }
    split; [session_goal |].
    cbn -[Nat.eqb]. rewrite ?Nat.eqb_refl.
    repeat split; try latest_goal; auto; discriminate.
Qed.

Lemma startTherapy_switch_more t w :
  good w -> isTherapyPlaying (engine w) = true ->
  exists w',
    startTherapy t true w = Ok tt w' /\
    sameSession w w' /\
    currentSound (engine w') = t /\
    therapySource (engine w') = Some (nextNode (host w)) /\
    notchFilter (engine w') = notchFilter (engine w) /\
    therapyGain (engine w') = therapyGain (engine w) /\
    bufferAt (nextNode (host w)) (bufferOf (host w'))
      = Some (mkBuffer (generatorFor t) (durationFor t) 2
                (sampleRate (host w) * durationFor t)) /\
    (forall s, therapySource (engine w) = Some s ->
       In s (stopped (host w')) /\
       forall x, ~ hasEdge s x (host w')) /\
    params (host w') = params (host w) /\
    testOscillator (engine w') = testOscillator (engine w) /\
    testGain (engine w') = testGain (engine w) /\
    isTestTonePlaying (engine w') = isTestTonePlaying (engine w).
Proof.
  intros G Hp. open_good G; try discriminate Hp.
  started_facts.
  eexists. split.
  { unfold startTherapy. rewrite bufferFor_eq. run. reflexivity. }
  unfold sameSession. cbn -[Nat.eqb]. rewrite ?Nat.eqb_refl.
  repeat split; auto.
  - injection H0 as <-. now left.
  - injection H0 as <-. split_handles; cbn in *; list_facts; noedge_goal.
Qed.

Lemma tick_idle w :
  intervals (host w) = [] ->
  tick w = Ok tt (mkWorld (engine w) (set_now (now (host w) + 1000) (host w))).
Proof.
  destruct w as [e h]; destruct h. cbn. intros ->. reflexivity.
Qed.

Lemma tick_live w id :
  intervals (host w) = [id] ->
  let t0 := match therapyStartTime (engine w) with Some s => s | None => 0 end in
  let d := (now (host w) + 1000 - t0) / 1000 in
  tick w =
  Ok tt (mkWorld (set_therapyDuration d (engine w))
           (set_timerTime (d / 60, Z.rem d 60)
              (set_now (now (host w) + 1000) (host w)))).
Proof.
  destruct w as [e h]; destruct e, h. cbn. intros ->.
  unfold tick, elapse, fire, timerCallback, updateTimerDisplay, DateNow,
    bind, hostDo, getHost, this, assign, ret.
  cbn. rewrite Pos.eqb_refl. reflexivity.
Qed.

Lemma tick_session w : sessionInvariant w -> sessionInvariant (after (tick w)).
Proof.
  intros S. open_session S.
  destruct (timerInterval (engine w)) as [id|] eqn:Ht.
  - rewrite (tick_live w id S1). cbv zeta.
    destruct (therapyStartTime (engine w)) as [t|] eqn:Hs;
      [| exfalso; apply S3; [discriminate | reflexivity]].
    specialize (S4 t eq_refl).
    destruct w as [e h]; destruct e, h. cbn in *. subst.
    constructor; cbn; auto; try congruence.
    + intros ? [= <-]. lia.
    + apply Z.div_pos; lia.
  - rewrite (tick_idle w S1).
    destruct w as [e h]; destruct e, h. cbn in *. subst.
    constructor; cbn; auto.
    intros t Hs. specialize (S4 t Hs). lia.
Qed.

Lemma sameSession_host e w f :
  timerInterval e = timerInterval (engine w) ->
  isTherapyPlaying e = isTherapyPlaying (engine w) ->
  therapyStartTime e = therapyStartTime (engine w) ->
  therapyDuration e = therapyDuration (engine w) ->
  intervals (f (host w)) = intervals (host w) ->
  timerTime (f (host w)) = timerTime (host w) ->
  now (f (host w)) = now (host w) ->
  sameSession w (mkWorld e (f (host w))).
Proof. unfold sameSession. cbn. intros. repeat split; assumption. Qed.

Lemma sameSession_slider f w :
  sameSession w (mkWorld (engine w) (set_frequencySlider f (host w))).
Proof. destruct w as [e h]; destruct h. unfold sameSession. cbn. repeat split. Qed.

Lemma sameSession_button b w :
  sameSession w (mkWorld (engine w) (set_therapyBtnPlaying b (host w))).
Proof. destruct w as [e h]; destruct h. unfold sameSession. cbn. repeat split. Qed.

Lemma sameSession_sound s w :
  sameSession w (mkWorld (set_currentSound s (engine w)) (host w)).
Proof. destruct w as [e h]; destruct e. unfold sameSession. cbn. repeat split. Qed.

Lemma sameSession_closed w :
  sameSession w (mkWorld (engine w) (set_ctxState closed (host w))).
Proof. destruct w as [e h]; destruct h. unfold sameSession. cbn. repeat split. Qed.

Lemma setFrequency_session f w :
  good w -> exists w', setFrequency f w = Ok tt w' /\ sameSession w w'.
Proof.
  intros G. destruct (setFrequency_more f w G) as (w' & E & He & Hh & _).
  exists w'. split; [exact E|].
  apply (paramsOnly_session w w' Hh); rewrite He; reflexivity.
Qed.

Lemma setVolume_session v w :
  good w -> exists w', setVolume v w = Ok tt w' /\ sameSession w w'.
Proof.
  intros G. destruct (setVolume_more v w G) as (w' & E & He & Hh & _).
  exists w'. split; [exact E|].
  apply (paramsOnly_session w w' Hh); rewrite He; reflexivity.
Qed.

Lemma playTestTone_session w :
  good w -> sameSession w (after (playTestTone w)).
Proof.
  intros G. destruct (audioContext (engine w)) as [u|] eqn:Hc.
  - destruct (isTestTonePlaying (engine w)) eqn:Hp.
    + rewrite (playTestTone_toggle w u Hc Hp).
      destruct (stopTestTone_more _ (good_resumed w G)) as (w' & -> & S & _).
      exact (sameSession_trans _ _ _ (sameSession_resumed w) S).
    + destruct (playTestTone_start w u G Hc Hp) as (w' & mg & -> & S & _).
      exact S.
  - rewrite (playTestTone_nocontext w Hc). apply sameSession_refl.
Qed.

Lemma startTherapy_session t b w :
  good w -> sessionInvariant w -> sessionInvariant (after (startTherapy t b w)).
Proof.
  intros G S.
  destruct (audioContext (engine w)) as [u|] eqn:Hc.
  - destruct (isTherapyPlaying (engine w)) eqn:Hp.
    + destruct b.
      * destruct (startTherapy_switch_more t w G Hp) as (w' & -> & S' & _).
        exact (sessionInvariant_same _ _ S' S).
      * rewrite (startTherapy_toggle t w u Hc Hp).
        destruct (stopTherapy_session _ (good_resumed w G)
                    (sessionInvariant_same _ _ (sameSession_resumed w) S))
          as (w' & -> & S' & _).
        exact S'.
    + destruct (startTherapy_start_more t b w u G S Hp Hc) as (w' & -> & S' & _).
      exact S'.
  - rewrite (startTherapy_nocontext t b w Hc). exact S.
Qed.

Lemma resumeContext_session w : sameSession w (after (resumeContext w)).
Proof.
  destruct (audioContext (engine w)) as [[]|] eqn:Hc.
  - rewrite (resumeContext_ok w tt Hc). apply sameSession_resumed.
  - unfold resumeContext, bind, this. rewrite Hc. apply sameSession_refl.
Qed.

Lemma destroy_exec w :
  good w -> sessionInvariant w ->
  exists w1 w2,
    stopTestTone w = Ok tt w1 /\ stopTherapy w1 = Ok tt w2 /\
    good w2 /\ sessionInvariant w2 /\
    destroy w =
    Ok tt (match audioContext (engine w2) with
           | Some _ => mkWorld (engine w2) (set_ctxState closed (host w2))
           | None => w2
           end).
Proof.
  intros G S.
  destruct (stopTestTone_more w G) as (w1 & E1 & S1 & _).
  destruct (stopTestTone_exec w G) as (w1' & E1' & G1).
  rewrite E1 in E1'. apply Ok_inj in E1'. subst w1'.
  destruct (stopTherapy_session w1 G1 (sessionInvariant_same _ _ S1 S))
    as (w2 & E2 & S2 & _).
  destruct (stopTherapy_exec w1 G1) as (w2' & E2' & G2 & _).
  rewrite E2 in E2'. apply Ok_inj in E2'. subst w2'.
  exists w1, w2.
  split; [exact E1|]. split; [exact E2|]. split; [exact G2|].
  split; [exact S2|].
  unfold destroy. rewrite (bind_Ok _ _ _ _ _ E1), (bind_Ok _ _ _ _ _ E2).
  unfold bind, this. destruct (audioContext (engine w2)); reflexivity.
Qed.

Lemma destroy_session w :
  good w -> sessionInvariant w -> sessionInvariant (after (destroy w)).
Proof.
  intros G S. destruct (destroy_exec w G S) as (w1 & w2 & _ & _ & _ & S2 & ->).
  destruct (audioContext (engine w2)); [|exact S2].
  exact (sessionInvariant_same _ _ (sameSession_closed w2) S2).
Qed.

Lemma selectSound_session s w :
  good w -> sessionInvariant w -> sessionInvariant (after (selectSound s w)).
Proof.
  intros G S. pose proof (good_sound s w G) as G1.
  pose proof (sessionInvariant_same _ _ (sameSession_sound s w) S) as S1.
  set (w1 := mkWorld (set_currentSound s (engine w)) (host w)) in *.
  assert (E : selectSound s w =
              (if isTherapyPlaying (engine w1)
               then detached (startTherapy s true) else ret tt) w1)
    by reflexivity.
  rewrite E. destruct (isTherapyPlaying (engine w1)) eqn:Hp; [|exact S1].
  destruct (startTherapy_switch_more s w1 G1 Hp) as (w2 & E2 & S2 & _).
  unfold detached. rewrite (try_run _ _ _ _ E2).
  exact (sessionInvariant_same _ _ S2 S1).
Qed.

Lemma toggleTherapy_session w :
  good w -> sessionInvariant w -> sessionInvariant (after (toggleTherapy w)).
Proof.
  intros G S.
  assert (E : toggleTherapy w =
              (if isTherapyPlaying (engine w)
               then stopTherapy ;; updateTherapyUI false
               else startTherapy (currentSound (engine w)) false ;;
                    updateTherapyUI true) w)
    by reflexivity.
  rewrite E. destruct (isTherapyPlaying (engine w)) eqn:Hp.
  - destruct (stopTherapy_session w G S) as (w1 & E1 & S1 & _).
    rewrite (bind_Ok _ _ _ _ _ E1), updateTherapyUI_exec.
    exact (sessionInvariant_same _ _ (sameSession_button _ w1) S1).
  - destruct (audioContext (engine w)) as [u|] eqn:Hc.
    + destruct (startTherapy_start_more (currentSound (engine w)) false w u
                  G S Hp Hc) as (w1 & E1 & S1 & _).
      rewrite (bind_Ok _ _ _ _ _ E1), updateTherapyUI_exec.
      exact (sessionInvariant_same _ _ (sameSession_button _ w1) S1).
    + rewrite (bind_run _ _ _ _ (startTherapy_nocontext _ _ w Hc)). exact S.
Qed.

Lemma initializeApp_session sup rate frame t0 slider :
  sessionInvariant (after (initializeApp (page sup rate frame t0 slider))).
Proof.
  destruct sup; unfold initializeApp, page; run;
    constructor; cbn; auto; try discriminate; try lia; congruence.
Qed.

Lemma perform_session o w :
  good w -> sessionInvariant w -> sessionInvariant (after (perform o w)).
Proof.
  intros G S. destruct o; cbn [perform].
  - destruct (setFrequency_session f w G) as (w' & -> & S').
    exact (sessionInvariant_same _ _ S' S).
  - destruct (setVolume_session v w G) as (w' & -> & S').
    exact (sessionInvariant_same _ _ S' S).
  - exact (sessionInvariant_same _ _ (playTestTone_session w G) S).
  - destruct (stopTestTone_more w G) as (w' & -> & S' & _).
    exact (sessionInvariant_same _ _ S' S).
  - apply startTherapy_session; assumption.
  - destruct (stopTherapy_session w G S) as (w' & -> & S' & _). exact S'.
  - unfold bind. rewrite getAnalyserData_eq. exact S.
  - apply destroy_session; assumption.
  - exact (sessionInvariant_same _ _ (resumeContext_session w) S).
  - apply selectSound_session; assumption.
  - apply toggleTherapy_session; assumption.
  - rewrite adjustFrequency_eq. cbv zeta.
    match goal with
    | |- context [setFrequency ?f ?w1] =>
        destruct (setFrequency_session f w1 (good_slider f w G)) as (w' & -> & S');
        exact (sessionInvariant_same _ _ S'
                 (sessionInvariant_same _ _ (sameSession_slider f w) S))
    end.
  - apply tick_session, S.
Qed.

Lemma reachable_session w : reachable w -> sessionInvariant w.
Proof.
  induction 1 as [sup rate frame t0 slider | w o R IH].
  - apply initializeApp_session.
  - apply perform_session; [apply reachable_good, R | exact IH].
Qed.

Lemma later_eq e h a b :
  a = b -> Ok tt (mkWorld e (set_now a h)) = Ok tt (mkWorld e (set_now b h)).
Proof. now intros ->. Qed.

Lemma ticks_idle n : forall w,
  intervals (host w) = [] ->
  ticks n w =
  Ok tt (mkWorld (engine w)
           (set_now (now (host w) + 1000 * Z.of_nat n) (host w))).
Proof.
  induction n as [|n IH]; intros w Hi.
  - destruct w as [e h]; destruct h. cbn. now rewrite Z.add_0_r.
  - cbn [ticks]. rewrite (bind_Ok _ _ _ _ _ (tick_idle w Hi)).
    rewrite IH by (destruct w as [e h]; destruct h; exact Hi).
    destruct w as [e h]; destruct h. cbn -[Z.of_nat Z.mul Z.add set_now].
    match goal with
    | |- Ok tt (mkWorld _ (set_now _ (set_now _ ?h))) = _ =>
        change (set_now ?a (set_now ?b h)) with (set_now a h)
    end.
    apply later_eq. cbn -[Z.of_nat Z.mul Z.add]. lia.
Qed.

Lemma ticks_live n : forall w id t0,
  intervals (host w) = [id] -> therapyStartTime (engine w) = Some t0 ->
  exists w',
    ticks (S n) w = Ok tt w' /\
    onlyClock w w' /\
    now (host w') = now (host w) + 1000 * Z.of_nat (S n) /\
    therapyDuration (engine w') =
      (now (host w) + 1000 * Z.of_nat (S n) - t0) / 1000 /\
    timerTime (host w') =
      (therapyDuration (engine w') / 60, Z.rem (therapyDuration (engine w')) 60).
Proof.
  induction n as [|n IH]; intros w id t0 Hi Hs.
  - pose proof (tick_live w id Hi) as E. cbv zeta in E. rewrite Hs in E.
    eexists. split; [cbn [ticks]; rewrite (bind_Ok _ _ _ _ _ E); reflexivity|].
    destruct w as [e h]; destruct e, h. cbn -[Z.of_nat Z.mul Z.add Z.div Z.rem].
    change (Z.of_nat 1) with 1. rewrite Z.mul_1_r.
    repeat split.
  - pose proof (tick_live w id Hi) as E. cbv zeta in E. rewrite Hs in E.
    match type of E with _ = Ok tt ?w1 =>
      destruct (IH w1 id t0) as (w' & E' & C & N & D & T)
    end.
    { destruct w as [e h]; destruct h. exact Hi. }
    { destruct w as [e h]; destruct e. exact Hs. }
    exists w'. split.
    { change (ticks (S (S n)) w) with (bind tick (fun _ => ticks (S n)) w).
      rewrite (bind_Ok _ _ _ _ _ E). exact E'. }
    split.
    { eapply onlyClock_trans; [|exact C].
      destruct w as [e h]; destruct e, h. split; reflexivity. }
    rewrite T, D, N.
    destruct w as [e h]; destruct h. cbn -[Z.of_nat Z.mul Z.add Z.div Z.rem].
    assert (X : now0 + 1000 + 1000 * Z.of_nat (S n)
                = now0 + 1000 * Z.of_nat (S (S n))) by lia.
    rewrite X. repeat split.
Qed.

Lemma knownSound_false s :
  knownSound s = false ->
  generatorFor s = WhiteNoise /\ durationFor s = 2.
Proof.
  unfold knownSound, generatorFor, durationFor. intros H.
  repeat (apply orb_false_iff in H; destruct H as [H ?]).
  repeat match goal with E : (_ =? _) = false |- _ => rewrite E; clear E end.
  split; reflexivity.
Qed.

(* ================================================================== *)
(** ** Further properties of the session controller *)
(* ================================================================== *)

(** X7: [setVolume(v)] returns normally and stores [v] as it is, without
    clamping it to [0, 1]; when the master gain exists it now holds [v],
    and without it (no audio support) no parameter is written.  The
    therapy flag is not touched. *)
Theorem setVolume_stores_input v w :
  reachable w ->
  exists w',
    setVolume v w = Ok tt w' /\
    currentVolume (engine w') = v /\
    (forall g, masterGain (engine w) = Some g ->
       latest g gain (params (host w')) = Some v) /\
    (masterGain (engine w) = None -> params (host w') = params (host w)) /\
    isTherapyPlaying (engine w') = isTherapyPlaying (engine w).
Proof.
  intros R. pose proof (reachable_good w R) as G.
  destruct (setVolume_more v w G) as (w' & E & He & _ & H1 & H2).
  exists w'. split; [exact E|]. rewrite He. repeat split; assumption.
Qed.

Lemma setVolume_stores_input_witness :
  exists w',
    setVolume 5 idle = Ok tt w' /\
    currentVolume (engine w') = 5%Q /\
    (forall g, masterGain (engine idle) = Some g ->
       latest g gain (params (host w')) = Some 5%Q) /\
    (masterGain (engine idle) = None -> params (host w') = params (host idle)) /\
    isTherapyPlaying (engine w') = isTherapyPlaying (engine idle).
Proof. apply (setVolume_stores_input 5 idle). apply reach_init. Defined.

(** X8: [setFrequency(f)] retunes what is sounding: while therapy is
    playing the notch filter's frequency now holds [f], while the test
    tone is playing the oscillator's does, and when neither is playing no
    parameter is written. *)
Theorem setFrequency_retunes f w :
  reachable w ->
  exists w',
    setFrequency f w = Ok tt w' /\
    (isTherapyPlaying (engine w) = true ->
     forall n, notchFilter (engine w) = Some n ->
       latest n frequency (params (host w')) = Some (inject_Z f)) /\
    (isTestTonePlaying (engine w) = true ->
     forall o, testOscillator (engine w) = Some o ->
       latest o frequency (params (host w')) = Some (inject_Z f)) /\
    (isTherapyPlaying (engine w) = false ->
     isTestTonePlaying (engine w) = false ->
     params (host w') = params (host w)).
Proof.
  intros R. pose proof (reachable_good w R) as G.
  destruct (setFrequency_more f w G) as (w' & E & _ & _ & H).
  exists w'. split; [exact E | exact H].
Qed.

Lemma setFrequency_retunes_witness :
  exists w',
    setFrequency 8000 withTone = Ok tt w' /\
    (isTherapyPlaying (engine withTone) = true ->
     forall n, notchFilter (engine withTone) = Some n ->
       latest n frequency (params (host w')) = Some (inject_Z 8000)) /\
    (isTestTonePlaying (engine withTone) = true ->
     forall o, testOscillator (engine withTone) = Some o ->
       latest o frequency (params (host w')) = Some (inject_Z 8000)) /\
    (isTherapyPlaying (engine withTone) = false ->
     isTestTonePlaying (engine withTone) = false ->
     params (host w') = params (host withTone)).
Proof.
  apply (setFrequency_retunes 8000 withTone).
  apply reach_step, reach_step, reach_init.
Defined.

(** X9: [playTestTone()] with the tone off and an audio context present
    returns normally with the tone on: a new oscillator tuned to
    [currentFrequency] and started, a new gain holding 0.3, connected
    oscillator -> gain -> master gain. *)
Theorem playTestTone_starts w :
  reachable w -> audioContext (engine w) <> None ->
  isTestTonePlaying (engine w) = false ->
  exists w' o g mg,
    playTestTone w = Ok tt w' /\
    isTestTonePlaying (engine w') = true /\
    testOscillator (engine w') = Some o /\ testGain (engine w') = Some g /\
    masterGain (engine w') = Some mg /\
    o = nextNode (host w) /\ g = S (nextNode (host w)) /\
    latest o frequency (params (host w'))
      = Some (inject_Z (currentFrequency (engine w))) /\
    latest g gain (params (host w')) = Some (3 # 10)%Q /\
    hasEdge o g (host w') /\ hasEdge g mg (host w') /\
    In o (started (host w')).
Proof.
  intros R Hc Hp. pose proof (reachable_good w R) as G.
  destruct (audioContext (engine w)) as [u|] eqn:Hu; [|congruence].
  destruct (playTestTone_start w u G Hu Hp)
    as (w' & mg & E & _ & _ & Hm & Ho & Hg & Hf & L1 & L2 & E1 & E2 & Hs).
  exists w', (nextNode (host w)), (S (nextNode (host w))), mg.
  repeat split; assumption.
Qed.

Lemma playTestTone_starts_witness :
  exists w' o g mg,
    playTestTone playingRain = Ok tt w' /\
    isTestTonePlaying (engine w') = true /\
    testOscillator (engine w') = Some o /\ testGain (engine w') = Some g /\
    masterGain (engine w') = Some mg /\
    o = nextNode (host playingRain) /\ g = S (nextNode (host playingRain)) /\
    latest o frequency (params (host w'))
      = Some (inject_Z (currentFrequency (engine playingRain))) /\
    latest g gain (params (host w')) = Some (3 # 10)%Q /\
    hasEdge o g (host w') /\ hasEdge g mg (host w') /\
    In o (started (host w')).
Proof.
  apply (playTestTone_starts playingRain).
  - apply reach_step, reach_init.
  - vm_compute. discriminate.
  - reflexivity.
Defined.

Lemma playTestTone_therapy w :
  good w -> sameTherapy w (after (playTestTone w)).
Proof.
  intros G. destruct (audioContext (engine w)) as [u|] eqn:Hc.
  - destruct (isTestTonePlaying (engine w)) eqn:Hp.
    + rewrite (playTestTone_toggle w u Hc Hp).
      destruct (stopTestTone_more _ (good_resumed w G)) as (w' & -> & _ & S & _).
      exact (sameTherapy_trans _ _ _ (sameTherapy_resumed w) S).
    + destruct (playTestTone_start w u G Hc Hp) as (w' & mg & -> & _ & S & _).
      exact S.
  - rewrite (playTestTone_nocontext w Hc). unfold sameTherapy. repeat split.
Qed.

(** X10: the test tone and therapy are independent.  [playTestTone()] and
    [stopTestTone()], however they end, leave the therapy handles and flag,
    the timer, the counter and the display as they were; [startTherapy]
    and [stopTherapy] leave the test-tone handles and flag as they were. *)
Theorem test_tone_independent_of_therapy w :
  reachable w ->
  sameTherapy w (after (playTestTone w)) /\
  sameSession w (after (playTestTone w)) /\
  sameTherapy w (after (stopTestTone w)) /\
  sameSession w (after (stopTestTone w)) /\
  (forall op, op = stopTherapy \/ (exists t b, op = startTherapy t b) ->
     testOscillator (engine (after (op w))) = testOscillator (engine w) /\
     testGain (engine (after (op w))) = testGain (engine w) /\
     isTestTonePlaying (engine (after (op w))) = isTestTonePlaying (engine w)).
Proof.
  intros R. pose proof (reachable_good w R) as G.
  pose proof (reachable_session w R) as S.
  split; [apply playTestTone_therapy, G|].
  split; [apply playTestTone_session, G|].
  destruct (stopTestTone_more w G) as (w1 & E1 & S1 & T1 & _).
  rewrite E1. split; [exact T1|]. split; [exact S1|].
  assert (Hstop : forall v, good v -> sessionInvariant v ->
            testOscillator (engine (after (stopTherapy v))) = testOscillator (engine v) /\
            testGain (engine (after (stopTherapy v))) = testGain (engine v) /\
            isTestTonePlaying (engine (after (stopTherapy v)))
              = isTestTonePlaying (engine v)).
  { intros v Gv Sv.
    destruct (stopTherapy_session v Gv Sv)
      as (w' & -> & _ & _ & _ & _ & _ & _ & _ & H1 & H2 & H3 & _).
    repeat split; assumption. }
  intros op [->|(t & b & ->)]; [apply Hstop; assumption|].
  destruct (audioContext (engine w)) as [u|] eqn:Hc.
  - destruct (isTherapyPlaying (engine w)) eqn:Hp.
    + destruct b.
      * destruct (startTherapy_switch_more t w G Hp)
          as (w' & -> & _ & _ & _ & _ & _ & _ & _ & _ & H1 & H2 & H3).
        repeat split; assumption.
      * rewrite (startTherapy_toggle t w u Hc Hp).
        apply (Hstop (resumed w) (good_resumed w G)
                 (sessionInvariant_same _ _ (sameSession_resumed w) S)).
    + destruct (startTherapy_start_more t b w u G S Hp Hc)
        as (w' & -> & _ & _ & _ & _ & _ & _ & _ & _ & _ & _ & _ & _ & _ & _
            & H1 & H2 & H3 & _).
      repeat split; assumption.
  - rewrite (startTherapy_nocontext t b w Hc). repeat split.
Qed.

Lemma test_tone_independent_of_therapy_witness :
  sameTherapy withTone (after (playTestTone withTone)) /\
  sameSession withTone (after (playTestTone withTone)) /\
  sameTherapy withTone (after (stopTestTone withTone)) /\
  sameSession withTone (after (stopTestTone withTone)) /\
  (forall op, op = stopTherapy \/ (exists t b, op = startTherapy t b) ->
     testOscillator (engine (after (op withTone))) = testOscillator (engine withTone) /\
     testGain (engine (after (op withTone))) = testGain (engine withTone) /\
     isTestTonePlaying (engine (after (op withTone)))
       = isTestTonePlaying (engine withTone)).
Proof.
  apply (test_tone_independent_of_therapy withTone).
  apply reach_step, reach_step, reach_init.
Defined.

(** X11: in every world the page can reach [stopTestTone()] returns
    normally with the tone off and both handles null; the oscillator it
    held has been stopped, neither node has a connection left, and a second
    call changes nothing.  With the tone on, [playTestTone()] does the
    same. *)
Theorem stopTestTone_releases w :
  reachable w ->
  exists w',
    stopTestTone w = Ok tt w' /\
    isTestTonePlaying (engine w') = false /\
    testOscillator (engine w') = None /\ testGain (engine w') = None /\
    (forall o, testOscillator (engine w) = Some o -> In o (stopped (host w'))) /\
    (forall m x,
       testOscillator (engine w) = Some m \/ testGain (engine w) = Some m ->
       ~ hasEdge m x (host w')) /\
    stopTestTone w' = Ok tt w' /\
    (audioContext (engine w) <> None -> isTestTonePlaying (engine w) = true ->
     exists w'', playTestTone w = Ok tt w'' /\
                 isTestTonePlaying (engine w'') = false /\
                 testOscillator (engine w'') = None /\
                 testGain (engine w'') = None).
Proof.
  intros R. pose proof (reachable_good w R) as G.
  destruct (stopTestTone_more w G)
    as (w' & E & _ & _ & H1 & H2 & H3 & _ & _ & _ & E2 & H4 & H5 & _).
  exists w'. repeat split; try assumption.
  intros Hc Hp. destruct (audioContext (engine w)) as [u|] eqn:Hu; [|congruence].
  rewrite (playTestTone_toggle w u Hu Hp).
  destruct (stopTestTone_more _ (good_resumed w G))
    as (w'' & E' & _ & _ & K1 & K2 & K3 & _).
  exists w''. repeat split; assumption.
Qed.

Lemma stopTestTone_releases_witness :
  exists w',
    stopTestTone withTone = Ok tt w' /\
    isTestTonePlaying (engine w') = false /\
    testOscillator (engine w') = None /\ testGain (engine w') = None /\
    (forall o, testOscillator (engine withTone) = Some o ->
       In o (stopped (host w'))) /\
    (forall m x,
       testOscillator (engine withTone) = Some m \/
       testGain (engine withTone) = Some m ->
       ~ hasEdge m x (host w')) /\
    stopTestTone w' = Ok tt w' /\
    (audioContext (engine withTone) <> None ->
     isTestTonePlaying (engine withTone) = true ->
     exists w'', playTestTone withTone = Ok tt w'' /\
                 isTestTonePlaying (engine w'') = false /\
                 testOscillator (engine w'') = None /\
                 testGain (engine w'') = None).
Proof.
  apply (stopTestTone_releases withTone).
  apply reach_step, reach_step, reach_init.
Defined.

(** X12: without an audio context (initialisation failed) nothing is
    playing; [startTherapy], [playTestTone] and [toggleTherapy] end in a
    TypeError and leave the state exactly as it was (they are not silent
    no-ops), while [stopTherapy], [stopTestTone], [setFrequency],
    [setVolume] and [getAnalyserData] return normally, the setters write no
    parameter and the snapshot is null. *)
Theorem no_audio_context w t b f v :
  reachable w -> audioContext (engine w) = None ->
  isTherapyPlaying (engine w) = false /\
  startTherapy t b w = Throw TypeError w /\
  playTestTone w = Throw TypeError w /\
  toggleTherapy w = Throw TypeError w /\
  stopTherapy w = Ok tt w /\
  (exists w', stopTestTone w = Ok tt w' /\ host w' = host w) /\
  setFrequency f w = Ok tt (mkWorld (set_currentFrequency f (engine w)) (host w)) /\
  setVolume v w = Ok tt (mkWorld (set_currentVolume v (engine w)) (host w)) /\
  getAnalyserData w = Ok None w.
Proof.
  intros R Hc. pose proof (reachable_good w R) as G.
  pose proof (reachable_session w R) as S. open_session S.
  split; [open_good G; try discriminate Hc; reflexivity|].
  split; [apply startTherapy_nocontext, Hc|].
  split; [apply playTestTone_nocontext, Hc|].
  open_good G; try discriminate Hc. session_facts.
  split; [unfold toggleTherapy; run; reflexivity|].
  split; [unfold stopTherapy; run; reflexivity|].
  split; [eexists; split; [unfold stopTestTone; run; reflexivity | reflexivity]|].
  split; [destruct isTestTonePlaying0; unfold setFrequency; run; reflexivity|].
  split; [unfold setVolume; run; reflexivity|].
  reflexivity.
Qed.

Lemma no_audio_context_witness :
  isTherapyPlaying (engine mute) = false /\
  startTherapy "rain" false mute = Throw TypeError mute /\
  playTestTone mute = Throw TypeError mute /\
  toggleTherapy mute = Throw TypeError mute /\
  stopTherapy mute = Ok tt mute /\
  (exists w', stopTestTone mute = Ok tt w' /\ host w' = host mute) /\
  setFrequency 8000 mute
    = Ok tt (mkWorld (set_currentFrequency 8000 (engine mute)) (host mute)) /\
  setVolume 1 mute
    = Ok tt (mkWorld (set_currentVolume 1 (engine mute)) (host mute)) /\
  getAnalyserData mute = Ok None mute.
Proof.
  apply (no_audio_context mute "rain" false 8000 1).
  - apply reach_init.
  - reflexivity.
Defined.

(** X13: what [initializeApp] leaves behind.  The engine starts idle with
    volume 0.5, sound "whitenoise" and the frequency the slider shows (not
    the constructor's 4000), and the auto-stop callback is registered.  On a
    browser with Web Audio the master gain holds 0.5 and is connected to the
    destination, the analyser has an FFT size of 2048 and is connected to
    the master gain, and no alert is shown.  Without Web Audio exactly one
    alert is shown, no node is created and context, master gain and
    analyser stay null. *)
Theorem initializeApp_outcome sup rate frame t0 slider :
  let w := after (initializeApp (page sup rate frame t0 slider)) in
  currentFrequency (engine w) = slider /\
  currentVolume (engine w) = (1 # 2)%Q /\
  currentSound (engine w) = "whitenoise" /\
  isTherapyPlaying (engine w) = false /\
  isTestTonePlaying (engine w) = false /\
  onAutoStop (engine w) = Some AutoStopHandler /\
  if sup then
    alerts (host w) = [] /\
    exists mg an,
      audioContext (engine w) = Some tt /\
      masterGain (engine w) = Some mg /\ analyser (engine w) = Some an /\
      mg <> an /\
      latest mg gain (params (host w)) = Some (1 # 2)%Q /\
      edges (host w) = [(an, mg); (mg, destination)] /\
      fftSize (host w) = 2048
  else
    alerts (host w) = [AudioInitFailed] /\
    audioContext (engine w) = None /\ masterGain (engine w) = None /\
    analyser (engine w) = None /\ edges (host w) = [] /\
    nextNode (host w) = 1%nat.
Proof.
  destruct sup; cbv zeta; unfold initializeApp, page; run; cbn.
  - repeat split. exists 1%nat, 2%nat. repeat split. discriminate.
  - repeat split.
Qed.

(** X14: a fresh start ([startTherapy] while therapy is stopped, with an
    audio context) returns normally with therapy playing on three new
    nodes: a source that has been started, a notch filter holding
    [currentFrequency] with Q 30, and a gain holding 0.7, connected
    source -> filter -> gain -> analyser.  Without [isSwitching] the timer
    starts at the current time; with it no timer is started.  The elapsed
    counter and the display are not reset by the start. *)
Theorem startTherapy_builds_graph t b w :
  reachable w -> isTherapyPlaying (engine w) = false ->
  audioContext (engine w) <> None ->
  exists w' s n g an,
    startTherapy t b w = Ok tt w' /\
    isTherapyPlaying (engine w') = true /\ currentSound (engine w') = t /\
    therapySource (engine w') = Some s /\ notchFilter (engine w') = Some n /\
    therapyGain (engine w') = Some g /\ analyser (engine w') = Some an /\
    s = nextNode (host w) /\ n = S s /\ g = S n /\
    In s (started (host w')) /\
    latest n frequency (params (host w'))
      = Some (inject_Z (currentFrequency (engine w))) /\
    latest n Qfactor (params (host w')) = Some (inject_Z 30) /\
    latest g gain (params (host w')) = Some (7 # 10)%Q /\
    hasEdge s n (host w') /\ hasEdge n g (host w') /\ hasEdge g an (host w') /\
    therapyDuration (engine w') = therapyDuration (engine w) /\
    timerTime (host w') = timerTime (host w) /\
    (b = false ->
       therapyStartTime (engine w') = Some (now (host w)) /\
       timerInterval (engine w') = Some (nextTimer (host w)) /\
       intervals (host w') = [nextTimer (host w)]) /\
    (b = true ->
       therapyStartTime (engine w') = therapyStartTime (engine w) /\
       timerInterval (engine w') = None /\ intervals (host w') = []).
Proof.
  intros R Hp Hc. pose proof (reachable_good w R) as G.
  pose proof (reachable_session w R) as SI.
  destruct (audioContext (engine w)) as [u|] eqn:Hu; [|congruence].
  destruct (startTherapy_start_more t b w u G SI Hp Hu)
    as (w' & E & _ & H1 & H2 & H3 & H4 & H5 & L1 & L2 & L3 & _ & H6 & H7 & H8
        & _ & _ & _ & _ & Hb0 & Hb1).
  pose proof (startTherapy_good t b w G) as [_ GI]. rewrite E in GI.
  cbn [after] in GI. unfold graphInvariant in GI. rewrite H4 in GI.
  destruct GI as (s & n & g & an & Es & En & Eg & Ea & X1 & X2 & X3).
  rewrite H1 in Es. rewrite H2 in En. rewrite H3 in Eg.
  injection Es as <-. injection En as <-. injection Eg as <-.
  exists w', (nextNode (host w)), (S (nextNode (host w))),
    (S (S (nextNode (host w)))), an.
  repeat split; try assumption; try (apply Hb0; assumption);
    apply Hb1; assumption.
Qed.

Lemma startTherapy_builds_graph_witness :
  exists w' s n g an,
    startTherapy "wave" false idle = Ok tt w' /\
    isTherapyPlaying (engine w') = true /\ currentSound (engine w') = "wave" /\
    therapySource (engine w') = Some s /\ notchFilter (engine w') = Some n /\
    therapyGain (engine w') = Some g /\ analyser (engine w') = Some an /\
    s = nextNode (host idle) /\ n = S s /\ g = S n /\
    In s (started (host w')) /\
    latest n frequency (params (host w'))
      = Some (inject_Z (currentFrequency (engine idle))) /\
    latest n Qfactor (params (host w')) = Some (inject_Z 30) /\
    latest g gain (params (host w')) = Some (7 # 10)%Q /\
    hasEdge s n (host w') /\ hasEdge n g (host w') /\ hasEdge g an (host w') /\
    therapyDuration (engine w') = therapyDuration (engine idle) /\
    timerTime (host w') = timerTime (host idle) /\
    (false = false ->
       therapyStartTime (engine w') = Some (now (host idle)) /\
       timerInterval (engine w') = Some (nextTimer (host idle)) /\
       intervals (host w') = [nextTimer (host idle)]) /\
    (false = true ->
       therapyStartTime (engine w') = therapyStartTime (engine idle) /\
       timerInterval (engine w') = None /\ intervals (host w') = []).
Proof.
  apply (startTherapy_builds_graph "wave" false idle).
  - apply reach_init.
  - reflexivity.
  - vm_compute. discriminate.
Defined.

(** X15: the buffer a started or switched source plays.  It has two
    channels and [sampleRate * duration] frames, the generator and the
    duration in seconds being white noise 2, rain 4, wave 6, forest 4,
    night 3, temple 4 by the sound's name; a name that is none of the six
    plays two seconds of white noise, and is still stored in
    [currentSound]. *)
Theorem startTherapy_buffer_by_name t b w :
  reachable w -> audioContext (engine w) <> None ->
  isTherapyPlaying (engine w) = false \/ b = true ->
  exists w' buffer,
    startTherapy t b w = Ok tt w' /\
    currentSound (engine w') = t /\
    therapySource (engine w') = Some (nextNode (host w)) /\
    bufferAt (nextNode (host w)) (bufferOf (host w')) = Some buffer /\
    numberOfChannels buffer = 2 /\
    bufferSize buffer = sampleRate (host w) * duration buffer /\
    (t = "whitenoise" -> generator buffer = WhiteNoise /\ duration buffer = 2) /\
    (t = "rain" -> generator buffer = Rain /\ duration buffer = 4) /\
    (t = "wave" -> generator buffer = Wave /\ duration buffer = 6) /\
    (t = "forest" -> generator buffer = Forest /\ duration buffer = 4) /\
    (t = "night" -> generator buffer = Night /\ duration buffer = 3) /\
    (t = "temple" -> generator buffer = Temple /\ duration buffer = 4) /\
    (knownSound t = false ->
       generator buffer = WhiteNoise /\ duration buffer = 2).
Proof.
  intros R Hc Hb. pose proof (reachable_good w R) as G.
  pose proof (reachable_session w R) as SI.
  destruct (audioContext (engine w)) as [u|] eqn:Hu; [|congruence].
  assert (X : exists w',
            startTherapy t b w = Ok tt w' /\ currentSound (engine w') = t /\
            therapySource (engine w') = Some (nextNode (host w)) /\
            bufferAt (nextNode (host w)) (bufferOf (host w'))
              = Some (mkBuffer (generatorFor t) (durationFor t) 2
                        (sampleRate (host w) * durationFor t))).
  { destruct (isTherapyPlaying (engine w)) eqn:Hp.
    - destruct Hb as [Hb| ->]; [discriminate|].
      destruct (startTherapy_switch_more t w G Hp)
        as (w' & E & _ & H1 & H2 & _ & _ & H3 & _).
      exists w'. repeat split; assumption.
    - destruct (startTherapy_start_more t b w u G SI Hp Hu)
        as (w' & E & _ & H1 & _ & _ & _ & H2 & _ & _ & _ & H3 & _).
      exists w'. repeat split; assumption. }
  destruct X as (w' & E & H1 & H2 & H3).
  exists w'. eexists. split; [exact E|]. split; [exact H1|].
  split; [exact H2|]. split; [exact H3|]. clear E H1 H2 H3. cbn.
  repeat split; intros; try (subst t; reflexivity);
    match goal with
    | H : knownSound _ = false |- _ =>
        destruct (knownSound_false _ H); assumption
    end.
Qed.

Lemma startTherapy_buffer_by_name_witness :
  exists w' buffer,
    startTherapy "birdsong" true playingRain = Ok tt w' /\
    currentSound (engine w') = "birdsong" /\
    therapySource (engine w') = Some (nextNode (host playingRain)) /\
    bufferAt (nextNode (host playingRain)) (bufferOf (host w')) = Some buffer /\
    numberOfChannels buffer = 2 /\
    bufferSize buffer = sampleRate (host playingRain) * duration buffer /\
    ("birdsong" = "whitenoise" ->
       generator buffer = WhiteNoise /\ duration buffer = 2) /\
    ("birdsong" = "rain" -> generator buffer = Rain /\ duration buffer = 4) /\
    ("birdsong" = "wave" -> generator buffer = Wave /\ duration buffer = 6) /\
    ("birdsong" = "forest" -> generator buffer = Forest /\ duration buffer = 4) /\
    ("birdsong" = "night" -> generator buffer = Night /\ duration buffer = 3) /\
    ("birdsong" = "temple" -> generator buffer = Temple /\ duration buffer = 4) /\
    (knownSound "birdsong" = false ->
       generator buffer = WhiteNoise /\ duration buffer = 2).
Proof.
  apply (startTherapy_buffer_by_name "birdsong" true playingRain).
  - apply reach_step, reach_init.
  - vm_compute. discriminate.
  - right. reflexivity.
Defined.

Lemma onlyClock_engine w w' :
  onlyClock w w' ->
  isTherapyPlaying (engine w') = isTherapyPlaying (engine w) /\
  currentSound (engine w') = currentSound (engine w) /\
  therapyStartTime (engine w') = therapyStartTime (engine w).
Proof. intros [-> _]. repeat split. Qed.

(** X16: the elapsed counter counts whole seconds since the start.  After a
    fresh non-switching start the counter still shows its previous value;
    from the first tick on, after [k] one-second ticks it is [k] and the
    display shows [k / 60] minutes and [k mod 60] seconds, therapy still
    playing. *)
Theorem elapsed_counter_counts_seconds t w n :
  reachable w -> isTherapyPlaying (engine w) = false ->
  audioContext (engine w) <> None ->
  exists w0 w',
    startTherapy t false w = Ok tt w0 /\
    therapyDuration (engine w0) = therapyDuration (engine w) /\
    ticks (S n) w0 = Ok tt w' /\
    therapyDuration (engine w') = Z.of_nat (S n) /\
    timerTime (host w') = (Z.of_nat (S n) / 60, Z.of_nat (S n) mod 60) /\
    isTherapyPlaying (engine w') = true.
Proof.
  intros R Hp Hc. pose proof (reachable_good w R) as G.
  pose proof (reachable_session w R) as SI.
  destruct (audioContext (engine w)) as [u|] eqn:Hu; [|congruence].
  destruct (startTherapy_start_more t false w u G SI Hp Hu)
    as (w0 & E & _ & _ & _ & _ & H4 & _ & _ & _ & _ & _ & _ & H6 & _ & H8
        & _ & _ & _ & Hb0 & _).
  destruct (Hb0 eq_refl) as (Hs & _ & Hi).
  destruct (ticks_live n w0 _ _ Hi Hs) as (w' & E' & C & _ & D & T).
  exists w0, w'. split; [exact E|]. split; [exact H6|]. split; [exact E'|].
  assert (X : therapyDuration (engine w') = Z.of_nat (S n)).
  { rewrite D, H8.
    replace (now (host w) + 1000 * Z.of_nat (S n) - now (host w))
      with (Z.of_nat (S n) * 1000) by lia.
    apply Z.div_mul. lia. }
  split; [exact X|]. split.
  - rewrite T, X. f_equal. apply Z.rem_mod_nonneg; lia.
  - destruct (onlyClock_engine _ _ C) as (-> & _). exact H4.
Qed.

Lemma elapsed_counter_counts_seconds_witness :
  exists w0 w',
    startTherapy "rain" false idle = Ok tt w0 /\
    therapyDuration (engine w0) = therapyDuration (engine idle) /\
    ticks 125 w0 = Ok tt w' /\
    therapyDuration (engine w') = 125 /\
    timerTime (host w') = (125 / 60, 125 mod 60) /\
    isTherapyPlaying (engine w') = true.
Proof.
  apply (elapsed_counter_counts_seconds "rain" idle 124).
  - apply reach_init.
  - reflexivity.
  - vm_compute. discriminate.
Defined.




(** X18: [stopTherapy()] clears the timer and releases the nodes: no
    interval timer is live afterwards, the source it held has been stopped,
    and source, filter and gain have no connection left.  The counter and
    the display keep their last value, and ticks that follow change
    neither. *)
Theorem stopTherapy_releases w n :
  reachable w ->
  exists w' w'',
    stopTherapy w = Ok tt w' /\
    timerInterval (engine w') = None /\ intervals (host w') = [] /\
    (forall s, therapySource (engine w) = Some s -> In s (stopped (host w'))) /\
    (forall m x,
       therapySource (engine w) = Some m \/ notchFilter (engine w) = Some m \/
       therapyGain (engine w) = Some m ->
       ~ hasEdge m x (host w')) /\
    therapyDuration (engine w') = therapyDuration (engine w) /\
    timerTime (host w') = timerTime (host w) /\
    ticks n w' = Ok tt w'' /\
    engine w'' = engine w' /\ timerTime (host w'') = timerTime (host w').
Proof.
  intros R. pose proof (reachable_good w R) as G.
  pose proof (reachable_session w R) as SI.
  destruct (stopTherapy_session w G SI)
    as (w' & E & _ & H1 & H2 & H3 & _ & H4 & _ & _ & _ & _ & _ & _ & H5 & H6 & _).
  exists w'. eexists. split; [exact E|].
  split; [exact H1|]. split; [exact H2|]. split; [exact H5|].
  split; [exact H6|]. split; [exact H3|]. split; [exact H4|].
  split; [apply (ticks_idle n w' H2)|].
  destruct w' as [e h]; destruct h. split; reflexivity.
Qed.

Lemma stopTherapy_releases_witness :
  exists w' w'',
    stopTherapy playingRain = Ok tt w' /\
    timerInterval (engine w') = None /\ intervals (host w') = [] /\
    (forall s, therapySource (engine playingRain) = Some s ->
       In s (stopped (host w'))) /\
    (forall m x,
       therapySource (engine playingRain) = Some m \/
       notchFilter (engine playingRain) = Some m \/
       therapyGain (engine playingRain) = Some m ->
       ~ hasEdge m x (host w')) /\
    therapyDuration (engine w') = therapyDuration (engine playingRain) /\
    timerTime (host w') = timerTime (host playingRain) /\
    ticks 3 w' = Ok tt w'' /\
    engine w'' = engine w' /\ timerTime (host w'') = timerTime (host w').
Proof.
  apply (stopTherapy_releases playingRain 3).
  apply reach_step, reach_init.
Defined.

(** X19: [destroy()] returns normally with everything released: neither
    therapy nor the test tone is playing, all five node handles are null,
    no interval timer is live, and the audio context, if there is one, is
    closed.  The [audioContext] field itself is left as it was. *)
Theorem destroy_releases_everything w :
  reachable w ->
  exists w',
    destroy w = Ok tt w' /\
    isTherapyPlaying (engine w') = false /\
    isTestTonePlaying (engine w') = false /\
    testOscillator (engine w') = None /\ testGain (engine w') = None /\
    therapySource (engine w') = None /\ notchFilter (engine w') = None /\
    therapyGain (engine w') = None /\
    timerInterval (engine w') = None /\ intervals (host w') = [] /\
    audioContext (engine w') = audioContext (engine w) /\
    (audioContext (engine w) <> None -> ctxState (host w') = closed) /\
    (audioContext (engine w) = None -> ctxState (host w') = ctxState (host w)).
Proof.
  intros R. pose proof (reachable_good w R) as G.
  pose proof (reachable_session w R) as SI.
  destruct (destroy_exec w G SI) as (w1 & w2 & E1 & E2 & G2 & S2 & E).
  destruct (stopTestTone_more w G)
    as (w1' & E1' & S1 & _ & A1 & A2 & A3 & A4 & _ & _ & _ & _ & _ & C1).
  rewrite E1 in E1'. apply Ok_inj in E1'. subst w1'.
  destruct (stopTestTone_exec w G) as (w1' & E1' & G1).
  rewrite E1 in E1'. apply Ok_inj in E1'. subst w1'.
  destruct (stopTherapy_session w1 G1 (sessionInvariant_same _ _ S1 SI))
    as (w2' & E2' & _ & B1 & B2 & _ & _ & _ & _ & B3 & B4 & B5 & _ & _ & _ & _ & C2).
  rewrite E2 in E2'. apply Ok_inj in E2'. subst w2'.
  destruct (stopTherapy_exec w1 G1) as (w2' & E2' & _ & He & _).
  rewrite E2 in E2'. apply Ok_inj in E2'. subst w2'.
  assert (Hctx : audioContext (engine w2) = audioContext (engine w))
    by (rewrite He; exact A4).
  eexists. split; [exact E|].
  assert (Hst : ctxState (host w2) = ctxState (host w)) by congruence.
  rewrite <- Hctx, <- Hst.
  destruct (audioContext (engine w2)) eqn:Hc2; cbn [engine host];
    rewrite ?He, ?A1, ?A2, ?A3 in *; rewrite ?B3, ?B4, ?B5, ?A1, ?A2, ?A3;
    repeat split; try assumption; try congruence;
    destruct w2 as [e2 h2]; destruct h2; cbn in *; try assumption; try reflexivity.
Qed.

Lemma destroy_releases_everything_witness :
  exists w',
    destroy withTone = Ok tt w' /\
    isTherapyPlaying (engine w') = false /\
    isTestTonePlaying (engine w') = false /\
    testOscillator (engine w') = None /\ testGain (engine w') = None /\
    therapySource (engine w') = None /\ notchFilter (engine w') = None /\
    therapyGain (engine w') = None /\
    timerInterval (engine w') = None /\ intervals (host w') = [] /\
    audioContext (engine w') = audioContext (engine withTone) /\
    (audioContext (engine withTone) <> None -> ctxState (host w') = closed) /\
    (audioContext (engine withTone) = None ->
       ctxState (host w') = ctxState (host withTone)).
Proof.
  apply (destroy_releases_everything withTone).
  apply reach_step, reach_step, reach_init.
Defined.

(** X20: [selectSound(s)] while therapy is stopped only records the choice
    in [currentSound]; while therapy is playing it does exactly what the
    switch [startTherapy(s, true)] does, and that leaves timer, counter,
    display and clock alone, stops the old source and cuts its
    connection. *)
Theorem selectSound_effect sound w :
  reachable w ->
  (isTherapyPlaying (engine w) = false ->
     selectSound sound w = Ok tt (mkWorld (set_currentSound sound (engine w)) (host w))) /\
  (isTherapyPlaying (engine w) = true ->
     exists w',
       selectSound sound w = Ok tt w' /\ startTherapy sound true w = Ok tt w' /\
       currentSound (engine w') = sound /\
       isTherapyPlaying (engine w') = true /\
       sameSession w w' /\
       (forall old, therapySource (engine w) = Some old ->
          In old (stopped (host w')) /\ forall x, ~ hasEdge old x (host w'))).
Proof.
  intros R. pose proof (reachable_good w R) as G. split.
  - intros Hp. unfold selectSound, bind, assign, this. cbn [engine].
    destruct w as [e h]; destruct e. cbn in *. subst. reflexivity.
  - intros Hp.
    destruct (startTherapy_switch_more sound w G Hp)
      as (w' & E & SS & H1 & _ & _ & _ & _ & H2 & _).
    exists w'. split; [| split; [exact E|]].
    + rewrite <- E. clear E SS H1 H2 w' R.
      open_good G; try discriminate Hp. started_facts.
      etransitivity;
        [ unfold selectSound, detached, startTherapy; rewrite bufferFor_eq;
          run; reflexivity
        | symmetry; unfold startTherapy; rewrite bufferFor_eq; run;
          reflexivity ].
    + split; [exact H1|]. split; [|split; [exact SS | exact H2]].
      destruct SS as (_ & _ & -> & _). exact Hp.
Qed.

Lemma selectSound_effect_witness :
  (isTherapyPlaying (engine playingRain) = false ->
     selectSound "forest" playingRain
     = Ok tt (mkWorld (set_currentSound "forest" (engine playingRain))
                (host playingRain))) /\
  (isTherapyPlaying (engine playingRain) = true ->
     exists w',
       selectSound "forest" playingRain = Ok tt w' /\
       startTherapy "forest" true playingRain = Ok tt w' /\
       currentSound (engine w') = "forest" /\
       isTherapyPlaying (engine w') = true /\
       sameSession playingRain w' /\
       (forall old, therapySource (engine playingRain) = Some old ->
          In old (stopped (host w')) /\ forall x, ~ hasEdge old x (host w'))).
Proof.
  apply (selectSound_effect "forest" playingRain).
  apply reach_step, reach_init.
Defined.

Lemma toggle_once w u :
  good w -> sessionInvariant w -> audioContext (engine w) = Some u ->
  exists w',
    toggleTherapy w = Ok tt w' /\
    isTherapyPlaying (engine w') = negb (isTherapyPlaying (engine w)) /\
    therapyBtnPlaying (host w') = isTherapyPlaying (engine w') /\
    currentSound (engine w') = currentSound (engine w) /\
    audioContext (engine w') = Some u /\
    good w' /\ sessionInvariant w'.
Proof.
  intros G SI Hc.
  pose proof (toggleTherapy_good w G) as G'.
  pose proof (toggleTherapy_session w G SI) as S'.
  assert (E : toggleTherapy w =
              (if isTherapyPlaying (engine w)
               then stopTherapy ;; updateTherapyUI false
               else startTherapy (currentSound (engine w)) false ;;
                    updateTherapyUI true) w)
    by reflexivity.
  rewrite E in *. destruct (isTherapyPlaying (engine w)) eqn:Hp.
  - destruct (stopTherapy_exec w G) as (w1 & E1 & _ & He & _).
    rewrite (bind_Ok _ _ _ _ _ E1), updateTherapyUI_exec in *.
    eexists. split; [reflexivity|]. cbn [engine host after] in *.
    split; [|split; [|split; [|split; [|split; [exact G' | exact S']]]]];
      clear G' S'; rewrite He; destruct w1 as [e1 h1]; destruct h1;
      destruct w as [e h]; destruct e; cbn in *; congruence.
  - destruct (startTherapy_start_more (currentSound (engine w)) false w u
                G SI Hp Hc) as (w1 & E1 & _ & _ & _ & _ & H4 & H5 & _).
    pose proof (startTherapy_good (currentSound (engine w)) false w G) as G1.
    rewrite E1 in G1. cbn [after] in G1.
    pose proof (good_playing_context w1 G1 H4) as Hc1.
    rewrite (bind_Ok _ _ _ _ _ E1), updateTherapyUI_exec in *.
    eexists. split; [reflexivity|]. cbn [engine host after] in *.
    split; [|split; [|split; [|split; [|split; [exact G' | exact S']]]]];
      clear G' S'; destruct u; destruct w1 as [e1 h1]; destruct h1;
      cbn in *; congruence.
Qed.

(** X21: with an audio context, [toggleTherapy()] returns normally, flips
    [isTherapyPlaying], leaves the therapy button showing the new state and
    keeps [currentSound]; a second call flips the flag back. *)
Theorem toggleTherapy_flips w :
  reachable w -> audioContext (engine w) <> None ->
  exists w' w'',
    toggleTherapy w = Ok tt w' /\
    isTherapyPlaying (engine w') = negb (isTherapyPlaying (engine w)) /\
    therapyBtnPlaying (host w') = isTherapyPlaying (engine w') /\
    currentSound (engine w') = currentSound (engine w) /\
    toggleTherapy w' = Ok tt w'' /\
    isTherapyPlaying (engine w'') = isTherapyPlaying (engine w) /\
    therapyBtnPlaying (host w'') = isTherapyPlaying (engine w'').
Proof.
  intros R Hc. pose proof (reachable_good w R) as G.
  pose proof (reachable_session w R) as SI.
  destruct (audioContext (engine w)) as [u|] eqn:Hu; [|congruence].
  destruct (toggle_once w u G SI Hu) as (w' & E & H1 & H2 & H3 & H4 & G' & S').
  destruct (toggle_once w' u G' S' H4) as (w'' & E' & K1 & K2 & _).
  exists w', w''. repeat split; try assumption.
  rewrite K1, H1. apply negb_involutive.
Qed.

Lemma toggleTherapy_flips_witness :
  exists w' w'',
    toggleTherapy idle = Ok tt w' /\
    isTherapyPlaying (engine w') = negb (isTherapyPlaying (engine idle)) /\
    therapyBtnPlaying (host w') = isTherapyPlaying (engine w') /\
    currentSound (engine w') = currentSound (engine idle) /\
    toggleTherapy w' = Ok tt w'' /\
    isTherapyPlaying (engine w'') = isTherapyPlaying (engine idle) /\
    therapyBtnPlaying (host w'') = isTherapyPlaying (engine w'').
Proof.
  apply (toggleTherapy_flips idle).
  - apply reach_init.
  - vm_compute. discriminate.
Defined.

Lemma adjust_once d w :
  good w ->
  exists w',
    adjustFrequency d w = Ok tt w' /\
    currentFrequency (engine w')
      = Z.max 250 (Z.min 16000 (frequencySlider (host w) + d)) /\
    frequencySlider (host w') = currentFrequency (engine w').
Proof.
  intros G. rewrite adjustFrequency_eq. cbv zeta.
  match goal with
  | |- context [setFrequency ?f ?w1] =>
      destruct (setFrequency_more f w1 (good_slider f w G))
        as (w' & E & He & Hh & _)
  end.
  exists w'. split; [exact E|]. rewrite He, Hh.
  destruct w as [e h]; destruct e, h. split; reflexivity.
Qed.

(** X22: [adjustFrequency(d)] returns normally and moves slider and engine
    together to the slider's value plus [d], clamped to [250, 16000]; within
    the range it adds exactly [d], so two steps that stay in range amount
    to one step by their sum. *)
Theorem adjustFrequency_steps a b w :
  reachable w ->
  exists w1 w2,
    adjustFrequency a w = Ok tt w1 /\
    currentFrequency (engine w1)
      = Z.max 250 (Z.min 16000 (frequencySlider (host w) + a)) /\
    frequencySlider (host w1) = currentFrequency (engine w1) /\
    (250 <= frequencySlider (host w) + a <= 16000 ->
       currentFrequency (engine w1) = frequencySlider (host w) + a) /\
    adjustFrequency b w1 = Ok tt w2 /\
    frequencySlider (host w2) = currentFrequency (engine w2) /\
    (250 <= frequencySlider (host w) + a <= 16000 ->
       currentFrequency (engine w2)
         = Z.max 250 (Z.min 16000 (frequencySlider (host w) + (a + b)))).
Proof.
  intros R. pose proof (reachable_good w R) as G.
  destruct (adjust_once a w G) as (w1 & E1 & F1 & L1).
  assert (G1 : good w1).
  { pose proof (perform_good (AdjustFrequency a) w G) as X.
    cbn [perform] in X. rewrite E1 in X. exact X. }
  destruct (adjust_once b w1 G1) as (w2 & E2 & F2 & L2).
  exists w1, w2. repeat split; try assumption.
  - rewrite F1. lia.
  - intros Hr. rewrite F2, L1, F1. lia.
Qed.

Lemma adjustFrequency_steps_witness :
  exists w1 w2,
    adjustFrequency 100 idle = Ok tt w1 /\
    currentFrequency (engine w1)
      = Z.max 250 (Z.min 16000 (frequencySlider (host idle) + 100)) /\
    frequencySlider (host w1) = currentFrequency (engine w1) /\
    (250 <= frequencySlider (host idle) + 100 <= 16000 ->
       currentFrequency (engine w1) = frequencySlider (host idle) + 100) /\
    adjustFrequency 20000 w1 = Ok tt w2 /\
    frequencySlider (host w2) = currentFrequency (engine w2) /\
    (250 <= frequencySlider (host idle) + 100 <= 16000 ->
       currentFrequency (engine w2)
         = Z.max 250 (Z.min 16000 (frequencySlider (host idle) + (100 + 20000)))).
Proof.
  apply (adjustFrequency_steps 100 20000 idle). apply reach_init.
Defined.

End EngineFacts.


(* ================================================================== *)
(** ** More about the synthesis loops *)
(* ================================================================== *)

Section SynthMore.

Import Synth.
Local Open Scope R_scope.

Variable rnd : nat -> R.

(** *** Channels and lengths *)

Lemma twoChannels_fst (chan : Rand (list R)) k :
  fst (twoChannels chan k) = (fst (chan k), fst (chan (snd (chan k)))).
Proof.
  unfold twoChannels, rbind, rret.
  destruct (chan k) as [c0 k0]. simpl.
  destruct (chan k0) as [c1 k1]. reflexivity.
Qed.

Lemma whiteLoop_S n k :
  whiteLoop rnd (S n) k =
  ((rnd k * 2 - 1) :: fst (whiteLoop rnd n (S k)), snd (whiteLoop rnd n (S k))).
Proof.
  simpl. unfold rbind, random, rret.
  destruct (whiteLoop rnd n (S k)) as [rest k']. reflexivity.
Qed.


Lemma whiteLoop_length n : forall k, List.length (fst (whiteLoop rnd n k)) = n.
Proof.
  induction n as [|n IH]; intros k; [reflexivity|].
  rewrite whiteLoop_S. simpl. now rewrite IH.
Qed.


Lemma waveLoop_length N n : forall i x k,
  List.length (fst (waveLoop rnd N n i x k)) = n.
Proof.
  induction n as [|n IH]; intros i x k; [reflexivity|].
  rewrite waveLoop_S. cbv zeta. simpl. now rewrite IH.
Qed.

Lemma rainLoop_length n : forall x k, List.length (fst (rainLoop rnd n x k)) = n.
Proof.
  induction n as [|n IH]; intros x k; [reflexivity|].
  rewrite rainLoop_S. cbv zeta. simpl. now rewrite IH.
Qed.

Lemma forestLoop_length N n : forall i p k,
  List.length (fst (forestLoop rnd N n i p k)) = n.
Proof.
  induction n as [|n IH]; intros i p k; [reflexivity|].
  rewrite forestLoop_S. simpl. now rewrite IH.
Qed.

(** *** Night and Temple *)

Lemma nightLoop_S sr n i p k :
  nightLoop rnd sr (S n) i p k =
  let white := rnd k * 2 - 1 in
  let rest := nightLoop rnd sr n (S i) (fst (pinkStep p white)) (S (S k)) in
  ((snd (pinkStep p white) * 0.4
    + (rnd (S k) * 2 - 1) * chirpEnv sr i * 0.15) :: fst rest, snd rest).
Proof.
  simpl. unfold rbind, random, rret, chirpEnv.
  destruct (nightLoop rnd sr n (S i) _ (S (S k))) as [rest k']. reflexivity.
Qed.

Lemma nightLoop_cursor sr n : forall i p k,
  snd (nightLoop rnd sr n i p k) = (k + 2 * n)%nat.
Proof.
  induction n as [|n IH]; intros i p k.
  - simpl. unfold rret. simpl. lia.
  - rewrite nightLoop_S. cbv zeta. cbn [snd]. rewrite IH. lia.
Qed.

Lemma nightLoop_length sr n : forall i p k,
  List.length (fst (nightLoop rnd sr n i p k)) = n.
Proof.
  induction n as [|n IH]; intros i p k; [reflexivity|].
  rewrite nightLoop_S. cbv zeta. cbn [fst List.length]. now rewrite IH.
Qed.

Lemma nightLoop_nth sr n : forall i p k j, (j < n)%nat ->
  nth j (fst (nightLoop rnd sr n i p k)) 0 =
  pinkOutFrom p (fun m => rnd (k + 2 * m)%nat * 2 - 1) j * 0.4
  + (rnd (k + 2 * j + 1)%nat * 2 - 1) * chirpEnv sr (i + j) * 0.15.
Proof.
  induction n as [|n IH]; intros i p k j Hj; [lia|].
  rewrite nightLoop_S. cbv zeta. cbn [fst].
  destruct j as [|j].
  - cbn [nth]. unfold pinkOutFrom. cbn [pinkStateFrom].
    replace (k + 2 * 0)%nat with k by lia.
    replace (k + 1)%nat with (S k) by lia.
    now rewrite Nat.add_0_r.
  - cbn [nth]. rewrite IH by lia.
    unfold pinkOutFrom. rewrite pinkStateFrom_shift.
    replace (k + 2 * 0)%nat with k by lia.
    replace (i + S j)%nat with (S i + j)%nat by lia.
    replace (S (S k) + 2 * j + 1)%nat with (k + 2 * S j + 1)%nat by lia.
    replace (S (S k) + 2 * j)%nat with (k + 2 * S j)%nat by lia.
    f_equal. f_equal. f_equal. f_equal.
    apply pinkStateFrom_ext. intros m. f_equal. f_equal. f_equal. lia.
Qed.

Lemma templeLoop_S sr n i p k :
  templeLoop rnd sr (S n) i p k =
  let white := rnd k * 2 - 1 in
  let rest := templeLoop rnd sr n (S i) (fst (pinkStep p white)) (S k) in
  ((snd (pinkStep p white) + resonance sr i) :: fst rest, snd rest).
Proof.
  simpl. unfold rbind, random, rret, resonance.
  destruct (templeLoop rnd sr n (S i) _ (S k)) as [rest k']. reflexivity.
Qed.

Lemma templeLoop_cursor sr n : forall i p k,
  snd (templeLoop rnd sr n i p k) = (k + n)%nat.
Proof.
  induction n as [|n IH]; intros i p k.
  - simpl. unfold rret. simpl. lia.
  - rewrite templeLoop_S. cbv zeta. cbn [snd]. rewrite IH. lia.
Qed.

Lemma templeLoop_length sr n : forall i p k,
  List.length (fst (templeLoop rnd sr n i p k)) = n.
Proof.
  induction n as [|n IH]; intros i p k; [reflexivity|].
  rewrite templeLoop_S. cbv zeta. cbn [fst List.length]. now rewrite IH.
Qed.

Lemma templeLoop_nth sr n : forall i p k j, (j < n)%nat ->
  nth j (fst (templeLoop rnd sr n i p k)) 0 =
  pinkOutFrom p (fun m => rnd (k + m)%nat * 2 - 1) j + resonance sr (i + j).
Proof.
  induction n as [|n IH]; intros i p k j Hj; [lia|].
  rewrite templeLoop_S. cbv zeta. cbn [fst].
  destruct j as [|j].
  - cbn [nth]. unfold pinkOutFrom. cbn [pinkStateFrom].
    now rewrite !Nat.add_0_r.
  - cbn [nth]. rewrite IH by lia.
    unfold pinkOutFrom. rewrite pinkStateFrom_shift.
    rewrite Nat.add_0_r.
    replace (i + S j)%nat with (S i + j)%nat by lia.
    replace (k + S j)%nat with (S k + j)%nat by lia.
    f_equal. f_equal. f_equal.
    apply pinkStateFrom_ext. intros m. now rewrite Nat.add_succ_r.
Qed.

(** *** Bounds *)

Lemma brownFrom_bound x0 w i :
  -10 <= x0 <= 10 -> (forall j, -1 <= w j <= 1) ->
  -10 <= brownFrom x0 w i <= 10.
Proof.
  intros Hx Hw. induction i as [|i IH]; simpl.
  - pose proof (Hw O). split.
    + apply Rmult_le_reg_r with 1.002; [lra|]. unfold Rdiv.
      rewrite Rmult_assoc, Rinv_l by lra. lra.
    + apply Rmult_le_reg_r with 1.002; [lra|]. unfold Rdiv.
      rewrite Rmult_assoc, Rinv_l by lra. lra.
  - pose proof (Hw (S i)). split.
    + apply Rmult_le_reg_r with 1.002; [lra|]. unfold Rdiv.
      rewrite Rmult_assoc, Rinv_l by lra. lra.
    + apply Rmult_le_reg_r with 1.002; [lra|]. unfold Rdiv.
      rewrite Rmult_assoc, Rinv_l by lra. lra.
Qed.

Lemma pinkStep_bounded p x :
  pinkBounded p -> -1 <= x <= 1 ->
  pinkBounded (fst (pinkStep p x)) /\ -7.61 <= snd (pinkStep p x) <= 7.61.
Proof.
  unfold pinkBounded, pinkStep. destruct p as [a0 a1 a2 a3 a4 a5 a6].
  cbn [b0 b1 b2 b3 b4 b5 b6 fst snd].
  intros (H0 & H1 & H2 & H3 & H4 & H5 & H6) Hx.
  repeat split; lra.
Qed.

Lemma pink0_bounded : pinkBounded pink0.
Proof. unfold pinkBounded, pink0. cbn. repeat split; lra. Qed.

Lemma pinkStateFrom_bounded p w i :
  pinkBounded p -> (forall j, -1 <= w j <= 1) ->
  pinkBounded (pinkStateFrom p w i).
Proof.
  intros Hp Hw. induction i as [|i IH]; [exact Hp|].
  simpl. apply pinkStep_bounded; [exact IH | apply Hw].
Qed.

Lemma pinkOutFrom_bound p w i :
  pinkBounded p -> (forall j, -1 <= w j <= 1) ->
  -7.61 <= pinkOutFrom p w i <= 7.61.
Proof.
  intros Hp Hw. unfold pinkOutFrom.
  apply pinkStep_bounded; [apply pinkStateFrom_bounded; assumption | apply Hw].
Qed.

Lemma white_closed u : 0 <= u < 1 -> -1 <= u * 2 - 1 <= 1.
Proof. intros [H0 H1]. split; lra. Qed.

Lemma lfo_range x : 0 <= 0.5 + 0.5 * sin x <= 1.
Proof. pose proof (SIN_bound x) as [Hl Hu]. split; lra. Qed.

Lemma chirpEnv_range sr i : 0 <= chirpEnv sr i <= 1.
Proof.
  unfold chirpEnv.
  pose proof (lfo_range ((INR i / sr) * PI * 10)) as [Hl Hu]. split.
  - apply pow_le. exact Hl.
  - rewrite <- (pow1 20). apply pow_incr. split; assumption.
Qed.

Lemma resonance_range sr i : -0.015 <= resonance sr i <= 0.015.
Proof.
  unfold resonance.
  pose proof (SIN_bound ((INR i / sr) * PI * 2 * 380)) as [Hl Hu]. split; lra.
Qed.

Lemma scaled_bound a b x y :
  0 <= b -> -b <= x <= b -> 0 <= y <= 1 -> -b <= x * y <= b /\ -a - b <= x * y - a.
Proof. intros Hb Hx Hy. split; [split; nra | nra]. Qed.

Lemma rainSpike_range k i :
  (forall j, 0 <= rnd j < 1) -> -0.5 <= rainSpike rnd k i <= 0.5.
Proof.
  intros Hrnd. unfold rainSpike. cbv zeta.
  destruct (Rgt_dec _ 0.9995).
  - pose proof (Hrnd (S (S (rainCursor rnd k i)))). split; lra.
  - split; lra.
Qed.


(** *** What the generated buffers are *)

(** X1: every generator fills both channels with exactly
    [sampleRate * duration] samples. *)
Theorem generated_buffer_lengths sampleRate duration k :
  let N := (sampleRate * duration)%nat in
  let lengths (b : list R * list R * nat) :=
    (List.length (fst (fst b)), List.length (snd (fst b))) in
  lengths (createWhiteNoiseBuffer rnd sampleRate duration k) = (N, N) /\
  lengths (createRainBuffer rnd sampleRate duration k) = (N, N) /\
  lengths (createWaveBuffer rnd sampleRate duration k) = (N, N) /\
  lengths (createForestBuffer rnd sampleRate duration k) = (N, N) /\
  lengths (createNightBuffer rnd sampleRate duration k) = (N, N) /\
  lengths (createTempleBuffer rnd sampleRate duration k) = (N, N).
Proof.
  intros N lengths. unfold lengths.
  unfold createWhiteNoiseBuffer, createRainBuffer, createWaveBuffer,
    createForestBuffer, createNightBuffer, createTempleBuffer.
  cbv zeta. fold N. rewrite !twoChannels_fst. cbn [fst snd].
  rewrite !whiteLoop_length, !rainLoop_length, !waveLoop_length,
    !forestLoop_length, !nightLoop_length, !templeLoop_length.
  repeat split.
Qed.


(** X3: with draws from [0,1) the brown base never leaves [-10, 10], so
    every Wave sample lies in [-40, 40] and every Rain sample, spike
    included, in [-20.5, 20.5]: no sample is clamped to [-1, 1], but none
    grows without bound either. *)
Theorem brown_textures_bounded sampleRate duration k i :
  let N := (sampleRate * duration)%nat in
  (forall j, 0 <= rnd j < 1) -> (i < N)%nat ->
  let wave := fst (createWaveBuffer rnd sampleRate duration k) in
  let rain := fst (createRainBuffer rnd sampleRate duration k) in
  (forall w, (forall j, -1 <= w j <= 1) -> -10 <= brown w i <= 10) /\
  -40 <= nth i (fst wave) 0 <= 40 /\ -40 <= nth i (snd wave) 0 <= 40 /\
  -20.5 <= nth i (fst rain) 0 <= 20.5 /\ -20.5 <= nth i (snd rain) 0 <= 20.5.
Proof.
  intros N Hrnd Hi. cbv zeta.
  assert (B : forall w, (forall j, -1 <= w j <= 1) ->
                        -10 <= brownFrom 0 w i <= 10)
    by (intros w Hw; apply brownFrom_bound; [lra | exact Hw]).
  split; [intros w Hw; rewrite brown_brownFrom; apply B, Hw|].
  rewrite createWaveBuffer_channels, createRainBuffer_channels.
  cbv zeta. fold N. cbn [fst snd].
  rewrite !waveLoop_nth, !rainLoop_nth by exact Hi.
  assert (W : forall c, -40 <=
     brownFrom 0 (fun m => rnd (c + m)%nat * 2 - 1) i * 4 *
     (0.5 + 0.5 * sin (INR (0 + i) / INR N * PI * 2)) <= 40).
  { intros c.
    pose proof (B (fun m => rnd (c + m)%nat * 2 - 1)
                  (fun j => white_closed _ (Hrnd _))) as Hb.
    pose proof (lfo_range (INR (0 + i) / INR N * PI * 2)) as Hl.
    split; nra. }
  assert (Rn : forall c, -20.5 <=
     brownFrom 0 (rainWhite rnd c) i * 2 + rainSpike rnd c i <= 20.5).
  { intros c.
    pose proof (B (rainWhite rnd c) (fun j => white_closed _ (Hrnd _))) as Hb.
    pose proof (rainSpike_range c i Hrnd) as Hs.
    split; lra. }
  repeat split; try apply W; apply Rn.
Qed.

(** X4: with draws from [0,1) the pink value never leaves [-7.61, 7.61],
    and neither does a Forest sample, whose envelope is at most 1. *)
Theorem forest_samples_bounded sampleRate duration k i :
  let N := (sampleRate * duration)%nat in
  (forall j, 0 <= rnd j < 1) -> (i < N)%nat ->
  let forest := fst (createForestBuffer rnd sampleRate duration k) in
  (forall w, (forall j, -1 <= w j <= 1) -> -7.61 <= pinkOut w i <= 7.61) /\
  -7.61 <= nth i (fst forest) 0 <= 7.61 /\
  -7.61 <= nth i (snd forest) 0 <= 7.61.
Proof.
  intros N Hrnd Hi. cbv zeta.
  split; [intros w Hw; apply pinkOutFrom_bound; [apply pink0_bounded | exact Hw]|].
  rewrite createForestBuffer_channels. cbv zeta. fold N. cbn [fst snd].
  rewrite !forestLoop_nth by exact Hi.
  assert (F : forall c, -7.61 <=
     pinkOutFrom pink0 (fun m => rnd (c + m)%nat * 2 - 1) i * wind (0 + i) N
     <= 7.61).
  { intros c.
    pose proof (pinkOutFrom_bound pink0 (fun m => rnd (c + m)%nat * 2 - 1) i
                  pink0_bounded (fun j => white_closed _ (Hrnd _))) as Hb.
    pose proof (wind_bounds (0 + i) N) as Hw.
    split; nra. }
  split; apply F.
Qed.

(** X5: a Temple sample is the pink value plus the 380 Hz sine at amplitude
    0.015, the phase taken from the sample index and the sample rate; with
    draws from [0,1) it lies in [-7.625, 7.625]. *)
Theorem temple_samples sampleRate duration k i :
  let N := (sampleRate * duration)%nat in
  (forall j, 0 <= rnd j < 1) -> (i < N)%nat ->
  let w0 := fun j => rnd (k + j)%nat * 2 - 1 in
  let w1 := fun j => rnd (k + N + j)%nat * 2 - 1 in
  let hum := sin (2 * PI * 380 * (INR i / INR sampleRate)) * 0.015 in
  let temple := fst (createTempleBuffer rnd sampleRate duration k) in
  nth i (fst temple) 0 = pinkOut w0 i + hum /\
  nth i (snd temple) 0 = pinkOut w1 i + hum /\
  -0.015 <= hum <= 0.015 /\
  -7.625 <= nth i (fst temple) 0 <= 7.625 /\
  -7.625 <= nth i (snd temple) 0 <= 7.625.
Proof.
  intros N Hrnd Hi. cbv zeta. unfold createTempleBuffer. cbv zeta. fold N.
  rewrite twoChannels_fst. cbn [fst snd]. rewrite templeLoop_cursor.
  rewrite !templeLoop_nth by exact Hi. rewrite !Nat.add_0_l.
  assert (E : resonance (INR sampleRate) i =
              sin (2 * PI * 380 * (INR i / INR sampleRate)) * 0.015)
    by (unfold resonance; f_equal; f_equal; lra).
  pose proof (resonance_range (INR sampleRate) i) as Hr. rewrite E in *.
  pose proof (pinkOutFrom_bound pink0 (fun m => rnd (k + m)%nat * 2 - 1) i
                pink0_bounded (fun j => white_closed _ (Hrnd _))) as H0.
  pose proof (pinkOutFrom_bound pink0 (fun m => rnd (k + N + m)%nat * 2 - 1) i
                pink0_bounded (fun j => white_closed _ (Hrnd _))) as H1.
  unfold pinkOut. repeat split; try reflexivity; lra.
Qed.

(** X6: a Night sample is 0.4 times the pink value plus a chirp: a second
    draw of the same iteration, scaled to [-1,1), times the envelope
    [(0.5 + 0.5 sin(10 pi i / sampleRate))^20], which lies in [0, 1], times
    0.15.  The pink filter sees every other draw.  With draws from [0,1)
    the chirp lies in [-0.15, 0.15] and the sample in [-3.194, 3.194]. *)
Theorem night_samples sampleRate duration k i :
  let N := (sampleRate * duration)%nat in
  (forall j, 0 <= rnd j < 1) -> (i < N)%nat ->
  let w0 := fun j => rnd (k + 2 * j)%nat * 2 - 1 in
  let w1 := fun j => rnd (k + 2 * N + 2 * j)%nat * 2 - 1 in
  let env := (0.5 + 0.5 * sin ((INR i / INR sampleRate) * PI * 10)) ^ 20 in
  let chirp0 := (rnd (k + 2 * i + 1)%nat * 2 - 1) * env * 0.15 in
  let chirp1 := (rnd (k + 2 * N + 2 * i + 1)%nat * 2 - 1) * env * 0.15 in
  let night := fst (createNightBuffer rnd sampleRate duration k) in
  nth i (fst night) 0 = pinkOut w0 i * 0.4 + chirp0 /\
  nth i (snd night) 0 = pinkOut w1 i * 0.4 + chirp1 /\
  0 <= env <= 1 /\
  -0.15 <= chirp0 <= 0.15 /\ -0.15 <= chirp1 <= 0.15 /\
  -3.194 <= nth i (fst night) 0 <= 3.194 /\
  -3.194 <= nth i (snd night) 0 <= 3.194.
Proof.
  intros N Hrnd Hi. cbv zeta. unfold createNightBuffer. cbv zeta. fold N.
  rewrite twoChannels_fst. cbn [fst snd]. rewrite nightLoop_cursor.
  rewrite !nightLoop_nth by exact Hi. rewrite !Nat.add_0_l.
  fold (chirpEnv (INR sampleRate) i).
  pose proof (chirpEnv_range (INR sampleRate) i) as He.
  pose proof (white_closed _ (Hrnd (k + 2 * i + 1)%nat)) as Hc0.
  pose proof (white_closed _ (Hrnd (k + 2 * N + 2 * i + 1)%nat)) as Hc1.
  pose proof (pinkOutFrom_bound pink0 (fun m => rnd (k + 2 * m)%nat * 2 - 1) i
                pink0_bounded (fun j => white_closed _ (Hrnd _))) as H0.
  pose proof (pinkOutFrom_bound pink0
                (fun m => rnd (k + 2 * N + 2 * m)%nat * 2 - 1) i
                pink0_bounded (fun j => white_closed _ (Hrnd _))) as H1.
  unfold pinkOut.
  set (e := chirpEnv (INR sampleRate) i) in *.
  set (c0 := rnd (k + 2 * i + 1)%nat * 2 - 1) in *.
  set (c1 := rnd (k + 2 * N + 2 * i + 1)%nat * 2 - 1) in *.
  assert (-0.15 <= c0 * e * 0.15 <= 0.15) by (split; nra).
  assert (-0.15 <= c1 * e * 0.15 <= 0.15) by (split; nra).
  repeat split; try reflexivity; try lra.
Qed.

End SynthMore.

Section SynthMoreExamples.

Import Synth.
Local Open Scope R_scope.

Lemma draws34_range : forall j : nat, 0 <= draws34 j < 1.
Proof. intros j. unfold draws34. lra. Qed.


Lemma brown_textures_bounded_witness :
  let wave := fst (createWaveBuffer draws34 2 1 0%nat) in
  let rain := fst (createRainBuffer draws34 2 1 0%nat) in
  (forall w, (forall j, -1 <= w j <= 1) -> -10 <= brown w 1 <= 10) /\
  -40 <= nth 1 (fst wave) 0 <= 40 /\ -40 <= nth 1 (snd wave) 0 <= 40 /\
  -20.5 <= nth 1 (fst rain) 0 <= 20.5 /\ -20.5 <= nth 1 (snd rain) 0 <= 20.5.
Proof.
  apply (brown_textures_bounded draws34 2 1 0 1).
  - exact draws34_range.
  - simpl. lia.
Defined.

Lemma forest_samples_bounded_witness :
  let forest := fst (createForestBuffer draws34 2 4 0%nat) in
  (forall w, (forall j, -1 <= w j <= 1) -> -7.61 <= pinkOut w 3 <= 7.61) /\
  -7.61 <= nth 3 (fst forest) 0 <= 7.61 /\
  -7.61 <= nth 3 (snd forest) 0 <= 7.61.
Proof.
  apply (forest_samples_bounded draws34 2 4 0 3).
  - exact draws34_range.
  - simpl. lia.
Defined.

Lemma temple_samples_witness :
  let temple := fst (createTempleBuffer draws34 2 4 0%nat) in
  -0.015 <= sin (2 * PI * 380 * (INR 3 / INR 2)) * 0.015 <= 0.015 /\
  -7.625 <= nth 3 (fst temple) 0 <= 7.625 /\
  -7.625 <= nth 3 (snd temple) 0 <= 7.625.
Proof.
  pose proof (temple_samples draws34 2 4 0 3 draws34_range
                ltac:(simpl; lia)) as H.
  cbv zeta in H. cbv zeta. apply H.
Defined.

Lemma night_samples_witness :
  let night := fst (createNightBuffer draws34 2 3 0%nat) in
  -3.194 <= nth 5 (fst night) 0 <= 3.194 /\
  -3.194 <= nth 5 (snd night) 0 <= 3.194.
Proof.
  pose proof (night_samples draws34 2 3 0 5 draws34_range
                ltac:(simpl; lia)) as H.
  cbv zeta in H. cbv zeta. apply H.
Defined.

End SynthMoreExamples.

(* ================================================================== *)
(** ** The visualizer *)
(* ================================================================== *)

Section VisualizerFacts.

Import Engine Visualizer.
Local Open Scope R_scope.

Lemma byteValue_range b : 0 <= byteValue b <= 255.
Proof. destruct b; unfold byteValue; cbn; lra. Qed.

Lemma sampleY_eq height b : sampleY height b = byteValue b * height / 256.
Proof. unfold sampleY. field. Qed.

Lemma sampleY_range height b :
  0 <= height -> 0 <= sampleY height b <= height.
Proof.
  intros Hh. rewrite sampleY_eq. pose proof (byteValue_range b) as [H0 H1].
  split; nra.
Qed.

Lemma waveformPoints_length data sw height n i x :
  List.length (waveformPoints data sw height n i x) = n.
Proof.
  revert i x. induction n as [|n IH]; intros i x; cbn; [|rewrite IH];
    reflexivity.
Qed.

Lemma waveformPoints_nth data sw height n : forall i x k, (k < n)%nat ->
  nth k (waveformPoints data sw height n i x) (0, 0)
  = (x + INR k * sw, sampleY height (nth (i + k) data Byte.x00)).
Proof.
  induction n as [|n IH]; intros i x k Hk; [inversion Hk|].
  destruct k as [|k].
  - cbn [waveformPoints nth]. rewrite Nat.add_0_r. f_equal. cbn. ring.
  - cbn [waveformPoints nth]. rewrite IH by (apply PeanoNat.lt_S_n; exact Hk).
    rewrite S_INR, Nat.add_succ_r. f_equal. ring.
Qed.

Lemma frame_nth (f : nat -> Byte.byte) n k :
  (k < n)%nat -> nth k (map f (seq 0 n)) Byte.x00 = f k.
Proof.
  intros Hk.
  rewrite nth_indep with (d' := f 0%nat)
    by (rewrite length_map, length_seq; exact Hk).
  rewrite map_nth, seq_nth by exact Hk. reflexivity.
Qed.

Lemma ln10_pos : 0 < ln 10.
Proof. rewrite <- ln_1. apply ln_increasing; lra. Qed.

Lemma log10_lt x y : 0 < x -> x < y -> log10 x < log10 y.
Proof.
  intros Hx Hxy. unfold log10. pose proof ln10_pos.
  pose proof (ln_increasing x y Hx Hxy).
  apply Rmult_lt_compat_r; [apply Rinv_0_lt_compat; assumption | assumption].
Qed.

Lemma log10_le x y : 0 < x -> x <= y -> log10 x <= log10 y.
Proof.
  intros Hx [Hxy| ->]; [left; apply log10_lt; assumption | right; reflexivity].
Qed.

Lemma log10_span : 0 < log10 16000 - log10 250.
Proof. pose proof (log10_lt 250 16000). lra. Qed.

(** X23: one frame of the visualizer leaves the state alone.  In a
    reachable world it shows the idle picture exactly when therapy is not
    playing; while therapy plays the path has the 1024 samples of the
    analyser and the closing point: sample [i] sits at
    [x = i * width / 1024] and [y = byte * height / 256], so on a canvas of
    non-negative size no point leaves it, and the last point is
    [(width, height / 2)]. *)
Theorem draw_frame width height w :
  reachable w ->
  exists p,
    draw width height w = Ok p w /\
    (isTherapyPlaying (engine w) = false -> p = IdleState) /\
    (isTherapyPlaying (engine w) = true ->
       exists path,
         p = Waveform path (indicatorPosition (currentFrequency (engine w)) width) /\
         List.length path = 1025%nat /\
         nth 1024 path (0, 0) = (width, height / 2) /\
         forall i, (i < 1024)%nat ->
           nth i path (0, 0)
           = (INR i * (width / 1024),
              byteValue (analyserFrame (host w) i) * height / 256) /\
           (0 <= width -> 0 <= fst (nth i path (0, 0)) <= width) /\
           (0 <= height -> 0 <= snd (nth i path (0, 0)) <= height)).
Proof.
  intros Rw. pose proof (reachable_good w Rw) as G.
  pose proof G as [[_ _ _ Fc _ _ Ff] _].
  unfold draw, bind, this, ret. rewrite getAnalyserData_eq, Ff.
  change (2048 / 2)%Z with 1024%Z.
  destruct (isTherapyPlaying (engine w)) eqn:Hp.
  - rewrite (good_playing_context w G Hp) in Fc.
    destruct Fc as (g & a & _ & ->). cbv beta iota zeta.
    change (Z.to_nat 1024) with 1024%nat.
    eexists. split; [reflexivity|]. split; [discriminate|]. intros _.
    eexists. split; [reflexivity|].
    assert (L : List.length
                  (waveformPoints
                     (map (analyserFrame (host w)) (seq 0 1024))
                     (width / 1024) height 1024 0 0) = 1024%nat)
      by apply waveformPoints_length.
    split; [rewrite length_app, L; reflexivity|].
    split.
    { rewrite app_nth2 by (rewrite L; apply Nat.le_refl).
      rewrite L, Nat.sub_diag. reflexivity. }
    intros i Hi.
    rewrite app_nth1 by (rewrite L; exact Hi).
    rewrite waveformPoints_nth by exact Hi.
    rewrite Nat.add_0_l, frame_nth by exact Hi.
    rewrite sampleY_eq, Rplus_0_l. split; [reflexivity|].
    cbn [fst snd]. split.
    + intros Hw. pose proof (pos_INR i) as Hi0.
      assert (Hi1 : INR i <= 1024).
      { replace 1024 with (INR 1024) by (rewrite INR_IZR_INZ; reflexivity).
        apply le_INR, Nat.lt_le_incl, Hi. }
      split; nra.
    + intros Hh. rewrite <- sampleY_eq. apply sampleY_range, Hh.
  - eexists. split.
    + destruct (analyser (engine w)); reflexivity.
    + split; [reflexivity | discriminate].
Qed.

Lemma draw_frame_witness :
  exists p,
    draw 300 200 playingRain = Ok p playingRain /\
    (isTherapyPlaying (engine playingRain) = false -> p = IdleState) /\
    (isTherapyPlaying (engine playingRain) = true ->
       exists path,
         p = Waveform path
               (indicatorPosition (currentFrequency (engine playingRain)) 300) /\
         List.length path = 1025%nat /\
         nth 1024 path (0, 0) = (300, 200 / 2) /\
         forall i, (i < 1024)%nat ->
           nth i path (0, 0)
           = (INR i * (300 / 1024),
              byteValue (analyserFrame (host playingRain) i) * 200 / 256) /\
           (0 <= 300 -> 0 <= fst (nth i path (0, 0)) <= 300) /\
           (0 <= 200 -> 0 <= snd (nth i path (0, 0)) <= 200)).
Proof.
  apply (draw_frame 300 200 playingRain). apply reach_step, reach_init.
Defined.

Lemma ratio_spec x :
  ratio x * (log10 16000 - log10 250) = log10 x - log10 250.
Proof. pose proof log10_span. unfold ratio. field. lra. Qed.

Lemma indicatorPosition_eq f width :
  indicatorPosition f width = ratio (IZR f) * width.
Proof. reflexivity. Qed.

(** X24: on a canvas of positive width the notch indicator of
    [drawFrequencyIndicator] lies on the canvas exactly when the frequency
    is in [250, 16000]; it is at the left edge for 250 Hz, at the right
    edge for 16000 Hz, and moves right as the frequency grows. *)
Theorem indicatorPosition_range f width :
  (0 < f)%Z -> 0 < width ->
  (0 <= indicatorPosition f width <= width <-> (250 <= f <= 16000)%Z) /\
  indicatorPosition 250 width = 0 /\
  indicatorPosition 16000 width = width /\
  forall f', (f < f')%Z ->
    indicatorPosition f width < indicatorPosition f' width.
Proof.
  intros Hf Hw. pose proof log10_span as Hs.
  assert (Hf0 : 0 < IZR f) by (apply IZR_lt; exact Hf).
  split; [|split; [|split]].
  - rewrite indicatorPosition_eq.
    pose proof (ratio_spec (IZR f)) as Ht.
    set (t := ratio (IZR f)) in *. split.
    + intros [H0 H1]. split.
      * destruct (Z_lt_le_dec f 250) as [Hlt|]; [exfalso|assumption].
        pose proof (log10_lt (IZR f) 250 Hf0 (IZR_lt _ _ Hlt)). nra.
      * destruct (Z_le_gt_dec f 16000) as [|Hgt]; [assumption|exfalso].
        pose proof (log10_lt 16000 (IZR f) ltac:(lra)
                      (IZR_lt _ _ (Z.gt_lt _ _ Hgt))).
        nra.
    + intros [H0 H1].
      pose proof (log10_le 250 (IZR f) ltac:(lra) (IZR_le _ _ H0)).
      pose proof (log10_le (IZR f) 16000 Hf0 (IZR_le _ _ H1)).
      split; nra.
  - rewrite indicatorPosition_eq. pose proof (ratio_spec 250). nra.
  - rewrite indicatorPosition_eq. pose proof (ratio_spec 16000). nra.
  - intros f' Hff. rewrite !indicatorPosition_eq.
    pose proof (log10_lt (IZR f) (IZR f') Hf0 (IZR_lt _ _ Hff)).
    pose proof (ratio_spec (IZR f)). pose proof (ratio_spec (IZR f')).
    apply Rmult_lt_compat_r; [exact Hw|]. nra.
Qed.

Lemma indicatorPosition_range_witness :
  (0 <= indicatorPosition 4000 300 <= 300 <-> (250 <= 4000 <= 16000)%Z) /\
  indicatorPosition 250 300 = 0 /\
  indicatorPosition 16000 300 = 300 /\
  forall f', (4000 < f')%Z ->
    indicatorPosition 4000 300 < indicatorPosition f' 300.
Proof. apply (indicatorPosition_range 4000 300); [lia | lra]. Defined.

End VisualizerFacts.
